(** * WakaWars: ranking, daily leaderboard, achievement grants, honor titles
      and backfill

    A shallow embedding of the pure core of the WakaWars server and of the
    shared leaderboard package, with the properties that the design
    document states about them.

    JavaScript values are modelled as follows.
    - [number]s that hold second counts, identifiers and timestamps are
      integers ([Z]); array indices and ranks are [nat].
    - [string]s are [String.string]; [===] on them is [String.eqb].
    - Arrays are lists.  A [Map] is an association list kept in insertion
      order (the order [entries()] and [values()] iterate in); a [Set] that
      is only queried with [has] is a list.
    - [Array.prototype.sort] is the stable sort that ECMAScript prescribes,
      driven by the sign of the comparator's result.
    - [String.prototype.localeCompare] is a parameter of the development:
      the properties below are proved for every comparison that is a
      consistent comparator.
    - A [Date] is its time value in milliseconds; the UTC getters,
      [Date.UTC] and [setUTCDate] follow the day and year arithmetic of
      ECMAScript.  Parsing a date text and the date key of a user's time
      zone are parameters.
    - The argument of [formatDuration] can be any number, so there the
      numbers are IEEE 754 binary64 values ([spec_float]).
    - The two repositories are a list of rows each: the in-memory one the
      server is tested against, and the table behind the Prisma one, whose
      [upsert] updates the row of the unique key or creates it. *)

From Stdlib Require Import ZArith QArith List String Ascii Bool Lia.
From Stdlib Require Import DecimalString DecimalZ SpecFloat.
From Stdlib Require Import Sorted Permutation.
Import ListNotations.

Local Open Scope string_scope.
Local Open Scope list_scope.
Local Open Scope Z_scope.

Set Implicit Arguments.

(** ** JavaScript arrays *)

Module JsArray.

Section Sort.
Variable A : Type.
Variable cmp : A -> A -> Z.

(** [insert x l] puts [x] in front of the first element that the
    comparator does not order before it. *)
Fixpoint insert (x : A) (l : list A) : list A :=
  match l with
  | [] => [x]
  | y :: t => if 0 <? cmp x y then y :: insert x t else x :: y :: t
  end.

(** [Array.prototype.sort(cmp)]: stable. *)
Fixpoint sort (l : list A) : list A :=
  match l with
  | [] => []
  | x :: t => insert x (sort t)
  end.
End Sort.

(** [Array.prototype.slice(start, end)] with integer arguments: negative
    positions count from the end, and both are clamped to the array. *)
Definition slice (A : Type) (l : list A) (start stop : Z) : list A :=
  let len := Z.of_nat (List.length l) in
  let k := if start <? 0 then Z.max (len + start) 0 else Z.min start len in
  let final := if stop <? 0 then Z.max (len + stop) 0 else Z.min stop len in
  firstn (Z.to_nat (final - k)) (skipn (Z.to_nat k) l).

(** [Array.prototype.findIndex]: [None] stands for [-1]. *)
Fixpoint findIndex (A : Type) (p : A -> bool) (l : list A) : option nat :=
  match l with
  | [] => None
  | x :: t => if p x then Some O else option_map S (findIndex p t)
  end.

(** [Array.prototype.map] with a callback that reads the index;
    [index] is the position of the head of [l]. *)
Fixpoint mapi (A B : Type) (f : A -> nat -> B) (index : nat) (l : list A)
  : list B :=
  match l with
  | [] => []
  | x :: t => f x index :: mapi f (S index) t
  end.

End JsArray.

(** ** The shared leaderboard package *)

Inductive DailyStatStatus : Type :=
| ok
| private
| not_found
| error.

Definition status_eqb (a b : DailyStatStatus) : bool :=
  match a, b with
  | ok, ok | private, private | not_found, not_found | error, error => true
  | _, _ => false
  end.

Record DailyStat : Type := mkDailyStat {
  username : string;
  honorTitle : option string;
  totalSeconds : Z;
  status : DailyStatStatus;
  error_message : option string
}.

Record LeaderboardEntry : Type := mkEntry {
  stat : DailyStat;
  rank : option nat;
  deltaSeconds : Z
}.

Definition statusOrder (s : DailyStatStatus) : Z :=
  match s with
  | ok => 0
  | private => 1
  | not_found => 2
  | error => 3
  end.

Definition isOk (s : DailyStat) : bool := status_eqb (status s) ok.

Record SliceOptions : Type := mkSliceOptions {
  podiumCount : option Z;
  aroundCount : option Z
}.

Record Slices : Type := mkSlices {
  ordered : list DailyStat;
  podium : list DailyStat;
  nearMe : list DailyStat;
  rest : list DailyStat;
  selfEntry : option DailyStat;
  leaderEntry : option DailyStat
}.

Section Leaderboard.
Variable localeCompare : string -> string -> Z.

(** The comparator of [sortStats]. *)
Definition compareStats (a b : DailyStat) : Z :=
  let statusDelta := statusOrder (status a) - statusOrder (status b) in
  if negb (statusDelta =? 0) then statusDelta
  else
    let timeDelta := totalSeconds b - totalSeconds a in
    if negb (timeDelta =? 0) then timeDelta
    else localeCompare (username a) (username b).

Definition sortStats (stats : list DailyStat) : list DailyStat :=
  JsArray.sort compareStats stats.

(** The callback of [ordered.map] in [computeLeaderboard], with the two
    captured variables [currentRank] and [lastSeconds] threaded through. *)
Fixpoint rankEntries (shouldBreakAllZeroTies : bool) (selfSeconds : Z)
         (index : nat) (currentRank : nat) (lastSeconds : option Z)
         (entries : list DailyStat) : list LeaderboardEntry :=
  match entries with
  | [] => []
  | entry :: more =>
      let isRanked := isOk entry in
      let '(currentRank', lastSeconds') :=
        if isRanked then
          if shouldBreakAllZeroTies then
            (S index, Some (totalSeconds entry))
          else if match lastSeconds with
                  | None => true
                  | Some l => negb (totalSeconds entry =? l)
                  end
          then (S index, Some (totalSeconds entry))
          else (currentRank, lastSeconds)
        else (currentRank, lastSeconds) in
      {| stat := entry;
         rank := if isRanked then Some currentRank' else None;
         deltaSeconds := totalSeconds entry - selfSeconds |}
      :: rankEntries shouldBreakAllZeroTies selfSeconds
                     (S index) currentRank' lastSeconds' more
  end.

Definition computeLeaderboard (stats : list DailyStat) (selfUsername : string)
  : list LeaderboardEntry :=
  let ordered := sortStats stats in
  let ranked := filter isOk ordered in
  let shouldBreakAllZeroTies :=
    (0 <? List.length ranked)%nat
    && forallb (fun entry => totalSeconds entry =? 0) ranked in
  let selfEntry :=
    find (fun entry => String.eqb (username entry) selfUsername) ordered in
  let selfSeconds :=
    match selfEntry with
    | Some e => totalSeconds e
    | None => 0
    end in
  rankEntries shouldBreakAllZeroTies selfSeconds 0 0 None ordered.

Definition sliceLeaderboard (entries : list DailyStat) (selfUsername : string)
           (options : SliceOptions) : Slices :=
  let podiumCount :=
    match podiumCount options with Some n => n | None => 3 end in
  let aroundCount :=
    match aroundCount options with Some n => n | None => 1 end in
  let ordered := sortStats entries in
  let ranked := filter isOk ordered in
  let podium := JsArray.slice ranked 0 podiumCount in
  let selfIndex :=
    JsArray.findIndex
      (fun entry => String.eqb (username entry) selfUsername) ranked in
  let selfEntry :=
    match selfIndex with
    | Some i => nth_error ranked i
    | None => None
    end in
  let leaderEntry := nth_error ranked 0 in
  let nearMe :=
    match selfIndex with
    | Some i =>
        let start := Z.max 0 (Z.of_nat i - aroundCount) in
        let stop :=
          Z.min (Z.of_nat (List.length ranked)) (Z.of_nat i + aroundCount + 1) in
        JsArray.slice ranked start stop
    | None => []
    end in
  let picked := map username podium ++ map username nearMe in
  let rest :=
    filter
      (fun entry =>
         negb (existsb (String.eqb (username entry)) picked))
      ordered in
  {| ordered := ordered;
     podium := podium;
     nearMe := nearMe;
     rest := rest;
     selfEntry := selfEntry;
     leaderEntry := leaderEntry |}.
End Leaderboard.

(** A concrete comparison for running the definitions: code-unit order. *)
Definition codeUnitCompare (a b : string) : Z :=
  match String.compare a b with
  | Lt => -1
  | Eq => 0
  | Gt => 1
  end.

Definition st (u : string) (s : Z) (k : DailyStatStatus) : DailyStat :=
  mkDailyStat u None s k None.

(** *** Vocabulary for the ranking properties *)

(** What [Array.prototype.sort] asks of a comparator, for the part that
    [localeCompare] contributes: opposite signs on swapped arguments, and
    transitivity of "not after". *)
Definition consistentComparator (compare : string -> string -> Z) : Prop :=
  (forall a b, Z.sgn (compare b a) = - Z.sgn (compare a b)) /\
  (forall a b c, compare a b <= 0 -> compare b c <= 0 -> compare a c <= 0).

(** [a] may stand before [b] by status rank and then seconds alone. *)
Definition keyLe (a b : DailyStat) : Prop :=
  statusOrder (status a) < statusOrder (status b) \/
  (statusOrder (status a) = statusOrder (status b) /\
   totalSeconds b <= totalSeconds a).

(** [a] may stand before [b]: status rank ascending, then seconds
    descending, then username ascending. *)
Definition orderedBefore (compare : string -> string -> Z)
           (a b : DailyStat) : Prop :=
  statusOrder (status a) < statusOrder (status b) \/
  (statusOrder (status a) = statusOrder (status b) /\
   (totalSeconds b < totalSeconds a \/
    (totalSeconds b = totalSeconds a /\
     compare (username a) (username b) <= 0))).

(** The [ok] entries of [l] with strictly more than [t] seconds. *)
Definition okAbove (t : Z) (l : list DailyStat) : list DailyStat :=
  filter (fun s => isOk s && (t <? totalSeconds s)) l.

(** Every [ok] entry of [l] has zero seconds. *)
Definition allOkZero (l : list DailyStat) : Prop :=
  forall s, In s l -> status s = ok -> totalSeconds s = 0.

(** No entry of [a] has the username of an entry of [b]. *)
Definition disjointByUsername (a b : list DailyStat) : Prop :=
  forall x y, In x a -> In y b -> username x <> username y.

(** ** Achievement grants *)

Inductive AchievementContextKind : Type :=
| daily
| weekly.

Definition contextKind_eqb (a b : AchievementContextKind) : bool :=
  match a, b with
  | daily, daily | weekly, weekly => true
  | _, _ => false
  end.

(** An optional JSON field, [unknown | null | undefined]; the JSON value is
    kept as its text. *)
Inductive OptionalJson : Type :=
| undefined
| null
| json (text : string).

(** [AchievementGrantRecord], the argument of [grantAchievement]. *)
Module Grant.
Record AchievementGrantRecord : Type := mk {
  userId : Z;
  achievementId : string;
  contextKind : AchievementContextKind;
  contextKey : string;
  awardedAt : Z;
  metadata : OptionalJson
}.
End Grant.

(** The in-memory repository that the server is tested against. *)
Module MemoryRepository.

Record AchievementRecord : Type := mk {
  userId : Z;
  achievementId : string;
  contextKind : AchievementContextKind;
  contextKey : string;
  awardedAt : Z;
  metadata : option string
}.

(** The predicate given to [findIndex]. *)
Definition sameTuple (input : Grant.AchievementGrantRecord)
           (entry : AchievementRecord) : bool :=
  (userId entry =? Grant.userId input)
  && String.eqb (achievementId entry) (Grant.achievementId input)
  && contextKind_eqb (contextKind entry) (Grant.contextKind input)
  && String.eqb (contextKey entry) (Grant.contextKey input).

Definition toRecord (input : Grant.AchievementGrantRecord)
  : AchievementRecord :=
  {| userId := Grant.userId input;
     achievementId := Grant.achievementId input;
     contextKind := Grant.contextKind input;
     contextKey := Grant.contextKey input;
     awardedAt := Grant.awardedAt input;
     metadata := match Grant.metadata input with
                 | json v => Some v
                 | null | undefined => None
                 end |}.

(** The store is the captured variable [achievements]; the function
    returns its next value. *)
Definition grantAchievement (achievements : list AchievementRecord)
           (input : Grant.AchievementGrantRecord) : list AchievementRecord :=
  let existingIndex := JsArray.findIndex (sameTuple input) achievements in
  let record := toRecord input in
  match existingIndex with
  | Some existingIndex =>
      JsArray.mapi
        (fun entry index =>
           if (index =? existingIndex)%nat then record else entry)
        0 achievements
  | None => achievements ++ [record]
  end.

(** The repository starts with no grant and only [grantAchievement]
    writes to it: its states are the results of call histories. *)
Definition afterGrants (history : list Grant.AchievementGrantRecord)
  : list AchievementRecord :=
  fold_left grantAchievement history [].

(** The rows of the store that carry the tuple of [input]. *)
Definition rowsFor (input : Grant.AchievementGrantRecord)
           (achievements : list AchievementRecord) : list AchievementRecord :=
  filter (sameTuple input) achievements.

(** At most one row per tuple. *)
Definition uniqueTuples (achievements : list AchievementRecord) : Prop :=
  forall k, (List.length (rowsFor k achievements) <= 1)%nat.

End MemoryRepository.

(** The Prisma repository keeps the grants in the table
    [ww_user_achievement] and writes them with one [upsert], selected by
    the compound unique index over (user_id, achievement_key, context_kind,
    context_key). *)
Module PrismaRepository.

Record ww_user_achievement : Type := mk {
  user_id : Z;
  achievement_key : string;
  context_kind : AchievementContextKind;
  context_key : string;
  awarded_at : Z;
  metadata : option string
}.

(** [upsert]: the row that the unique selector finds is updated; a row is
    created when it finds none. *)
Definition upsert (selector : ww_user_achievement -> bool)
           (create : ww_user_achievement)
           (update : ww_user_achievement -> ww_user_achievement)
           (table : list ww_user_achievement) : list ww_user_achievement :=
  if existsb selector table
  then map (fun row => if selector row then update row else row) table
  else table ++ [create].

Section Table.

(** The value of the column [metadata] in a row created without one. *)
Variable metadataDefault : option string.

(** The [where] argument. *)
Definition selects (input : Grant.AchievementGrantRecord)
           (row : ww_user_achievement) : bool :=
  (user_id row =? Grant.userId input)
  && String.eqb (achievement_key row) (Grant.achievementId input)
  && contextKind_eqb (context_kind row) (Grant.contextKind input)
  && String.eqb (context_key row) (Grant.contextKey input).

(** The [create] argument: an [undefined] field is left out, [null] is
    written as the database null. *)
Definition create (input : Grant.AchievementGrantRecord)
  : ww_user_achievement :=
  {| user_id := Grant.userId input;
     achievement_key := Grant.achievementId input;
     context_kind := Grant.contextKind input;
     context_key := Grant.contextKey input;
     awarded_at := Grant.awardedAt input;
     metadata := match Grant.metadata input with
                 | undefined => metadataDefault
                 | null => None
                 | json v => Some v
                 end |}.

(** The [update] argument: an [undefined] field leaves the column as it
    is. *)
Definition update (input : Grant.AchievementGrantRecord)
           (row : ww_user_achievement) : ww_user_achievement :=
  {| user_id := user_id row;
     achievement_key := achievement_key row;
     context_kind := context_kind row;
     context_key := context_key row;
     awarded_at := Grant.awardedAt input;
     metadata := match Grant.metadata input with
                 | undefined => metadata row
                 | null => None
                 | json v => Some v
                 end |}.

Definition grantAchievement (table : list ww_user_achievement)
           (input : Grant.AchievementGrantRecord) : list ww_user_achievement :=
  upsert (selects input) (create input) (update input) table.

(** The rows of the table that carry the tuple of [input]. *)
Definition rowsFor (input : Grant.AchievementGrantRecord)
           (table : list ww_user_achievement) : list ww_user_achievement :=
  filter (selects input) table.

(** The unique index: at most one row per tuple. *)
Definition uniqueIndex (table : list ww_user_achievement) : Prop :=
  forall k, (List.length (rowsFor k table) <= 1)%nat.

End Table.
End PrismaRepository.

(** A second call for the tuple of [input], with its own [awardedAt] and
    [metadata]. *)
Definition regrant (input : Grant.AchievementGrantRecord) (awardedAt : Z)
           (metadata : OptionalJson) : Grant.AchievementGrantRecord :=
  {| Grant.userId := Grant.userId input;
     Grant.achievementId := Grant.achievementId input;
     Grant.contextKind := Grant.contextKind input;
     Grant.contextKey := Grant.contextKey input;
     Grant.awardedAt := awardedAt;
     Grant.metadata := metadata |}.

(** ** JavaScript maps and dates *)

Module JsMap.
Section Map.
Variables K V : Type.
Variable eqb : K -> K -> bool.

(** [Map.prototype.get]; [None] stands for [undefined]. *)
Fixpoint get (k : K) (m : list (K * V)) : option V :=
  match m with
  | [] => None
  | (k', v) :: t => if eqb k' k then Some v else get k t
  end.

(** [Map.prototype.set]: a present key keeps its place. *)
Fixpoint set (k : K) (v : V) (m : list (K * V)) : list (K * V) :=
  match m with
  | [] => [(k, v)]
  | (k', v') :: t => if eqb k' k then (k, v) :: t else (k', v') :: set k v t
  end.

(** [new Map(pairs)] *)
Definition ofPairs (pairs : list (K * V)) : list (K * V) :=
  fold_left (fun m kv => set (fst kv) (snd kv) m) pairs [].
End Map.

(** [value ?? []] and [value ?? new Map()] *)
Definition orEmpty (A : Type) (value : option (list A)) : list A :=
  match value with
  | Some l => l
  | None => []
  end.

(** [Array.from(new Set(values))]: the first occurrence of each value, in
    order. *)
Fixpoint setOf (values seen : list Z) : list Z :=
  match values with
  | [] => []
  | v :: t =>
      if existsb (Z.eqb v) seen then setOf t seen
      else v :: setOf t (v :: seen)
  end.
End JsMap.

(** The time-value arithmetic of ECMAScript (clause "Date objects"), on
    integers. *)
Module JsDate.

Definition msPerDay : Z := 86400000.

Definition Day (t : Z) : Z := t / msPerDay.

Definition WeekDay (t : Z) : Z := (Day t + 4) mod 7.

Definition DayFromYear (y : Z) : Z :=
  365 * (y - 1970) + (y - 1969) / 4 - (y - 1901) / 100 + (y - 1601) / 400.

Definition DaysInYear (y : Z) : Z :=
  if negb (y mod 4 =? 0) then 365
  else if negb (y mod 100 =? 0) then 366
  else if negb (y mod 400 =? 0) then 365
  else 366.

(** Days before month [m] (0-based) in a year that is leap or not. *)
Definition daysBeforeMonth (leap : bool) (m : Z) : Z :=
  let l := if leap then 1 else 0 in
  match m with
  | 0 => 0
  | 1 => 31
  | 2 => 59 + l
  | 3 => 90 + l
  | 4 => 120 + l
  | 5 => 151 + l
  | 6 => 181 + l
  | 7 => 212 + l
  | 8 => 243 + l
  | 9 => 273 + l
  | 10 => 304 + l
  | _ => 334 + l
  end.

(** [MakeDay(year, month, date)]; [month] may lie outside 0..11. *)
Definition MakeDay (year month date : Z) : Z :=
  let ym := year + month / 12 in
  let mn := month mod 12 in
  DayFromYear ym + daysBeforeMonth (DaysInYear ym =? 366) mn + date - 1.

(** [Date.UTC(year, month, date)]: a year from 0 to 99 means 1900 + year.
    The result is a time value in milliseconds. *)
Definition UTC (year month date : Z) : Z :=
  let yr := if (0 <=? year) && (year <=? 99) then 1900 + year else year in
  MakeDay yr month date * msPerDay.

Definition getUTCDay (t : Z) : Z := WeekDay t.

End JsDate.

(** ** Honor titles *)

Module AchievementGrantSummary.
Record AchievementGrantSummary : Type := mk {
  userId : Z;
  achievementId : string;
  contextKind : AchievementContextKind;
  contextKey : string;
  awardedAt : Z
}.
End AchievementGrantSummary.

Module HonorTitles.
Import AchievementGrantSummary.

Definition WORKWEEK_WARRIOR_40H : string := "workweek-warrior-40h".
Definition WEEK_MS : Z := 7 * 24 * 60 * 60 * 1000.

Definition TITLE_BY_ACHIEVEMENT_ID : list (string * string) :=
  [ ("quick-boot-4h", "Daybreak Sprinter");
    ("focus-reactor-6h", "Focus Reactor");
    ("streak-forge-8h", "Green Wall Initiate");
    ("overclocked-core-10h", "Overclock Core");
    ("merge-mountain-12h", "Merge Mountain Slayer");
    ("night-shift-14h", "Night Shift Sentinel");
    ("legendary-commit-16h", "Commit Overlord");
    ("boss-raid-20h", "Boss Raider");
    ("weekend-warrior-8h", "Weekend Warrior");
    ("weekend-overdrive-12h", "Weekend Overdrive");
    ("solo-day-8h", "Solo Blade");
    ("switchblade-day-8h", "Switchblade");
    ("mono-language-day-8h", "Mono Tongue");
    ("language-juggler-day-8h", "Language Juggler");
    ("deep-focus-day-8h", "Deep Focus Diver");
    ("workweek-warrior-40h", "Workweek Warrior");
    ("ship-it-60h", "Release Captain");
    ("green-wall-80h", "Green Wall Commander");
    ("graph-overflow-100h", "Graph Breaker");
    ("matrix-120h", "Matrix Sovereign");
    ("mono-stack-80h", "Solo Stack Hero");
    ("mono-stack-100h", "Solo Stack Mythic");
    ("polyglot-stack-80h", "Polyglot General");
    ("language-hydra-80h", "Language Hydra");
    ("language-spectrum-80h", "Spectrum Master");
    ("editor-arsenal-80h", "Editor Arsenal");
    ("project-monolith-80h", "Monolith Architect");
    ("project-nomad-80h", "Project Nomad");
    ("seven-sunrise-week", "Seven Sunrises");
    ("iron-week-4h", "Iron Week");
    ("marathon-pace-8h", "Marathon Coder");
    ("ultra-pace-10h", "Turbo Engine") ].

Definition ACHIEVEMENT_PRIORITY : list (string * Z) :=
  [ ("quick-boot-4h", 1);
    ("focus-reactor-6h", 2);
    ("streak-forge-8h", 3);
    ("overclocked-core-10h", 4);
    ("merge-mountain-12h", 5);
    ("night-shift-14h", 6);
    ("legendary-commit-16h", 8);
    ("boss-raid-20h", 10);
    ("weekend-warrior-8h", 2);
    ("weekend-overdrive-12h", 4);
    ("solo-day-8h", 3);
    ("switchblade-day-8h", 4);
    ("mono-language-day-8h", 4);
    ("language-juggler-day-8h", 5);
    ("deep-focus-day-8h", 4);
    ("workweek-warrior-40h", 5);
    ("ship-it-60h", 6);
    ("green-wall-80h", 7);
    ("graph-overflow-100h", 9);
    ("matrix-120h", 10);
    ("mono-stack-80h", 7);
    ("mono-stack-100h", 9);
    ("polyglot-stack-80h", 7);
    ("language-hydra-80h", 8);
    ("language-spectrum-80h", 9);
    ("editor-arsenal-80h", 8);
    ("project-monolith-80h", 7);
    ("project-nomad-80h", 7);
    ("seven-sunrise-week", 4);
    ("iron-week-4h", 6);
    ("marathon-pace-8h", 7);
    ("ultra-pace-10h", 8) ].

(** [TITLE_BY_ACHIEVEMENT_ID[id] ?? "Achievement Hunter"]; the ids are
    catalog keys, never names of [Object.prototype] members. *)
Definition titleOf (achievementId : string) : string :=
  match JsMap.get String.eqb achievementId TITLE_BY_ACHIEVEMENT_ID with
  | Some t => t
  | None => "Achievement Hunter"
  end.

(** [ACHIEVEMENT_PRIORITY[id] ?? 0] *)
Definition priorityOf (achievementId : string) : Z :=
  match JsMap.get String.eqb achievementId ACHIEVEMENT_PRIORITY with
  | Some p => p
  | None => 0
  end.

Definition getIsoWeekStartMs (year week : Z) : option Z :=
  if (week <? 1) || (53 <? week) then None
  else
    let jan4 := JsDate.UTC year 0 4 in
    let jan4Weekday :=
      if JsDate.getUTCDay jan4 =? 0 then 7 else JsDate.getUTCDay jan4 in
    let weekOneMondayMs := jan4 - (jan4Weekday - 1) * 86400000 in
    Some (weekOneMondayMs + (week - 1) * WEEK_MS).

(** [\d]: an ASCII digit, with its value. *)
Definition digit (c : ascii) : option Z :=
  let n := Z.of_nat (nat_of_ascii c) in
  if (48 <=? n) && (n <=? 57) then Some (n - 48) else None.

(** The match of [/(\d{4})-W(\d{2})$/]: the last eight characters, read
    here from the end of the string. *)
Definition matchIsoWeek (contextKey : string) : option (Z * Z) :=
  match rev (list_ascii_of_string contextKey) with
  | w0 :: w1 :: "W"%char :: "-"%char :: y0 :: y1 :: y2 :: y3 :: _ =>
      match digit y3, digit y2, digit y1, digit y0, digit w1, digit w0 with
      | Some a, Some b, Some c, Some d, Some e, Some f =>
          Some (1000 * a + 100 * b + 10 * c + d, 10 * e + f)
      | _, _, _, _, _, _ => None
      end
  | _ => None
  end.

Definition parseIsoWeekFromContextKey (contextKey : string) : option Z :=
  match matchIsoWeek contextKey with
  | None => None
  | Some (year, week) => getIsoWeekStartMs year week
  end.

(** The [.map(parse).filter(value => value !== null)] pipeline. *)
Fixpoint parsedWeekStarts (contextKeys : list string) : list Z :=
  match contextKeys with
  | [] => []
  | k :: t =>
      match parseIsoWeekFromContextKey k with
      | Some ms => ms :: parsedWeekStarts t
      | None => parsedWeekStarts t
      end
  end.

(** The variables [longest], [current] and [previous] of the scan. *)
Record Streak : Type := mkStreak {
  longest : nat;
  current : nat;
  previous : option Z
}.

(** The callback of [weekStarts.forEach]. *)
Definition streakStep (s : Streak) (weekStart : Z) : Streak :=
  let current' :=
    match previous s with
    | Some p => if weekStart - p =? WEEK_MS then S (current s) else 1%nat
    | None => 1%nat
    end in
  {| longest := Nat.max (longest s) current';
     current := current';
     previous := Some weekStart |}.

Definition getLongestConsecutiveWeekStreak (contextKeys : list string) : nat :=
  let weekStarts :=
    JsArray.sort (fun a b => a - b)
                 (JsMap.setOf (parsedWeekStarts contextKeys) []) in
  longest (fold_left streakStep weekStarts (mkStreak 0 0 None)).

Definition getCount (counts : list (string * Z)) (achievementId : string) : Z :=
  match JsMap.get String.eqb achievementId counts with
  | Some c => c
  | None => 0
  end.

Definition resolveComboHonorTitle (achievementCounts : list (string * Z))
           (weeklyFortyContextKeys : list string) : option string :=
  let weeklyFortyStreak :=
    getLongestConsecutiveWeekStreak weeklyFortyContextKeys in
  if (8 <=? weeklyFortyStreak)%nat then Some "Emperor of Weeks"
  else if (4 <=? weeklyFortyStreak)%nat then Some "Sultan of Weeks"
  else if 2 <=? getCount achievementCounts "matrix-120h"
  then Some "Matrix Deity"
  else if 2 <=? getCount achievementCounts "graph-overflow-100h"
  then Some "Overflow Breaker"
  else if 4 <=? getCount achievementCounts "green-wall-80h"
  then Some "Eternal Green Wall"
  else if (1 <=? getCount achievementCounts "language-spectrum-80h")
          && (1 <=? getCount achievementCounts "editor-arsenal-80h")
  then Some "Master of All Trades"
  else if (1 <=? getCount achievementCounts "mono-stack-100h")
          && (1 <=? getCount achievementCounts "project-monolith-80h")
  then Some "Solo Stack Titan"
  else if (2 <=? getCount achievementCounts "ultra-pace-10h")
          && (2 <=? getCount achievementCounts "iron-week-4h")
  then Some "Unstoppable Machine"
  else None.

(** The records that [resolveTopAchievementTitle] sorts. *)
Record RankedAchievement : Type := mkRanked {
  ra_achievementId : string;
  ra_count : Z;
  ra_title : string;
  ra_priority : Z
}.

Definition toRanked (entry : string * Z) : RankedAchievement :=
  {| ra_achievementId := fst entry;
     ra_count := snd entry;
     ra_title := titleOf (fst entry);
     ra_priority := priorityOf (fst entry) |}.

Section Resolve.
Variable localeCompare : string -> string -> Z.

Definition compareRanked (a b : RankedAchievement) : Z :=
  if negb (ra_priority a =? ra_priority b)
  then ra_priority b - ra_priority a
  else if negb (ra_count a =? ra_count b)
  then ra_count b - ra_count a
  else localeCompare (ra_achievementId a) (ra_achievementId b).

Definition resolveTopAchievementTitle (achievementCounts : list (string * Z))
  : option string :=
  let ranked :=
    JsArray.sort compareRanked
      (map toRanked (filter (fun entry => 0 <? snd entry) achievementCounts)) in
  match ranked with
  | first :: _ => Some (ra_title first)
  | [] => None
  end.

Definition resolveHonorTitle (achievementCounts : list (string * Z))
           (weeklyFortyContextKeys : list string) : option string :=
  match resolveComboHonorTitle achievementCounts weeklyFortyContextKeys with
  | Some comboTitle =>
      if String.eqb comboTitle "" then
        resolveTopAchievementTitle achievementCounts
      else Some comboTitle
  | None => resolveTopAchievementTitle achievementCounts
  end.
End Resolve.

(** The two maps filled by [grants.forEach]. *)
Definition Grouped : Type :=
  (list (Z * list (string * Z)) * list (Z * list string))%type.

Definition groupStep (state : Grouped) (grant : AchievementGrantSummary)
  : Grouped :=
  let '(countsByUserId, weeklyFortyContextKeysByUserId) := state in
  let userCounts :=
    JsMap.orEmpty (JsMap.get Z.eqb (userId grant) countsByUserId) in
  let userCounts :=
    JsMap.set String.eqb (achievementId grant)
              (getCount userCounts (achievementId grant) + 1) userCounts in
  let countsByUserId :=
    JsMap.set Z.eqb (userId grant) userCounts countsByUserId in
  if String.eqb (achievementId grant) WORKWEEK_WARRIOR_40H
     && contextKind_eqb (contextKind grant) weekly
  then
    let contextKeys :=
      JsMap.orEmpty
        (JsMap.get Z.eqb (userId grant) weeklyFortyContextKeysByUserId) in
    (countsByUserId,
     JsMap.set Z.eqb (userId grant) (contextKeys ++ [contextKey grant])
               weeklyFortyContextKeysByUserId)
  else (countsByUserId, weeklyFortyContextKeysByUserId).

Definition groupGrants (grants : list AchievementGrantSummary) : Grouped :=
  fold_left groupStep grants ([], []).

(** [countsByUserId.get(userId) ?? new Map()] after the grants are read. *)
Definition achievementCountsOf (userId : Z)
           (grants : list AchievementGrantSummary) : list (string * Z) :=
  JsMap.orEmpty (JsMap.get Z.eqb userId (fst (groupGrants grants))).

(** [weeklyFortyContextKeysByUserId.get(userId) ?? []] *)
Definition weeklyFortyContextKeysOf (userId : Z)
           (grants : list AchievementGrantSummary) : list string :=
  JsMap.orEmpty (JsMap.get Z.eqb userId (snd (groupGrants grants))).

Definition resolveHonorTitlesByUserId (localeCompare : string -> string -> Z)
           (userIds : list Z) (grants : list AchievementGrantSummary)
  : list (Z * option string) :=
  JsMap.ofPairs Z.eqb
    (map (fun userId =>
            (userId,
             resolveHonorTitle localeCompare
                               (achievementCountsOf userId grants)
                               (weeklyFortyContextKeysOf userId grants)))
         userIds).

(** *** Vocabulary for the honor-title properties *)

(** The grant is one of [u] for achievement [a]. *)
Definition isGrantOf (u : Z) (a : string) (g : AchievementGrantSummary)
  : bool :=
  (userId g =? u) && String.eqb (achievementId g) a.

(** The grant is a weekly workweek-warrior grant of [u]. *)
Definition isWeeklyForty (u : Z) (g : AchievementGrantSummary) : bool :=
  (userId g =? u) && String.eqb (achievementId g) WORKWEEK_WARRIOR_40H
  && contextKind_eqb (contextKind g) weekly.

(** Every per-user map has distinct keys and positive counts. *)
Definition wellFormed (counts : list (Z * list (string * Z))) : Prop :=
  forall u m, JsMap.get Z.eqb u counts = Some m ->
              NoDup (map fst m) /\ forall a c, In (a, c) m -> 0 < c.

(** How many grants [userId] holds of [achievementId]. *)
Definition unlocks (userId : Z) (achievementId : string)
           (grants : list AchievementGrantSummary) : Z :=
  Z.of_nat (List.length (filter (isGrantOf userId achievementId) grants)).

(** Achievement [a] is at least as good a title source as [b] for the
    user: higher priority, then more unlocks, then the earlier id. *)
Definition outranks (localeCompare : string -> string -> Z) (userId : Z)
           (grants : list AchievementGrantSummary) (a b : string) : Prop :=
  priorityOf b < priorityOf a \/
  (priorityOf b = priorityOf a /\
   (unlocks userId b grants < unlocks userId a grants \/
    (unlocks userId b grants = unlocks userId a grants /\
     localeCompare a b <= 0))).

(** The order that [resolveTopAchievementTitle] sorts by: priority
    descending, then count descending, then id ascending. *)
Definition rankedBefore (localeCompare : string -> string -> Z)
           (x y : RankedAchievement) : Prop :=
  ra_priority y < ra_priority x \/
  (ra_priority y = ra_priority x /\
   (ra_count y < ra_count x \/
    (ra_count y = ra_count x /\
     localeCompare (ra_achievementId x) (ra_achievementId y) <= 0))).

(** The ISO-week starts of the user's weekly workweek-warrior grants. *)
Definition weeklyFortyStarts (userId : Z)
           (grants : list AchievementGrantSummary) : list Z :=
  parsedWeekStarts (map contextKey (filter (isWeeklyForty userId) grants)).

(** [n] weeks in a row, each seven days after the one before, starting at
    [first], all among [starts]. *)
Definition weekRun (starts : list Z) (first : Z) (n : nat) : Prop :=
  forall k, (k < n)%nat -> In (first + Z.of_nat k * WEEK_MS) starts.

(** The same run, named by its last week. *)
Definition weekRunEndingAt (starts : list Z) (last : Z) (n : nat) : Prop :=
  forall k, (k < n)%nat -> In (last - Z.of_nat k * WEEK_MS) starts.

(** A Monday, 00:00 UTC. *)
Definition mondayMidnight (ms : Z) : Prop := ms mod WEEK_MS = 345600000.

(** What the scan has established once it has read [seen], oldest week
    first. *)
Record scanned (seen : list Z) (s : Streak) : Prop := mkScanned {
  scanned_none : previous s = None -> seen = [];
  scanned_last :
    forall p, previous s = Some p ->
              In p seen /\ forall y, In y seen -> y <= p;
  scanned_current :
    forall n, (1 <= n)%nat ->
              ((n <= current s)%nat <->
               exists p, previous s = Some p /\ weekRunEndingAt seen p n);
  scanned_longest :
    forall n, (1 <= n)%nat ->
              ((n <= longest s)%nat <-> exists w, weekRun seen w n)
}.

End HonorTitles.

(** Sample grants for running the resolution: seven unlocks of user 1 with
    four workweek-warrior weeks in a row, and a user 2 whose best unlock
    decides. *)
Definition gr (u : Z) (a : string) (k : AchievementContextKind) (c : string)
  : AchievementGrantSummary.AchievementGrantSummary :=
  AchievementGrantSummary.mk u a k c 0.

Definition sampleGrants
  : list AchievementGrantSummary.AchievementGrantSummary :=
  [ gr 1 "workweek-warrior-40h" weekly "2024-W02";
    gr 1 "boss-raid-20h" daily "2024-01-09";
    gr 2 "solo-day-8h" daily "2024-01-01";
    gr 1 "workweek-warrior-40h" weekly "2024-W04";
    gr 2 "quick-boot-4h" daily "2024-01-01";
    gr 1 "workweek-warrior-40h" weekly "2024-W01";
    gr 2 "streak-forge-8h" daily "2024-01-01";
    gr 1 "workweek-warrior-40h" weekly "2024-W03";
    gr 2 "solo-day-8h" daily "2024-01-02" ].

(** ** The daily leaderboard of the server *)

Inductive StatsVisibility : Type :=
| everyone
| friends
| no_one.

Definition visibility_eqb (a b : StatsVisibility) : bool :=
  match a, b with
  | everyone, everyone | friends, friends | no_one, no_one => true
  | _, _ => false
  end.

Module Friend.
Record Friend : Type := mk {
  id : Z;
  username : string;
  apiKey : option string
}.
End Friend.

(** [UserConfig], without the group list and the password hash that the
    leaderboard does not read. *)
Module UserConfig.
Record UserConfig : Type := mk {
  id : Z;
  wakawarsUsername : string;
  apiKey : string;
  wakatimeTimezone : option string;
  friends : list Friend.Friend;
  statsVisibility : StatsVisibility;
  isCompeting : bool
}.
End UserConfig.

(** The records that [getUsersByIds] returns. *)
Module User.
Record User : Type := mk {
  id : Z;
  wakawarsUsername : string;
  statsVisibility : StatsVisibility;
  isCompeting : bool;
  wakatimeTimezone : option string
}.
End User.

Module DailyStatRecord.
Record DailyStatRecord : Type := mk {
  userId : Z;
  username : string;
  totalSeconds : Z;
  status : DailyStatStatus;
  error : option string;
  fetchedAt : Z
}.
End DailyStatRecord.

(** The part of [UserRepository] that the daily leaderboard calls.  Each
    call reads the repository as it stands. *)
Record UserRepository : Type := mkRepository {
  getGroupPeerIds : Z -> list Z;
  getUsersByIds : list Z -> list User.User;
  getDailyStats : list Z -> string -> list DailyStatRecord.DailyStatRecord;
  getIncomingFriendIds : Z -> list Z -> list Z
}.

Record LeaderboardResponse : Type := mkResponse {
  date : string;
  updatedAt : Z;
  entries : list LeaderboardEntry;
  responseSelfEntry : option LeaderboardEntry
}.

Module Server.
Section BuildDailyLeaderboard.
Variable localeCompare : string -> string -> Z.

(** [resolveDateKeyForUser(user, offsetDays, baseDate)], from the user's
    time zone; the date-key module is outside this development. *)
Variable resolveDateKeyForUser : option string -> Z -> Z -> string.

Variable store : UserRepository.
Variable config : UserConfig.UserConfig.
Variable offsetDays : Z.

(** The two clock readings, [new Date()] and [Date.now()]. *)
Variable baseDate : Z.
Variable now : Z.

Definition groupPeerIds : list Z :=
  JsMap.setOf (getGroupPeerIds store (UserConfig.id config)) [].

Definition friendIds : list Z :=
  JsMap.setOf (map Friend.id (UserConfig.friends config)) [].

Definition userIds : list Z :=
  JsMap.setOf (UserConfig.id config :: friendIds ++ groupPeerIds) [].

Definition usersById : list (Z * User.User) :=
  JsMap.ofPairs Z.eqb
    (map (fun user => (User.id user, user)) (getUsersByIds store userIds)).

(** [userIds.map((id) => usersById.get(id)).filter(Boolean)] *)
Fixpoint presentUsers (ids : list Z) : list User.User :=
  match ids with
  | [] => []
  | id :: more =>
      match JsMap.get Z.eqb id usersById with
      | Some user => user :: presentUsers more
      | None => presentUsers more
      end
  end.

Definition users : list User.User := presentUsers userIds.

Definition dateKeyGroups : list (string * list Z) :=
  fold_left
    (fun groups user =>
       let dateKey :=
         resolveDateKeyForUser (User.wakatimeTimezone user) offsetDays
                               baseDate in
       match JsMap.get String.eqb dateKey groups with
       | Some existing =>
           JsMap.set String.eqb dateKey (existing ++ [User.id user]) groups
       | None => JsMap.set String.eqb dateKey [User.id user] groups
       end)
    users [].

Definition dailyStats : list DailyStatRecord.DailyStatRecord :=
  List.concat
    (map (fun group => getDailyStats store (snd group) (fst group))
         dateKeyGroups).

Definition statsByUserId : list (Z * DailyStatRecord.DailyStatRecord) :=
  JsMap.ofPairs Z.eqb
    (map (fun stat => (DailyStatRecord.userId stat, stat)) dailyStats).

Definition incomingFriendIds : list Z :=
  getIncomingFriendIds store (UserConfig.id config) userIds.

Definition has (ids : list Z) (id : Z) : bool := existsb (Z.eqb id) ids.

Definition canView (user : User.User) (isSelf : bool) : bool :=
  let isMutualFriend :=
    has friendIds (User.id user) && has incomingFriendIds (User.id user) in
  let isGroupConnected := has groupPeerIds (User.id user) in
  isSelf
  || visibility_eqb (User.statsVisibility user) everyone
  || (visibility_eqb (User.statsVisibility user) friends
      && (isMutualFriend || isGroupConnected)).

Definition buildDailyStat (user : User.User) (isSelf : bool) : DailyStat :=
  let stat := JsMap.get Z.eqb (User.id user) statsByUserId in
  if negb (canView user isSelf) then
    {| username := User.wakawarsUsername user;
       honorTitle := None;
       totalSeconds := 0;
       status := private;
       error_message := None |}
  else
    match stat with
    | None =>
        {| username := User.wakawarsUsername user;
           honorTitle := None;
           totalSeconds := 0;
           status := error;
           error_message := Some "No stats synced yet" |}
    | Some stat =>
        {| username := User.wakawarsUsername user;
           honorTitle := None;
           totalSeconds := DailyStatRecord.totalSeconds stat;
           status := DailyStatRecord.status stat;
           error_message := DailyStatRecord.error stat |}
    end.

Definition leaderboardUsers : list User.User :=
  filter User.isCompeting users.

Definition buildDailyLeaderboard : LeaderboardResponse :=
  let selfUser :=
    find (fun user => User.id user =? UserConfig.id config) users in
  let selfStat := option_map (fun user => buildDailyStat user true) selfUser in
  let stats :=
    map (fun user =>
           buildDailyStat user (User.id user =? UserConfig.id config))
        leaderboardUsers in
  let computedEntries :=
    computeLeaderboard localeCompare stats
                       (UserConfig.wakawarsUsername config) in
  let selfSeconds := option_map totalSeconds selfStat in
  let entries :=
    match selfSeconds with
    | None => computedEntries
    | Some selfSeconds =>
        map (fun entry =>
               {| stat := stat entry;
                  rank := rank entry;
                  deltaSeconds := totalSeconds (stat entry) - selfSeconds |})
            computedEntries
    end in
  let selfEntry :=
    match find (fun entry =>
                  String.eqb (username (stat entry))
                             (UserConfig.wakawarsUsername config))
               entries with
    | Some entry => Some entry
    | None =>
        option_map
          (fun selfStat =>
             {| stat := selfStat; rank := None; deltaSeconds := 0 |})
          selfStat
    end in
  let updatedAtEpoch :=
    match dailyStats with
    | [] => now
    | first :: more =>
        fold_left Z.max (map DailyStatRecord.fetchedAt more)
                  (DailyStatRecord.fetchedAt first)
    end in
  {| date :=
       resolveDateKeyForUser (UserConfig.wakatimeTimezone config) offsetDays
                             baseDate;
     updatedAt := updatedAtEpoch;
     entries := entries;
     responseSelfEntry := selfEntry |}.

(** The viewer's friend and group graph: the viewer, the friends of the
    configuration and the group peers that the repository reports. *)
Definition inGraph (id : Z) : Prop :=
  id = UserConfig.id config \/
  In id (map Friend.id (UserConfig.friends config)) \/
  In id (getGroupPeerIds store (UserConfig.id config)).

(** The viewer may see the user's numbers. *)
Definition viewable (user : User.User) : Prop :=
  User.id user = UserConfig.id config \/
  User.statsVisibility user = everyone \/
  (User.statsVisibility user = friends /\
   ((In (User.id user) (map Friend.id (UserConfig.friends config)) /\
     In (User.id user) incomingFriendIds) \/
    In (User.id user) (getGroupPeerIds store (UserConfig.id config)))).

(** The status shown for a user: private when not viewable, an error with
    its message when no stat row came back, else the stored row. *)
Definition classified (user : User.User) (s : DailyStat) : Prop :=
  username s = User.wakawarsUsername user /\
  (~ viewable user ->
   status s = private /\ totalSeconds s = 0 /\ error_message s = None) /\
  (viewable user ->
   match JsMap.get Z.eqb (User.id user) statsByUserId with
   | None =>
       status s = error /\ totalSeconds s = 0 /\
       error_message s = Some "No stats synced yet"
   | Some row =>
       status s = DailyStatRecord.status row /\
       totalSeconds s = DailyStatRecord.totalSeconds row /\
       error_message s = DailyStatRecord.error row
   end).
End BuildDailyLeaderboard.
End Server.

(** The reads of the in-memory repository, over its captured arrays. *)
Module MemoryStore.

Record UserRecord : Type := mkUser {
  id : Z;
  wakawarsUsername : string;
  apiKey : string;
  wakatimeTimezone : option string;
  passwordHash : option string;
  statsVisibility : StatsVisibility;
  isCompeting : bool
}.

Record Friendship : Type := mkFriendship {
  userId : Z;
  friendId : Z
}.

Record GroupRecord : Type := mkGroup {
  group_id : Z;
  ownerId : Z;
  name : string
}.

Record GroupMember : Type := mkMember {
  groupId : Z;
  member_userId : Z
}.

Record StatRecord : Type := mkStat {
  stat_userId : Z;
  dateKey : string;
  totalSeconds : Z;
  status : DailyStatStatus;
  error : option string;
  fetchedAt : Z
}.

Record State : Type := mkState {
  users : list UserRecord;
  friendships : list Friendship;
  groups : list GroupRecord;
  groupMembers : list GroupMember;
  dailyStats : list StatRecord
}.

Section Reads.
Variable state : State.

Definition includes (ids : list Z) (id : Z) : bool := existsb (Z.eqb id) ids.

Definition getUsersByIds (userIds : list Z) : list User.User :=
  map (fun user =>
         {| User.id := id user;
            User.wakawarsUsername := wakawarsUsername user;
            User.statsVisibility := statsVisibility user;
            User.isCompeting := isCompeting user;
            User.wakatimeTimezone := wakatimeTimezone user |})
      (filter (fun user => includes userIds (id user)) (users state)).

Definition getIncomingFriendIds (userId' : Z) (candidateIds : list Z)
  : list Z :=
  map userId
      (filter (fun entry =>
                 (friendId entry =? userId')
                 && includes candidateIds (userId entry))
              (friendships state)).

Definition getGroupPeerIds (userId' : Z) : list Z :=
  let groupIds :=
    JsMap.setOf
      (map group_id
           (filter (fun group => ownerId group =? userId') (groups state))
       ++ map groupId
            (filter (fun member => member_userId member =? userId')
                    (groupMembers state)))
      [] in
  let peerIds :=
    JsMap.setOf
      (flat_map
         (fun gid =>
            match find (fun entry => group_id entry =? gid) (groups state) with
            | Some group => [ownerId group]
            | None => []
            end
            ++ map member_userId
                 (filter (fun member => groupId member =? gid)
                         (groupMembers state)))
         groupIds)
      [] in
  filter (fun peer => negb (peer =? userId')) peerIds.

Definition getDailyStats (userIds : list Z) (dateKey' : string)
  : list DailyStatRecord.DailyStatRecord :=
  map (fun stat =>
         {| DailyStatRecord.userId := stat_userId stat;
            DailyStatRecord.username :=
              match find (fun user => id user =? stat_userId stat)
                         (users state) with
              | Some user => wakawarsUsername user
              | None => ""
              end;
            DailyStatRecord.totalSeconds := totalSeconds stat;
            DailyStatRecord.status := status stat;
            DailyStatRecord.error := error stat;
            DailyStatRecord.fetchedAt := fetchedAt stat |})
      (filter (fun stat =>
                 includes userIds (stat_userId stat)
                 && String.eqb (dateKey stat) dateKey')
              (dailyStats state)).

Definition repository : UserRepository :=
  mkRepository getGroupPeerIds getUsersByIds getDailyStats
               getIncomingFriendIds.
End Reads.
End MemoryStore.

(** A viewer "mo" whose friend "amy" shares her numbers with everyone and
    has left the competition. *)
Definition sampleState : MemoryStore.State :=
  {| MemoryStore.users :=
       [ MemoryStore.mkUser 1 "mo" "key-mo" None None everyone true;
         MemoryStore.mkUser 2 "amy" "key-amy" None None everyone false;
         MemoryStore.mkUser 3 "ben" "key-ben" None None no_one true ];
     MemoryStore.friendships :=
       [ MemoryStore.mkFriendship 1 2; MemoryStore.mkFriendship 1 3 ];
     MemoryStore.groups := [];
     MemoryStore.groupMembers := [];
     MemoryStore.dailyStats :=
       [ MemoryStore.mkStat 1 "2024-01-01" 1500 ok None 10;
         MemoryStore.mkStat 2 "2024-01-01" 2000 ok None 20;
         MemoryStore.mkStat 3 "2024-01-01" 900 ok None 30 ] |}.

Definition sampleConfig : UserConfig.UserConfig :=
  {| UserConfig.id := 1;
     UserConfig.wakawarsUsername := "mo";
     UserConfig.apiKey := "key-mo";
     UserConfig.wakatimeTimezone := None;
     UserConfig.friends :=
       [ Friend.mk 2 "amy" None; Friend.mk 3 "ben" None ];
     UserConfig.statsVisibility := everyone;
     UserConfig.isCompeting := true |}.

Definition sampleResponse : LeaderboardResponse :=
  Server.buildDailyLeaderboard codeUnitCompare
    (fun _ _ _ => "2024-01-01") (MemoryStore.repository sampleState)
    sampleConfig 0 0 0.

(** ** The backfill job: weekly buckets from daily history *)

(** More of the ECMAScript time-value arithmetic. *)
Module JsDateFields.
Import JsDate.

Definition TimeWithinDay (t : Z) : Z := t mod msPerDay.

(** [YearFromTime(t)]: the year whose first day is the last one not after
    the day of [t]; an estimate from the mean year length, corrected by
    one. *)
Definition YearFromTime (t : Z) : Z :=
  let d := Day t in
  let y := 1970 + (400 * d) / 146097 in
  if d <? DayFromYear y then y - 1
  else if DayFromYear (y + 1) <=? d then y + 1
  else y.

Definition InLeapYear (t : Z) : bool :=
  DaysInYear (YearFromTime t) =? 366.

Definition DayWithinYear (t : Z) : Z :=
  Day t - DayFromYear (YearFromTime t).

Definition MonthFromTime (t : Z) : Z :=
  let d := DayWithinYear t in
  let leap := InLeapYear t in
  if d <? daysBeforeMonth leap 1 then 0
  else if d <? daysBeforeMonth leap 2 then 1
  else if d <? daysBeforeMonth leap 3 then 2
  else if d <? daysBeforeMonth leap 4 then 3
  else if d <? daysBeforeMonth leap 5 then 4
  else if d <? daysBeforeMonth leap 6 then 5
  else if d <? daysBeforeMonth leap 7 then 6
  else if d <? daysBeforeMonth leap 8 then 7
  else if d <? daysBeforeMonth leap 9 then 8
  else if d <? daysBeforeMonth leap 10 then 9
  else if d <? daysBeforeMonth leap 11 then 10
  else 11.

Definition DateFromTime (t : Z) : Z :=
  DayWithinYear t - daysBeforeMonth (InLeapYear t) (MonthFromTime t) + 1.

Definition getUTCFullYear (t : Z) : Z := YearFromTime t.
Definition getUTCMonth (t : Z) : Z := MonthFromTime t.
Definition getUTCDate (t : Z) : Z := DateFromTime t.

(** [Date.prototype.setUTCDate(date)]: the new time value. *)
Definition setUTCDate (t date : Z) : Z :=
  MakeDay (YearFromTime t) (MonthFromTime t) date * msPerDay
  + TimeWithinDay t.

End JsDateFields.

(** [String(n)] for an integer [n], and [padStart(2, "0")]. *)
Module JsString.

Definition ofNumber (n : Z) : string :=
  DecimalString.NilZero.string_of_int (Z.to_int n).

Definition padStart2 (s : string) : string :=
  match s with
  | EmptyString => "00"
  | String c EmptyString => String "0" (String c EmptyString)
  | _ => s
  end.

Definition isDigit (c : ascii) : bool :=
  let n := nat_of_ascii c in
  (48 <=? n)%nat && (n <=? 57)%nat.

(** No character of [s] is a colon. *)
Fixpoint noColon (s : string) : Prop :=
  match s with
  | EmptyString => True
  | String c t => c <> ":"%char /\ noColon t
  end.

End JsString.

Module DailyHistoryRow.
Record DailyHistoryRow : Type := mk {
  user_id : Z;
  date_key : string;
  total_seconds : Z;
  status : string;
  fetched_at : Z;
  payload : option string
}.
End DailyHistoryRow.

Module WeekDayRecord.
Record WeekDayRecord : Type := mk {
  dateKey : string;
  totalSeconds : Z;
  fetchedAt : Z;
  payload : option string
}.
End WeekDayRecord.

Module WeeklyBucket.
Record WeeklyBucket : Type := mk {
  userId : Z;
  isoWeekKey : string;
  rangeKey : string;
  fetchedAt : Z;
  days : list WeekDayRecord.WeekDayRecord
}.
End WeeklyBucket.

(** The arguments of one call of [awardWeeklyAchievements], without the
    synthetic payload. *)
Module WeeklyAward.
Record WeeklyAward : Type := mk {
  userId : Z;
  rangeKey : string;
  status : DailyStatStatus;
  totalSeconds : Z;
  dailyAverageSeconds : Q;
  fetchedAt : Z
}.
End WeeklyAward.

Module Backfill.
Import JsDate JsDateFields.

Definition toDailyStatus (value : string) : DailyStatStatus :=
  if String.eqb value "ok" then ok
  else if String.eqb value "private" then private
  else if String.eqb value "not_found" then not_found
  else error.

(** [/^\d{4}-\d{2}-\d{2}$/.test(dateKey)] *)
Definition isDateKey (dateKey : string) : bool :=
  match list_ascii_of_string dateKey with
  | [y0; y1; y2; y3; d0; m0; m1; d1; a0; a1] =>
      JsString.isDigit y0 && JsString.isDigit y1 && JsString.isDigit y2
      && JsString.isDigit y3 && Ascii.eqb d0 "-" && JsString.isDigit m0
      && JsString.isDigit m1 && Ascii.eqb d1 "-" && JsString.isDigit a0
      && JsString.isDigit a1
  | _ => false
  end.

Definition toIsoWeekKey (date : Z) : string :=
  let normalized :=
    UTC (getUTCFullYear date) (getUTCMonth date) (getUTCDate date) in
  let day := if getUTCDay normalized =? 0 then 7 else getUTCDay normalized in
  let normalized := setUTCDate normalized (getUTCDate normalized + 4 - day) in
  let yearStart := UTC (getUTCFullYear normalized) 0 1 in
  let week :=
    - ((- ((normalized - yearStart) / 86400000 + 1)) / 7) in
  String.append (JsString.ofNumber (getUTCFullYear normalized))
    (String.append "-W" (JsString.padStart2 (JsString.ofNumber week))).

Section Buckets.
(** The time value of [new Date(text)], [None] when it is [NaN]. *)
Variable parseDate : string -> option Z.

Definition parseDateKey (dateKey : string) : option Z :=
  if negb (isDateKey dateKey) then None
  else parseDate (String.append dateKey "T00:00:00.000Z").

Definition bucketKey (user_id : Z) (weeklyRangeKey isoWeekKey : string)
  : string :=
  String.append (JsString.ofNumber user_id)
    (String.append ":"
       (String.append weeklyRangeKey (String.append ":" isoWeekKey))).

(** The callback of [dailyRows.forEach]; [buckets] is the map. *)
Definition bucketStep (weeklyRangeKey : string)
           (buckets : list (string * WeeklyBucket.WeeklyBucket))
           (row : DailyHistoryRow.DailyHistoryRow)
  : list (string * WeeklyBucket.WeeklyBucket) :=
  if negb (status_eqb (toDailyStatus (DailyHistoryRow.status row)) ok)
  then buckets
  else
    match parseDateKey (DailyHistoryRow.date_key row) with
    | None => buckets
    | Some dayDate =>
        let isoWeekKey := toIsoWeekKey dayDate in
        let key :=
          bucketKey (DailyHistoryRow.user_id row) weeklyRangeKey isoWeekKey in
        let day :=
          {| WeekDayRecord.dateKey := DailyHistoryRow.date_key row;
             WeekDayRecord.totalSeconds := DailyHistoryRow.total_seconds row;
             WeekDayRecord.fetchedAt := DailyHistoryRow.fetched_at row;
             WeekDayRecord.payload := DailyHistoryRow.payload row |} in
        match JsMap.get String.eqb key buckets with
        | None =>
            JsMap.set String.eqb key
              {| WeeklyBucket.userId := DailyHistoryRow.user_id row;
                 WeeklyBucket.isoWeekKey := isoWeekKey;
                 WeeklyBucket.rangeKey := weeklyRangeKey;
                 WeeklyBucket.fetchedAt := DailyHistoryRow.fetched_at row;
                 WeeklyBucket.days := [day] |}
              buckets
        | Some existing =>
            JsMap.set String.eqb key
              {| WeeklyBucket.userId := WeeklyBucket.userId existing;
                 WeeklyBucket.isoWeekKey := WeeklyBucket.isoWeekKey existing;
                 WeeklyBucket.rangeKey := WeeklyBucket.rangeKey existing;
                 WeeklyBucket.fetchedAt :=
                   if WeeklyBucket.fetchedAt existing
                      <? DailyHistoryRow.fetched_at row
                   then DailyHistoryRow.fetched_at row
                   else WeeklyBucket.fetchedAt existing;
                 WeeklyBucket.days := WeeklyBucket.days existing ++ [day] |}
              buckets
        end
    end.

Definition createWeeklyBucketsFromDailyHistory
           (dailyRows : list DailyHistoryRow.DailyHistoryRow)
           (weeklyRangeKey : string)
  : list WeeklyBucket.WeeklyBucket :=
  map snd (fold_left (bucketStep weeklyRangeKey) dailyRows []).

(** The weekly-bucket loop of [runAchievementsBackfill]: the calls of
    [awardWeeklyAchievements] that a run makes, in order, when every call
    of the repository succeeds.  A bucket is created with a day, so
    [bucket.days[0]] is there; the branch for a bucket without days, where
    the script would throw, is never taken on the buckets of
    [createWeeklyBucketsFromDailyHistory]. *)
Fixpoint weeklyBucketAwards (weeklyBuckets : list WeeklyBucket.WeeklyBucket)
  : list WeeklyAward.WeeklyAward :=
  match weeklyBuckets with
  | [] => []
  | bucket :: more =>
      match WeeklyBucket.days bucket with
      | [] => weeklyBucketAwards more
      | firstDay :: _ =>
          match parseDateKey (WeekDayRecord.dateKey firstDay) with
          | None => weeklyBucketAwards more
          | Some firstDayDate =>
              let totalSeconds :=
                fold_left (fun sum day => sum + WeekDayRecord.totalSeconds day)
                          (WeeklyBucket.days bucket) 0 in
              {| WeeklyAward.userId := WeeklyBucket.userId bucket;
                 WeeklyAward.rangeKey := WeeklyBucket.rangeKey bucket;
                 WeeklyAward.status := ok;
                 WeeklyAward.totalSeconds := totalSeconds;
                 WeeklyAward.dailyAverageSeconds := inject_Z totalSeconds / 7;
                 WeeklyAward.fetchedAt := WeeklyBucket.fetchedAt bucket |}
              :: weeklyBucketAwards more
          end
      end
  end.
End Buckets.

(** *** Vocabulary for the backfill properties *)

(** The row is an [ok] row of [user] whose date parses into [week]. *)
Definition rowOfWeek (parseDate : string -> option Z) (user : Z)
           (week : string) (row : DailyHistoryRow.DailyHistoryRow) : bool :=
  status_eqb (toDailyStatus (DailyHistoryRow.status row)) ok
  && match parseDateKey parseDate (DailyHistoryRow.date_key row) with
     | Some dayDate =>
         (DailyHistoryRow.user_id row =? user)
         && String.eqb (toIsoWeekKey dayDate) week
     | None => false
     end.

Definition toDay (row : DailyHistoryRow.DailyHistoryRow)
  : WeekDayRecord.WeekDayRecord :=
  {| WeekDayRecord.dateKey := DailyHistoryRow.date_key row;
     WeekDayRecord.totalSeconds := DailyHistoryRow.total_seconds row;
     WeekDayRecord.fetchedAt := DailyHistoryRow.fetched_at row;
     WeekDayRecord.payload := DailyHistoryRow.payload row |}.

Definition sumSeconds (days : list WeekDayRecord.WeekDayRecord) : Z :=
  fold_right Z.add 0 (map WeekDayRecord.totalSeconds days).

(** [latest] is the latest [fetchedAt] among [days]. *)
Definition latestFetchedAt (days : list WeekDayRecord.WeekDayRecord)
           (latest : Z) : Prop :=
  In latest (map WeekDayRecord.fetchedAt days) /\
  forall day, In day days -> WeekDayRecord.fetchedAt day <= latest.

(** The key of the bucket that the row goes to, if it goes to one. *)
Definition rowKey (parseDate : string -> option Z) (weeklyRangeKey : string)
           (row : DailyHistoryRow.DailyHistoryRow) : option string :=
  if status_eqb (toDailyStatus (DailyHistoryRow.status row)) ok then
    match parseDateKey parseDate (DailyHistoryRow.date_key row) with
    | Some dayDate =>
        Some (bucketKey (DailyHistoryRow.user_id row) weeklyRangeKey
                        (toIsoWeekKey dayDate))
    | None => None
    end
  else None.

Definition hasKey (parseDate : string -> option Z) (weeklyRangeKey : string)
           (key : string) (row : DailyHistoryRow.DailyHistoryRow) : bool :=
  match rowKey parseDate weeklyRangeKey row with
  | Some k => String.eqb k key
  | None => false
  end.

(** What holds of the entry [(key, bucket)] of the map once the rows
    [read] have been read. *)
Definition bucketOf (parseDate : string -> option Z) (weeklyRangeKey : string)
           (read : list DailyHistoryRow.DailyHistoryRow)
           (key : string) (bucket : WeeklyBucket.WeeklyBucket) : Prop :=
  key = bucketKey (WeeklyBucket.userId bucket) weeklyRangeKey
                  (WeeklyBucket.isoWeekKey bucket) /\
  WeeklyBucket.rangeKey bucket = weeklyRangeKey /\
  WeeklyBucket.days bucket
  = map toDay (filter (hasKey parseDate weeklyRangeKey key) read) /\
  latestFetchedAt (WeeklyBucket.days bucket) (WeeklyBucket.fetchedAt bucket).

(** The invariant of the [forEach] over the daily rows. *)
Definition bucketed (parseDate : string -> option Z) (weeklyRangeKey : string)
           (read : list DailyHistoryRow.DailyHistoryRow)
           (buckets : list (string * WeeklyBucket.WeeklyBucket)) : Prop :=
  NoDup (map fst buckets) /\
  (forall key bucket,
      In (key, bucket) buckets ->
      bucketOf parseDate weeklyRangeKey read key bucket) /\
  (forall row key,
      In row read -> rowKey parseDate weeklyRangeKey row = Some key ->
      In key (map fst buckets)).

(** The award that the loop makes for a bucket. *)
Definition awardOf (bucket : WeeklyBucket.WeeklyBucket)
  : WeeklyAward.WeeklyAward :=
  {| WeeklyAward.userId := WeeklyBucket.userId bucket;
     WeeklyAward.rangeKey := WeeklyBucket.rangeKey bucket;
     WeeklyAward.status := ok;
     WeeklyAward.totalSeconds := sumSeconds (WeeklyBucket.days bucket);
     WeeklyAward.dailyAverageSeconds :=
       inject_Z (sumSeconds (WeeklyBucket.days bucket)) / 7;
     WeeklyAward.fetchedAt := WeeklyBucket.fetchedAt bucket |}.

(** A parser of [YYYY-MM-DDT00:00:00.000Z] for running the definitions:
    the midnight of a calendar date. *)
Definition parseCalendarDate (text : string) : option Z :=
  match list_ascii_of_string text with
  | y0 :: y1 :: y2 :: y3 :: _ :: m0 :: m1 :: _ :: d0 :: d1 :: _ =>
      match HonorTitles.digit y0, HonorTitles.digit y1, HonorTitles.digit y2,
            HonorTitles.digit y3, HonorTitles.digit m0, HonorTitles.digit m1,
            HonorTitles.digit d0, HonorTitles.digit d1 with
      | Some a, Some b, Some c, Some d, Some e, Some f, Some g, Some h =>
          let year := 1000 * a + 100 * b + 10 * c + d in
          let month := 10 * e + f in
          let day := 10 * g + h in
          if (1 <=? month) && (month <=? 12) && (1 <=? day) && (day <=? 31)
          then Some (MakeDay year (month - 1) day * msPerDay)
          else None
      | _, _, _, _, _, _, _, _ => None
      end
  | _ => None
  end.

End Backfill.

(** ** JavaScript numbers and [formatDuration] *)

(** Numbers as IEEE 754 binary64 values, with the operations of the
    standard library's specification of floating-point arithmetic
    (round to nearest, ties to even). *)
Module JsNumber.

Definition number : Type := spec_float.

Definition prec : Z := 53.
Definition emax : Z := 1024.

(** The number that an integer literal denotes. *)
Definition ofZ (z : Z) : number := binary_normalize prec emax z 0 false.

Definition zero : number := S754_zero false.

(** [Number.isFinite] *)
Definition isFinite (x : number) : bool :=
  match x with
  | S754_zero _ | S754_finite _ _ _ => true
  | S754_infinity _ | S754_nan => false
  end.

(** [Math.max(0, x)]: [NaN] if [x] is, and [+0] above [-0]. *)
Definition max0 (x : number) : number :=
  match x with
  | S754_nan => S754_nan
  | _ => if SFltb zero x then x else zero
  end.

(** [x / y] *)
Definition div (x y : number) : number := SFdiv prec emax x y.

(** The integer [floor(v)] for [v] the finite value of sign [s],
    mantissa [m] and exponent [e]. *)
Definition floorZ (s : bool) (m : positive) (e : Z) : Z :=
  Z.shiftl (cond_Zopp s (Zpos m)) e.

(** The integer [floor(v + 1/2)]. *)
Definition roundZ (s : bool) (m : positive) (e : Z) : Z :=
  if 0 <=? e then Z.shiftl (cond_Zopp s (Zpos m)) e
  else Z.shiftl (cond_Zopp s (Zpos m) + Z.shiftl 1 (- e - 1)) e.

(** [Math.floor] *)
Definition floor (x : number) : number :=
  match x with
  | S754_finite s m e =>
      let n := floorZ s m e in
      if n =? 0 then S754_zero s else ofZ n
  | _ => x
  end.

(** [Math.round]: the nearest integer, a tie going up. *)
Definition round (x : number) : number :=
  match x with
  | S754_finite s m e =>
      let n := roundZ s m e in
      if n =? 0 then S754_zero s else ofZ n
  | _ => x
  end.

(** [x % y]: the exact remainder of the truncating division, with the
    sign of [x]. *)
Definition rem (x y : number) : number :=
  match x, y with
  | S754_nan, _ | _, S754_nan => S754_nan
  | S754_infinity _, _ => S754_nan
  | _, S754_zero _ => S754_nan
  | _, S754_infinity _ => x
  | S754_zero _, _ => x
  | S754_finite sx mx ex, S754_finite _ my ey =>
      let e0 := Z.min ex ey in
      let r := Z.shiftl (Zpos mx) (ex - e0) mod Z.shiftl (Zpos my) (ey - e0) in
      if r =? 0 then S754_zero sx
      else binary_normalize prec emax (cond_Zopp sx r) e0 false
  end.

(** [x === y] *)
Definition strictEquals (x y : number) : bool := SFeqb x y.

(** The sign of a number that is not [NaN]. *)
Definition isNegative (x : number) : bool :=
  match x with
  | S754_zero s | S754_infinity s | S754_finite s _ _ => s
  | S754_nan => false
  end.

(** The value is an integer [n] with [|n| < 2^53]: [Some |n|].  These are
    the numbers whose shortest digits are their decimal expansion. *)
Definition safeInteger (m : positive) (e : Z) : option Z :=
  let n := Z.shiftl (Zpos m) e in
  if (Z.shiftl n (- e) =? Zpos m) && (n <? 2 ^ 53) then Some n else None.

Section ToString.
(** [Number::toString] of the other finite numbers: the shortest digits
    that read back as the number, in fixed or exponent notation. *)
Variable otherToString : number -> string.

(** [String(x)], as a template literal renders [x]. *)
Definition toString (x : number) : string :=
  match x with
  | S754_nan => "NaN"
  | S754_zero _ => "0"
  | S754_infinity s => if s then "-Infinity" else "Infinity"
  | S754_finite s m e =>
      match safeInteger m e with
      | Some n =>
          String.append (if s then "-" else "") (JsString.ofNumber n)
      | None => otherToString x
      end
  end.

Definition formatDuration (seconds : number) : string :=
  let safeSeconds := if isFinite seconds then max0 seconds else zero in
  let totalMinutes := round (div safeSeconds (ofZ 60)) in
  let hours := floor (div totalMinutes (ofZ 60)) in
  let minutes := rem totalMinutes (ofZ 60) in
  if strictEquals hours zero then String.append (toString minutes) "m"
  else if strictEquals minutes zero then String.append (toString hours) "h"
  else
    String.append (toString hours)
      (String.append "h " (String.append (toString minutes) "m")).
End ToString.

(** *** Vocabulary for the duration property *)

(** The three renderings: ["Ym"], ["Xh"] and ["Xh Ym"]. *)
Definition rendered (otherToString : number -> string)
           (hours minutes : number) (text : string) : Prop :=
  text = String.append (toString otherToString minutes) "m" \/
  text = String.append (toString otherToString hours) "h" \/
  text = String.append (toString otherToString hours)
           (String.append "h "
              (String.append (toString otherToString minutes) "m")).

(** [seconds] when it is finite and above zero, and [+0] otherwise. *)
Definition clamped (seconds : number) : number :=
  if isFinite seconds && SFltb zero seconds then seconds else zero.

End JsNumber.

(** * Properties *)

(** ** Facts about the array model *)

Module JsArrayFacts.
Import JsArray.

Section SortFacts.
Variable A : Type.
Variable cmp : A -> A -> Z.

Lemma insert_Permutation (x : A) (l : list A) :
  Permutation (x :: l) (insert cmp x l).
Proof.
  induction l as [|y t IH]; simpl.
  - apply Permutation_refl.
  - destruct (0 <? cmp x y).
    + eapply perm_trans; [apply perm_swap|].
      apply perm_skip. exact IH.
    + apply Permutation_refl.
Qed.

Lemma sort_Permutation (l : list A) : Permutation l (sort cmp l).
Proof.
  induction l as [|x t IH]; simpl.
  - apply perm_nil.
  - eapply perm_trans; [apply perm_skip; exact IH|].
    apply insert_Permutation.
Qed.

Lemma sort_length (l : list A) : List.length (sort cmp l) = List.length l.
Proof. symmetry. apply Permutation_length, sort_Permutation. Qed.

Lemma sort_In (l : list A) (x : A) : In x (sort cmp l) <-> In x l.
Proof.
  split; intro H.
  - eapply Permutation_in; [apply Permutation_sym, sort_Permutation|exact H].
  - eapply Permutation_in; [apply sort_Permutation|exact H].
Qed.

(** Any transitive relation that the comparator's sign respects is
    established by the sort. *)
Variable R : A -> A -> Prop.
Hypothesis R_trans : forall a b c, R a b -> R b c -> R a c.
Hypothesis cmp_pos : forall a b, 0 < cmp a b -> R b a.
Hypothesis cmp_nonpos : forall a b, cmp a b <= 0 -> R a b.

Lemma insert_StronglySorted (x : A) (l : list A) :
  StronglySorted R l -> StronglySorted R (insert cmp x l).
Proof.
  induction l as [|y t IH]; simpl; intro Hs.
  - constructor; [constructor|constructor].
  - inversion Hs as [|? ? Ht Hy]; subst.
    destruct (Z.ltb_spec 0 (cmp x y)) as [Hlt|Hge].
    + constructor; [apply IH; exact Ht|].
      eapply Permutation_Forall; [apply insert_Permutation|].
      constructor; [apply cmp_pos; exact Hlt|exact Hy].
    + assert (Hxy : R x y) by (apply cmp_nonpos; exact Hge).
      constructor; [exact Hs|].
      constructor; [exact Hxy|].
      eapply Forall_impl; [|exact Hy].
      intros z Hz. eapply R_trans; eassumption.
Qed.

Lemma sort_StronglySorted (l : list A) : StronglySorted R (sort cmp l).
Proof.
  induction l as [|x t IH]; simpl.
  - constructor.
  - apply insert_StronglySorted. exact IH.
Qed.
End SortFacts.

Lemma StronglySorted_nth (A : Type) (R : A -> A -> Prop) (l : list A) :
  StronglySorted R l ->
  forall i j a b, (i < j)%nat ->
    nth_error l i = Some a -> nth_error l j = Some b -> R a b.
Proof.
  induction 1 as [|x t Ht IH Hx]; intros i j a b Hij Hi Hj.
  - destruct i; discriminate.
  - destruct j as [|j]; [lia|].
    destruct i as [|i]; simpl in *.
    + injection Hi as <-.
      rewrite Forall_forall in Hx. apply Hx.
      eapply nth_error_In; exact Hj.
    + eapply IH; [|exact Hi|exact Hj]. lia.
Qed.

End JsArrayFacts.

(** ** The ranking engine *)

Lemma status_eqb_eq (a b : DailyStatStatus) : status_eqb a b = true <-> a = b.
Proof. destruct a, b; simpl; split; congruence. Qed.

Lemma isOk_true (s : DailyStat) : isOk s = true <-> status s = ok.
Proof. unfold isOk. apply status_eqb_eq. Qed.

Lemma isOk_false (s : DailyStat) : isOk s = false <-> status s <> ok.
Proof.
  rewrite <- isOk_true. destruct (isOk s); split; congruence.
Qed.

Lemma statusOrder_ok (s : DailyStatStatus) : statusOrder s = 0 <-> s = ok.
Proof. destruct s; simpl; split; intro H; try reflexivity; discriminate. Qed.

Lemma statusOrder_nonneg (s : DailyStatStatus) : 0 <= statusOrder s.
Proof. destruct s; simpl; lia. Qed.

Lemma keyLe_trans (a b c : DailyStat) : keyLe a b -> keyLe b c -> keyLe a c.
Proof. unfold keyLe. lia. Qed.

Lemma keyLe_ok (a b : DailyStat) : keyLe a b -> status b = ok -> status a = ok.
Proof.
  unfold keyLe. intros H Hb. apply statusOrder_ok.
  rewrite Hb in H. simpl in H.
  pose proof (statusOrder_nonneg (status a)). lia.
Qed.

Lemma keyLe_seconds (a b : DailyStat) :
  keyLe a b -> status b = ok -> totalSeconds b <= totalSeconds a.
Proof.
  intros H Hb. pose proof (keyLe_ok H Hb) as Ha.
  unfold keyLe in H. rewrite Ha, Hb in H. simpl in H. lia.
Qed.

Section LeaderboardFacts.
Variable localeCompare : string -> string -> Z.


Lemma compareStats_pos_keyLe (a b : DailyStat) :
  0 < compareStats localeCompare a b -> keyLe b a.
Proof.
  unfold compareStats, keyLe.
  destruct (Z.eqb_spec (statusOrder (status a) - statusOrder (status b)) 0);
    simpl; [|lia].
  destruct (Z.eqb_spec (totalSeconds b - totalSeconds a) 0); simpl; lia.
Qed.

Lemma compareStats_nonpos_keyLe (a b : DailyStat) :
  compareStats localeCompare a b <= 0 -> keyLe a b.
Proof.
  unfold compareStats, keyLe.
  destruct (Z.eqb_spec (statusOrder (status a) - statusOrder (status b)) 0);
    simpl; [|lia].
  destruct (Z.eqb_spec (totalSeconds b - totalSeconds a) 0); simpl; lia.
Qed.

Lemma sortStats_keyLe (stats : list DailyStat) :
  StronglySorted keyLe (sortStats localeCompare stats).
Proof.
  apply JsArrayFacts.sort_StronglySorted.
  - exact keyLe_trans.
  - exact compareStats_pos_keyLe.
  - exact compareStats_nonpos_keyLe.
Qed.

Lemma compareStats_orderedBefore (a b : DailyStat) :
  compareStats localeCompare a b <= 0 <-> orderedBefore localeCompare a b.
Proof.
  unfold compareStats, orderedBefore.
  destruct (Z.eqb_spec (statusOrder (status a) - statusOrder (status b)) 0);
    simpl; [|lia].
  destruct (Z.eqb_spec (totalSeconds b - totalSeconds a) 0); simpl; lia.
Qed.

Lemma orderedBefore_trans :
  consistentComparator localeCompare ->
  forall a b c,
    orderedBefore localeCompare a b -> orderedBefore localeCompare b c ->
    orderedBefore localeCompare a c.
Proof.
  intros [_ Htrans] a b c Hab Hbc. unfold orderedBefore in *.
  destruct Hab as [Hab|[Es [Hab|[Et Hab]]]];
    destruct Hbc as [Hbc|[Es' [Hbc|[Et' Hbc]]]]; try lia.
  right. split; [lia|]. right. split; [lia|].
  eapply Htrans; eassumption.
Qed.

Lemma compareStats_pos_orderedBefore :
  consistentComparator localeCompare ->
  forall a b, 0 < compareStats localeCompare a b -> orderedBefore localeCompare b a.
Proof.
  intros [Hanti _] a b. unfold compareStats, orderedBefore.
  destruct (Z.eqb_spec (statusOrder (status a) - statusOrder (status b)) 0);
    simpl; [|lia].
  destruct (Z.eqb_spec (totalSeconds b - totalSeconds a) 0); simpl; [|lia].
  intro Hpos. right. split; [lia|]. right. split; [lia|].
  specialize (Hanti (username a) (username b)).
  destruct (localeCompare (username a) (username b));
    destruct (localeCompare (username b) (username a));
    simpl in *; lia.
Qed.

Lemma sortStats_orderedBefore (stats : list DailyStat) :
  consistentComparator localeCompare ->
  StronglySorted (orderedBefore localeCompare) (sortStats localeCompare stats).
Proof.
  intro Hc. apply JsArrayFacts.sort_StronglySorted.
  - apply orderedBefore_trans. exact Hc.
  - apply compareStats_pos_orderedBefore. exact Hc.
  - intros a b. apply compareStats_orderedBefore.
Qed.

Lemma rankEntries_stat (b : bool) (self : Z) (l : list DailyStat) :
  forall index currentRank lastSeconds,
    map stat (rankEntries b self index currentRank lastSeconds l) = l.
Proof.
  induction l as [|x t IH]; intros index cr ls; simpl.
  - reflexivity.
  - destruct (if isOk x then _ else _) as [cr' ls'].
    simpl. f_equal. apply IH.
Qed.

Lemma rankEntries_unranked (b : bool) (self : Z) (l : list DailyStat) :
  forall index currentRank lastSeconds e,
    In e (rankEntries b self index currentRank lastSeconds l) ->
    status (stat e) <> ok -> rank e = None.
Proof.
  induction l as [|x t IH]; intros index cr ls e; simpl.
  - intros [].
  - destruct (isOk x) eqn:Hx.
    + destruct (if b then _ else _) as [cr' ls'] eqn:Hst.
      intros [<-|Hin] Hne; simpl in *.
      * apply isOk_true in Hx. contradiction.
      * eapply IH; eassumption.
    + intros [<-|Hin] Hne; simpl in *.
      * reflexivity.
      * eapply IH; eassumption.
Qed.

Lemma rankEntries_delta (b : bool) (self : Z) (l : list DailyStat) :
  forall index currentRank lastSeconds e,
    In e (rankEntries b self index currentRank lastSeconds l) ->
    deltaSeconds e = totalSeconds (stat e) - self.
Proof.
  induction l as [|x t IH]; intros index cr ls e; simpl.
  - intros [].
  - destruct (if isOk x then _ else _) as [cr' ls'].
    intros [<-|Hin]; simpl.
    + reflexivity.
    + eapply IH; eassumption.
Qed.

Lemma computeLeaderboard_stat (stats : list DailyStat) (self : string) :
  map stat (computeLeaderboard localeCompare stats self) = sortStats localeCompare stats.
Proof. unfold computeLeaderboard. apply rankEntries_stat. Qed.

Lemma computeLeaderboard_nth (stats : list DailyStat) (self : string)
      (i : nat) (e : LeaderboardEntry) :
  nth_error (computeLeaderboard localeCompare stats self) i = Some e ->
  nth_error (sortStats localeCompare stats) i = Some (stat e).
Proof.
  intro H. rewrite <- (computeLeaderboard_stat stats self).
  rewrite nth_error_map, H. reflexivity.
Qed.
End LeaderboardFacts.

Lemma filter_Permutation (A : Type) (p : A -> bool) (l l' : list A) :
  Permutation l l' -> Permutation (filter p l) (filter p l').
Proof.
  induction 1 as [|x l l' _ IH|x y l|l l' l'' _ IH1 _ IH2]; simpl.
  - apply perm_nil.
  - destruct (p x); [apply perm_skip|]; exact IH.
  - destruct (p x), (p y); try apply Permutation_refl. apply perm_swap.
  - eapply perm_trans; eassumption.
Qed.

Lemma okAbove_none (t : Z) (l : list DailyStat) :
  (forall z, In z l -> status z = ok -> totalSeconds z <= t) ->
  okAbove t l = [].
Proof.
  induction l as [|y l IH]; intro H; simpl.
  - reflexivity.
  - destruct (isOk y) eqn:Hy; simpl.
    + apply isOk_true in Hy.
      assert (totalSeconds y <= t) by (apply H; [left; reflexivity|exact Hy]).
      destruct (Z.ltb_spec t (totalSeconds y)); [lia|].
      apply IH. intros z Hz. apply H. right. exact Hz.
    + apply IH. intros z Hz. apply H. right. exact Hz.
Qed.

(** In a list sorted by status and seconds, the number of [ok] entries
    above the first entry of a value is that entry's index. *)
Lemma okAbove_first_of_value (l : list DailyStat) :
  StronglySorted keyLe l ->
  forall i x,
    nth_error l i = Some x -> status x = ok ->
    (forall k p, i = S k -> nth_error l k = Some p ->
                 totalSeconds p <> totalSeconds x) ->
    List.length (okAbove (totalSeconds x) l) = i.
Proof.
  induction 1 as [|y t Ht IH Hy]; intros i x Hi Hx Hpred.
  - destruct i; discriminate.
  - rewrite Forall_forall in Hy. destruct i as [|k]; simpl in Hi.
    + injection Hi as ->. unfold okAbove. simpl.
      rewrite Z.ltb_irrefl, andb_false_r.
      fold (okAbove (totalSeconds x) t). rewrite okAbove_none; [reflexivity|].
      intros z Hz Hok. apply keyLe_seconds; [apply Hy; exact Hz|exact Hok].
    + assert (Hin : In x t) by (eapply nth_error_In; exact Hi).
      pose proof (keyLe_ok (Hy x Hin) Hx) as Hyok.
      pose proof (keyLe_seconds (Hy x Hin) Hx) as Hyx.
      assert (Hgt : totalSeconds x < totalSeconds y).
      { destruct k as [|k'].
        - specialize (Hpred O y eq_refl eq_refl). lia.
        - destruct (nth_error t k') as [p|] eqn:Hp.
          + specialize (Hpred (S k') p eq_refl Hp).
            assert (Hpin : In p t) by (eapply nth_error_In; exact Hp).
            assert (Hpx : keyLe p x).
            { eapply JsArrayFacts.StronglySorted_nth;
                [exact Ht| |exact Hp|exact Hi]. lia. }
            pose proof (keyLe_ok Hpx Hx) as Hpok.
            pose proof (keyLe_seconds Hpx Hx).
            pose proof (keyLe_seconds (Hy p Hpin) Hpok). lia.
          + apply nth_error_None in Hp.
            assert (S k' < List.length t)%nat
              by (apply nth_error_Some; congruence).
            lia. }
      unfold okAbove. simpl. apply isOk_true in Hyok. rewrite Hyok. simpl.
      destruct (Z.ltb_spec (totalSeconds x) (totalSeconds y)); [|lia].
      simpl. f_equal. apply (IH k x Hi Hx).
      intros k' p -> Hp. apply (Hpred (S k') p eq_refl). exact Hp.
Qed.

Section RankFacts.
Variable selfSeconds : Z.

(** When the all-zero tie break is on, ranks follow the positions. *)
Lemma rankEntries_sequential (l : list DailyStat) :
  forall index currentRank lastSeconds k e,
    nth_error (rankEntries true selfSeconds index currentRank lastSeconds l) k
    = Some e ->
    status (stat e) = ok -> rank e = Some (S (index + k)).
Proof.
  induction l as [|x t IH]; intros index cr ls k e; simpl.
  - destruct k; discriminate.
  - destruct (isOk x) eqn:Hx; destruct k as [|k]; simpl.
    + intros [= <-] _. simpl. f_equal. lia.
    + intros Hk Hok. rewrite (IH _ _ _ _ _ Hk Hok). f_equal. lia.
    + intros [= <-] Hok. simpl in Hok. apply isOk_false in Hx. contradiction.
    + intros Hk Hok. rewrite (IH _ _ _ _ _ Hk Hok). f_equal. lia.
Qed.

Lemma rankEntries_cons (b : bool) (index currentRank : nat)
      (lastSeconds : option Z) (x : DailyStat) (t : list DailyStat) :
  rankEntries b selfSeconds index currentRank lastSeconds (x :: t) =
  let upd :=
    isOk x && (b || match lastSeconds with
                    | Some l => negb (totalSeconds x =? l)
                    | None => true
                    end) in
  let currentRank' := if upd then S index else currentRank in
  let lastSeconds' := if upd then Some (totalSeconds x) else lastSeconds in
  {| stat := x;
     rank := if isOk x then Some currentRank' else None;
     deltaSeconds := totalSeconds x - selfSeconds |}
  :: rankEntries b selfSeconds (S index) currentRank' lastSeconds' t.
Proof.
  simpl. destruct (isOk x), b; simpl; try reflexivity.
  destruct lastSeconds as [l|]; simpl; [|reflexivity].
  destruct (totalSeconds x =? l); reflexivity.
Qed.

(** Otherwise an [ok] entry keeps the rank in force when its seconds equal
    the last ranked seconds, and else ranks one past the [ok] entries
    above it. *)
Lemma rankEntries_competition (l : list DailyStat) :
  StronglySorted keyLe l ->
  forall index currentRank lastSeconds k e,
    (forall s, lastSeconds = Some s ->
               forall x, In x l -> status x = ok -> totalSeconds x <= s) ->
    nth_error (rankEntries false selfSeconds index currentRank lastSeconds l) k
    = Some e ->
    status (stat e) = ok ->
    rank e =
    Some (if match lastSeconds with
             | Some s => totalSeconds (stat e) =? s
             | None => false
             end
          then currentRank
          else S (index
                  + List.length (okAbove (totalSeconds (stat e)) l))%nat).
Proof.
  induction 1 as [|x t Ht IH Hx]; intros index cr ls k e Hls.
  - destruct k; discriminate.
  - rewrite Forall_forall in Hx.
    assert (Hbelow : forall z, In z t -> status z = ok ->
                               totalSeconds z <= totalSeconds x).
    { intros z Hz Hok. apply keyLe_seconds; [apply Hx; exact Hz|exact Hok]. }
    rewrite rankEntries_cons. cbv zeta. destruct k as [|k]; simpl nth_error.
    + intros [= <-] Hok. cbn [stat rank] in Hok |- *.
      apply isOk_true in Hok. rewrite Hok. cbn [andb orb].
      assert (Hnone : okAbove (totalSeconds x) (x :: t) = []).
      { apply okAbove_none. intros z [<-|Hz] Hzok; [lia|].
        apply Hbelow; assumption. }
      rewrite Hnone. simpl.
      destruct ls as [s|]; simpl.
      * destruct (Z.eqb_spec (totalSeconds x) s); simpl; f_equal; lia.
      * f_equal; lia.
    + intros Hk Hok.
      assert (Hin : In (stat e) t).
      { eapply nth_error_In.
        erewrite <- (rankEntries_stat false selfSeconds t) at 1.
        rewrite nth_error_map, Hk. reflexivity. }
      pose proof (keyLe_ok (Hx _ Hin) Hok) as Hxok.
      pose proof (Hbelow _ Hin Hok) as Hle.
      apply isOk_true in Hxok. rewrite Hxok in Hk. simpl in Hk.
      set (upd := match ls with
                  | Some l => negb (totalSeconds x =? l)
                  | None => true
                  end) in *.
      assert (Hst : (if upd then Some (totalSeconds x) else ls)
                    = Some (totalSeconds x)).
      { unfold upd. destruct ls as [s|]; simpl; [|reflexivity].
        destruct (Z.eqb_spec (totalSeconds x) s); simpl; congruence. }
      rewrite Hst in Hk.
      assert (Hls' : forall s, Some (totalSeconds x) = Some s ->
                      forall z, In z t -> status z = ok ->
                                totalSeconds z <= s)
        by (intros s [= <-]; exact Hbelow).
      rewrite (IH _ _ _ _ _ Hls' Hk Hok).
      f_equal. unfold okAbove at 2. simpl. rewrite Hxok. simpl.
      fold (okAbove (totalSeconds (stat e)) t).
      destruct (Z.eqb_spec (totalSeconds (stat e)) (totalSeconds x)) as [E|N].
      * destruct (Z.ltb_spec (totalSeconds (stat e)) (totalSeconds x));
          [lia|].
        rewrite okAbove_none
          by (intros z Hz Hzok; rewrite E; apply Hbelow; assumption).
        unfold upd. destruct ls as [s|]; simpl.
        -- rewrite E.
           destruct (Z.eqb_spec (totalSeconds x) s); simpl; lia.
        -- lia.
      * destruct (Z.ltb_spec (totalSeconds (stat e)) (totalSeconds x));
          [|lia].
        simpl. destruct ls as [s|]; simpl; [|lia].
        destruct (Z.eqb_spec (totalSeconds (stat e)) s) as [E'|]; [|lia].
        assert (totalSeconds x <= s).
        { apply (Hls s eq_refl x); [left; reflexivity|].
          apply isOk_true. exact Hxok. }
        lia.
Qed.
End RankFacts.

(** *** The code-unit comparison is a consistent comparator *)

Lemma string_compare_not_Gt_trans (a : string) :
  forall b c,
    String.compare a b <> Gt -> String.compare b c <> Gt ->
    String.compare a c <> Gt.
Proof.
  induction a as [|x a IH]; intros [|y b] [|z c]; simpl; try congruence.
  unfold Ascii.compare.
  destruct (N.compare_spec (N_of_ascii x) (N_of_ascii y)) as [Exy|Lxy|Gxy];
    destruct (N.compare_spec (N_of_ascii y) (N_of_ascii z)) as [Eyz|Lyz|Gyz];
    destruct (N.compare_spec (N_of_ascii x) (N_of_ascii z)) as [Exz|Lxz|Gxz];
    try congruence; try lia.
  apply IH.
Qed.

Lemma codeUnitCompare_consistent : consistentComparator codeUnitCompare.
Proof.
  split.
  - intros a b. unfold codeUnitCompare.
    rewrite (String.compare_antisym a b).
    destruct (String.compare b a); reflexivity.
  - intros a b c Hab Hbc. unfold codeUnitCompare in *.
    pose proof (@string_compare_not_Gt_trans a b c) as H.
    destruct (String.compare a b); try lia;
      destruct (String.compare b c); try lia;
      destruct (String.compare a c); try lia;
      exfalso; apply H; congruence.
Qed.

Lemma codeUnitCompare_eq (a b : string) : codeUnitCompare a b = 0 -> a = b.
Proof.
  unfold codeUnitCompare. destruct (String.compare a b) eqn:E; try discriminate.
  intros _. apply String.compare_eq_iff. exact E.
Qed.

(** *** Ranks *)

Lemma shouldBreakAllZeroTies_spec (localeCompare : string -> string -> Z)
      (stats : list DailyStat) :
  forallb (fun entry => totalSeconds entry =? 0)
          (filter isOk (sortStats localeCompare stats)) = true
  <-> allOkZero stats.
Proof.
  rewrite forallb_forall. unfold allOkZero. split.
  - intros H s Hs Hok. apply Z.eqb_eq. apply H.
    apply filter_In. split.
    + apply JsArrayFacts.sort_In. exact Hs.
    + apply isOk_true. exact Hok.
  - intros H s Hs. apply filter_In in Hs. destruct Hs as [Hs Hok].
    apply Z.eqb_eq. apply H.
    + apply (JsArrayFacts.sort_In (compareStats localeCompare)). exact Hs.
    + apply isOk_true. exact Hok.
Qed.

Lemma okAbove_sortStats (localeCompare : string -> string -> Z) (t : Z)
      (stats : list DailyStat) :
  List.length (okAbove t (sortStats localeCompare stats))
  = List.length (okAbove t stats).
Proof.
  symmetry. apply Permutation_length. apply filter_Permutation.
  apply JsArrayFacts.sort_Permutation.
Qed.

(** The rank of an [ok] entry, in both regimes. *)
Lemma computeLeaderboard_rank (localeCompare : string -> string -> Z)
      (stats : list DailyStat) (self : string) (i : nat)
      (e : LeaderboardEntry) :
  nth_error (computeLeaderboard localeCompare stats self) i = Some e ->
  status (stat e) = ok ->
  (allOkZero stats -> rank e = Some (S i)) /\
  (~ allOkZero stats ->
   rank e = Some (S (List.length (okAbove (totalSeconds (stat e)) stats)))).
Proof.
  intros Hi Hok.
  pose proof (computeLeaderboard_nth _ _ _ _ Hi) as Hnth.
  assert (Hranked : In (stat e) (filter isOk (sortStats localeCompare stats))).
  { apply filter_In. split; [eapply nth_error_In; exact Hnth|].
    apply isOk_true. exact Hok. }
  assert (Hlen : (0 <? List.length (filter isOk (sortStats localeCompare stats)))%nat
                 = true).
  { apply Nat.ltb_lt.
    destruct (filter isOk (sortStats localeCompare stats)); [destruct Hranked|].
    simpl. lia. }
  unfold computeLeaderboard in Hi. rewrite Hlen in Hi. simpl andb in Hi.
  split; intro Hz.
  - apply shouldBreakAllZeroTies_spec with (localeCompare := localeCompare) in Hz.
    rewrite Hz in Hi.
    rewrite (@rankEntries_sequential _ _ _ _ _ _ _ Hi Hok). reflexivity.
  - destruct (forallb _ _) eqn:Hall in Hi.
    + apply shouldBreakAllZeroTies_spec in Hall. contradiction.
    + assert (Hnone : forall s, @None Z = Some s ->
                        forall x, In x (sortStats localeCompare stats) ->
                                  status x = ok -> totalSeconds x <= s)
        by (intros s [=]).
      rewrite (@rankEntries_competition _ _ (sortStats_keyLe localeCompare stats)
                 _ _ _ _ _ Hnone Hi Hok).
      simpl. rewrite okAbove_sortStats. reflexivity.
Qed.

(** C1.  The [ok] entries of [computeLeaderboard]'s output carry competition
    ranks ("1,1,3"): an [ok] entry ranks one past the number of [ok] entries
    with strictly more seconds, so [ok] entries with equal seconds share a
    rank and the first entry of each value has its 1-indexed position as
    rank; when every [ok] entry has zero seconds the ranks are instead the
    1-indexed positions 1, 2, 3, ... *)
Theorem computeLeaderboard_ranks :
  forall (localeCompare : string -> string -> Z) (stats : list DailyStat)
         (self : string) (i : nat) (e : LeaderboardEntry),
    let out := computeLeaderboard localeCompare stats self in
    nth_error out i = Some e ->
    status (stat e) = ok ->
    (allOkZero stats -> rank e = Some (S i)) /\
    (~ allOkZero stats ->
     rank e = Some (S (List.length (okAbove (totalSeconds (stat e)) stats))) /\
     (forall j e',
         nth_error out j = Some e' -> status (stat e') = ok ->
         totalSeconds (stat e') = totalSeconds (stat e) ->
         rank e' = rank e) /\
     ((forall k p, i = S k -> nth_error out k = Some p ->
                   totalSeconds (stat p) <> totalSeconds (stat e)) ->
      rank e = Some (S i))).
Proof.
  intros localeCompare stats self i e out Hi Hok.
  destruct (computeLeaderboard_rank _ _ _ _ Hi Hok) as [Hzero Hcomp].
  split; [exact Hzero|]. intro Hnz. specialize (Hcomp Hnz).
  split; [exact Hcomp|]. split.
  - intros j e' Hj Hok' Heq.
    destruct (computeLeaderboard_rank _ _ _ _ Hj Hok') as [_ Hcomp'].
    rewrite (Hcomp' Hnz), Hcomp, Heq. reflexivity.
  - intro Hfirst. rewrite Hcomp. do 2 f_equal.
    rewrite <- (okAbove_sortStats localeCompare).
    apply okAbove_first_of_value.
    + apply sortStats_keyLe.
    + apply (computeLeaderboard_nth _ _ _ _ Hi).
    + exact Hok.
    + intros k p -> Hp.
      unfold out in Hfirst.
      rewrite <- (computeLeaderboard_stat localeCompare stats self) in Hp.
      rewrite nth_error_map in Hp.
      destruct (nth_error (computeLeaderboard localeCompare stats self) k)
        as [q|] eqn:Hq; [|discriminate].
      injection Hp as <-. apply (Hfirst k q eq_refl Hq).
Qed.

Lemma computeLeaderboard_ranks_witness :
  let stats := [st "amy" 1200 ok; st "ben" 1200 ok; st "mo" 900 ok] in
  let out := computeLeaderboard codeUnitCompare stats "mo" in
  let e := {| stat := st "mo" 900 ok; rank := Some 3%nat; deltaSeconds := 0 |} in
  nth_error out 2 = Some e /\
  status (stat e) = ok /\
  (allOkZero stats -> rank e = Some 3%nat) /\
  (~ allOkZero stats ->
   rank e = Some (S (List.length (okAbove (totalSeconds (stat e)) stats))) /\
   (forall j e',
       nth_error out j = Some e' -> status (stat e') = ok ->
       totalSeconds (stat e') = totalSeconds (stat e) ->
       rank e' = rank e) /\
   ((forall k p, 2%nat = S k -> nth_error out k = Some p ->
                 totalSeconds (stat p) <> totalSeconds (stat e)) ->
    rank e = Some 3%nat)).
Proof.
  intros stats out e.
  split; [reflexivity|]. split; [reflexivity|].
  apply (@computeLeaderboard_ranks codeUnitCompare stats "mo" 2%nat e);
    reflexivity.
Defined.

(** *** Order *)

(** C6.  The output of [computeLeaderboard] is the input reordered by status
    rank ascending, then seconds descending, then username ascending; hence
    every entry that is not [ok] stands after every [ok] entry whatever its
    seconds, and carries no rank. *)
Theorem computeLeaderboard_order :
  forall (localeCompare : string -> string -> Z),
    consistentComparator localeCompare ->
    forall (stats : list DailyStat) (self : string),
      let out := computeLeaderboard localeCompare stats self in
      Permutation stats (map stat out) /\
      (forall i j a b,
          (i < j)%nat -> nth_error out i = Some a -> nth_error out j = Some b ->
          orderedBefore localeCompare (stat a) (stat b)) /\
      (forall i j a b,
          nth_error out i = Some a -> nth_error out j = Some b ->
          status (stat a) <> ok -> status (stat b) = ok -> (j < i)%nat) /\
      (forall e, In e out -> status (stat e) <> ok -> rank e = None).
Proof.
  intros localeCompare Hc stats self out.
  split; [|split; [|split]].
  - unfold out. rewrite computeLeaderboard_stat.
    apply JsArrayFacts.sort_Permutation.
  - intros i j a b Hij Ha Hb.
    eapply JsArrayFacts.StronglySorted_nth.
    + apply (sortStats_orderedBefore stats Hc).
    + exact Hij.
    + apply (computeLeaderboard_nth _ _ _ _ Ha).
    + apply (computeLeaderboard_nth _ _ _ _ Hb).
  - intros i j a b Ha Hb Hna Hbok.
    destruct (Nat.lt_trichotomy j i) as [Hlt|[->|Hgt]].
    + exact Hlt.
    + rewrite Ha in Hb. injection Hb as ->. contradiction.
    + exfalso. apply Hna. eapply keyLe_ok; [|exact Hbok].
      eapply JsArrayFacts.StronglySorted_nth.
      * apply (sortStats_keyLe localeCompare stats).
      * exact Hgt.
      * apply (computeLeaderboard_nth _ _ _ _ Ha).
      * apply (computeLeaderboard_nth _ _ _ _ Hb).
  - intros e He Hne. unfold out, computeLeaderboard in He.
    eapply rankEntries_unranked; eassumption.
Qed.

Lemma computeLeaderboard_order_witness :
  let stats := [st "ben" 1000 ok; st "amy" 2000 ok; st "dena" 0 private;
                st "mo" 1500 ok] in
  let out := computeLeaderboard codeUnitCompare stats "mo" in
  consistentComparator codeUnitCompare /\
  map (fun e => (username (stat e), rank e)) out
  = [("amy", Some 1%nat); ("mo", Some 2%nat); ("ben", Some 3%nat);
     ("dena", None)] /\
  Permutation stats (map stat out) /\
  (forall i j a b,
      (i < j)%nat -> nth_error out i = Some a -> nth_error out j = Some b ->
      orderedBefore codeUnitCompare (stat a) (stat b)) /\
  (forall i j a b,
      nth_error out i = Some a -> nth_error out j = Some b ->
      status (stat a) <> ok -> status (stat b) = ok -> (j < i)%nat) /\
  (forall e, In e out -> status (stat e) <> ok -> rank e = None).
Proof.
  intros stats out.
  split; [exact codeUnitCompare_consistent|]. split; [reflexivity|].
  exact (@computeLeaderboard_order codeUnitCompare codeUnitCompare_consistent
                                   stats "mo").
Defined.

(** *** Deltas *)

Lemma find_username_Some (self : string) (l : list DailyStat) (s : DailyStat) :
  find (fun entry => String.eqb (username entry) self) l = Some s ->
  In s l /\ username s = self.
Proof.
  intro H. apply find_some in H. destruct H as [Hin Heq].
  split; [exact Hin|]. apply String.eqb_eq. exact Heq.
Qed.

Lemma find_username_None (self : string) (l : list DailyStat) :
  find (fun entry => String.eqb (username entry) self) l = None ->
  forall s, In s l -> username s <> self.
Proof.
  intros H s Hs Heq. apply (find_none _ _ H) in Hs.
  apply String.eqb_neq in Hs. contradiction.
Qed.

Lemma find_first (A : Type) (p : A -> bool) (l : list A) :
  forall (i : nat) (x : A),
    nth_error l i = Some x -> p x = true ->
    (forall j y, (j < i)%nat -> nth_error l j = Some y -> p y = false) ->
    find p l = Some x.
Proof.
  induction l as [|a t IH]; intros i x Hnth Hp Hbefore.
  - destruct i; discriminate.
  - destruct i as [|i]; simpl in Hnth |- *.
    + injection Hnth as ->. rewrite Hp. reflexivity.
    + rewrite (Hbefore 0%nat a); [|lia|reflexivity].
      apply (IH i x Hnth Hp).
      intros j y Hj Hy. apply (Hbefore (S j) y); [lia|exact Hy].
Qed.

(** C7.  Every entry's [deltaSeconds] is its own seconds minus
    [selfSeconds], where [selfSeconds] is 0 when no input entry has the
    username [selfUsername], and otherwise the seconds of the first entry
    of the sorted order that has it.  That entry is an input entry; when
    the input entries with that username agree on their seconds (as they
    do when there is only one), [selfSeconds] is the seconds of the input
    entry with that username. *)
Theorem computeLeaderboard_delta :
  forall (localeCompare : string -> string -> Z) (stats : list DailyStat)
         (self : string),
    let out := computeLeaderboard localeCompare stats self in
    ((forall s, In s stats -> username s <> self) ->
     forall e, In e out -> deltaSeconds e = totalSeconds (stat e) - 0) /\
    (forall i e0,
        nth_error out i = Some e0 -> username (stat e0) = self ->
        (forall j e', (j < i)%nat -> nth_error out j = Some e' ->
                      username (stat e') <> self) ->
        forall e, In e out ->
          deltaSeconds e = totalSeconds (stat e) - totalSeconds (stat e0)) /\
    (forall s, In s stats -> username s = self ->
               exists s', In s' stats /\ username s' = self /\
                          forall e, In e out ->
                            deltaSeconds e
                            = totalSeconds (stat e) - totalSeconds s') /\
    (forall s, In s stats -> username s = self ->
               (forall s', In s' stats -> username s' = self ->
                           totalSeconds s' = totalSeconds s) ->
               forall e, In e out ->
                 deltaSeconds e = totalSeconds (stat e) - totalSeconds s).
Proof.
  intros localeCompare stats self out.
  assert (Hdelta : forall e, In e out ->
            deltaSeconds e
            = totalSeconds (stat e)
              - match find (fun entry => String.eqb (username entry) self)
                           (sortStats localeCompare stats) with
                | Some s => totalSeconds s
                | None => 0
                end).
  { intros e He. unfold out, computeLeaderboard in He.
    eapply rankEntries_delta. exact He. }
  assert (Hfirst : forall i e0,
            nth_error out i = Some e0 -> username (stat e0) = self ->
            (forall j e', (j < i)%nat -> nth_error out j = Some e' ->
                          username (stat e') <> self) ->
            find (fun entry => String.eqb (username entry) self)
                 (sortStats localeCompare stats) = Some (stat e0)).
  { intros i e0 Hnth Hname Hbefore.
    apply (@find_first _ _ _ i).
    - apply (computeLeaderboard_nth _ _ _ _ Hnth).
    - apply String.eqb_eq. exact Hname.
    - intros j y Hj Hy. apply String.eqb_neq.
      rewrite <- (computeLeaderboard_stat localeCompare stats self) in Hy.
      rewrite nth_error_map in Hy. fold out in Hy.
      destruct (nth_error out j) as [e'|] eqn:He'; [|discriminate].
      injection Hy as <-. exact (Hbefore j e' Hj He'). }
  split; [|split].
  - intros Hnone e He. rewrite (Hdelta e He).
    destruct (find _ (sortStats localeCompare stats)) as [f|] eqn:Hfind;
      [|reflexivity].
    apply find_username_Some in Hfind. destruct Hfind as [Hin Hname].
    apply JsArrayFacts.sort_In in Hin. exfalso. exact (Hnone f Hin Hname).
  - intros i e0 Hnth Hname Hbefore e He.
    rewrite (Hdelta e He), (Hfirst i e0 Hnth Hname Hbefore). reflexivity.
  - destruct (find _ (sortStats localeCompare stats)) as [f|] eqn:Hfind.
    + apply find_username_Some in Hfind. destruct Hfind as [Hin Hname].
      apply JsArrayFacts.sort_In in Hin.
      split.
      * intros s _ _. exists f. split; [exact Hin|]. split; [exact Hname|].
        exact Hdelta.
      * intros s Hs Hsname Huniq e He.
        rewrite (Hdelta e He), (Huniq f Hin Hname). reflexivity.
    + pose proof (@find_username_None _ _ Hfind) as Hnone.
      split.
      * intros s Hs Hname. exfalso. apply (Hnone s); [|exact Hname].
        apply JsArrayFacts.sort_In. exact Hs.
      * intros s Hs Hname. exfalso. apply (Hnone s); [|exact Hname].
        apply JsArrayFacts.sort_In. exact Hs.
Qed.

Lemma computeLeaderboard_delta_witness :
  Forall (fun e => deltaSeconds e = totalSeconds (stat e) - 1500)
         (computeLeaderboard codeUnitCompare
            [st "ben" 1000 ok; st "amy" 2000 ok; st "dena" 0 private;
             st "mo" 1500 ok] "mo").
Proof.
  apply Forall_forall.
  apply (proj2 (proj2 (proj2 (computeLeaderboard_delta codeUnitCompare
                         [st "ben" 1000 ok; st "amy" 2000 ok;
                          st "dena" 0 private; st "mo" 1500 ok] "mo")))
               (st "mo" 1500 ok)).
  - simpl. tauto.
  - reflexivity.
  - intros s' Hin Hname. simpl in Hin.
    destruct Hin as [<-|[<-|[<-|[<-|[]]]]]; try discriminate. reflexivity.
Defined.

(** With two input entries of the same username the self entry is the one
    the sort puts first, not the one the input has first: here the input
    starts with mo's private entry of 5 seconds, the sorted order with
    mo's ok entry of 10 seconds, and the deltas are taken against 10. *)
Lemma computeLeaderboard_delta_duplicate_usernames :
  let stats := [st "mo" 5 private; st "mo" 10 ok] in
  let out := computeLeaderboard codeUnitCompare stats "mo" in
  let s := st "mo" 5 private in
  find (fun entry => String.eqb (username entry) "mo") stats = Some s /\
  In s stats /\ username s = "mo" /\
  map (fun e => (totalSeconds (stat e), deltaSeconds e)) out
  = [(10, 0); (5, -5)] /\
  ~ (forall e, In e out ->
               deltaSeconds e = totalSeconds (stat e) - totalSeconds s).
Proof.
  intros stats out s.
  split; [reflexivity|]. split; [left; reflexivity|].
  split; [reflexivity|]. split; [reflexivity|].
  intro H.
  specialize (H (mkEntry (st "mo" 10 ok) (Some 1%nat) 0)).
  assert (Hin : In (mkEntry (st "mo" 10 ok) (Some 1%nat) 0) out).
  { left. reflexivity. }
  specialize (H Hin). discriminate H.
Qed.

(** *** Slices *)

Lemma slice_incl (A : Type) (l : list A) (start stop : Z) (x : A) :
  In x (JsArray.slice l start stop) -> In x l.
Proof.
  unfold JsArray.slice.
  set (k := Z.to_nat _). set (n := Z.to_nat _). intro H.
  rewrite <- (firstn_skipn n l). apply in_or_app. right.
  rewrite <- (firstn_skipn k (skipn n l)). apply in_or_app. left. exact H.
Qed.

Lemma NoDup_map_eq (A B : Type) (f : A -> B) (l : list A) :
  NoDup (map f l) ->
  forall a b, In a l -> In b l -> f a = f b -> a = b.
Proof.
  induction l as [|x t IH]; simpl; intros Hnd a b Ha Hb Hf.
  - destruct Ha.
  - inversion Hnd as [|? ? Hnotin Hnd']; subst.
    destruct Ha as [<-|Ha], Hb as [<-|Hb].
    + reflexivity.
    + exfalso. apply Hnotin. rewrite Hf. apply in_map. exact Hb.
    + exfalso. apply Hnotin. rewrite <- Hf. apply in_map. exact Ha.
    + apply IH; assumption.
Qed.

Lemma existsb_username (u : string) (picked : list string) :
  existsb (String.eqb u) picked = true <-> In u picked.
Proof.
  rewrite existsb_exists. split.
  - intros [v [Hv Heq]]. apply String.eqb_eq in Heq. subst. exact Hv.
  - intro H. exists u. split; [exact H|apply String.eqb_refl].
Qed.

Section SliceFacts.
Variable localeCompare : string -> string -> Z.
Variable entries : list DailyStat.
Variable selfUsername : string.
Variable options : SliceOptions.

Let s := sliceLeaderboard localeCompare entries selfUsername options.

Lemma podium_ranked (e : DailyStat) :
  In e (podium s) -> In e entries /\ status e = ok.
Proof.
  unfold s, sliceLeaderboard. simpl. intro H.
  apply slice_incl in H. apply filter_In in H. destruct H as [H Hok].
  split; [|apply isOk_true; exact Hok].
  apply (JsArrayFacts.sort_In (compareStats localeCompare)). exact H.
Qed.

Lemma nearMe_ranked (e : DailyStat) :
  In e (nearMe s) -> In e entries /\ status e = ok.
Proof.
  unfold s, sliceLeaderboard. simpl.
  destruct (JsArray.findIndex _ _); [|intros []].
  intro H.
  apply slice_incl in H. apply filter_In in H. destruct H as [H Hok].
  split; [|apply isOk_true; exact Hok].
  apply (JsArrayFacts.sort_In (compareStats localeCompare)). exact H.
Qed.

Lemma rest_spec (e : DailyStat) :
  In e (rest s) <->
  In e entries /\
  ~ In (username e) (map username (podium s ++ nearMe s)).
Proof.
  unfold s, sliceLeaderboard, sortStats. simpl. rewrite filter_In, map_app.
  rewrite (JsArrayFacts.sort_In (compareStats localeCompare)).
  rewrite negb_true_iff, <- not_true_iff_false, existsb_username.
  reflexivity.
Qed.
End SliceFacts.

(** The three buckets of the package's own test: "cora" closes the podium
    and opens the window around "mo". *)
Lemma sliceLeaderboard_podium_nearMe_overlap :
  let s :=
    sliceLeaderboard codeUnitCompare
      [st "amy" 4000 ok; st "ben" 3500 ok; st "cora" 3000 ok;
       st "mo" 2500 ok; st "dena" 2400 ok; st "eli" 0 private]
      "mo" (mkSliceOptions (Some 3) (Some 1)) in
  map username (podium s) = ["amy"; "ben"; "cora"] /\
  map username (nearMe s) = ["cora"; "mo"; "dena"] /\
  map username (rest s) = ["eli"] /\
  ~ disjointByUsername (podium s) (nearMe s).
Proof.
  intro s. split; [reflexivity|]. split; [reflexivity|].
  split; [reflexivity|].
  intro H. apply (H (st "cora" 3000 ok) (st "cora" 3000 ok)).
  - simpl. tauto.
  - simpl. tauto.
  - reflexivity.
Qed.

(** C2 (amended).  [rest] shares no username with [podium] or [nearMe];
    every entry of the three buckets is an input entry; every input
    username occurs in one of the buckets; and when the input usernames are
    pairwise distinct every input entry is in one of the buckets.  ([podium]
    and [nearMe] may overlap.) *)
Theorem sliceLeaderboard_cover :
  forall (localeCompare : string -> string -> Z) (entries : list DailyStat)
         (selfUsername : string) (options : SliceOptions),
    let s := sliceLeaderboard localeCompare entries selfUsername options in
    disjointByUsername (rest s) (podium s) /\
    disjointByUsername (rest s) (nearMe s) /\
    (forall e, In e (podium s ++ nearMe s ++ rest s) -> In e entries) /\
    (forall e, In e entries ->
               In (username e)
                  (map username (podium s ++ nearMe s ++ rest s))) /\
    (NoDup (map username entries) ->
     forall e, In e entries <-> In e (podium s ++ nearMe s ++ rest s)).
Proof.
  intros localeCompare entries selfUsername options s.
  assert (Hbucket : forall e, In e (podium s ++ nearMe s ++ rest s) ->
                              In e entries).
  { intros e He. rewrite !in_app_iff in He.
    destruct He as [He|[He|He]].
    - apply (podium_ranked _ _ _ _ _ He).
    - apply (nearMe_ranked _ _ _ _ _ He).
    - apply rest_spec in He. apply He. }
  assert (Hsplit : forall e, In e entries ->
            In (username e) (map username (podium s ++ nearMe s))
            \/ In e (rest s)).
  { intros e He.
    destruct (in_dec string_dec (username e)
                     (map username (podium s ++ nearMe s))) as [Hp|Hp].
    - left. exact Hp.
    - right. apply rest_spec. split; assumption. }
  split; [|split; [|split; [|split]]].
  - intros x y Hx Hy Heq. apply rest_spec in Hx. destruct Hx as [_ Hx].
    apply Hx. rewrite Heq. apply in_map. apply in_or_app. left. exact Hy.
  - intros x y Hx Hy Heq. apply rest_spec in Hx. destruct Hx as [_ Hx].
    apply Hx. rewrite Heq. apply in_map. apply in_or_app. right. exact Hy.
  - exact Hbucket.
  - intros e He. destruct (Hsplit e He) as [Hp|Hr].
    + rewrite app_assoc, map_app. apply in_or_app. left. exact Hp.
    + apply in_map. rewrite !in_app_iff. right. right. exact Hr.
  - intros Hnd e. split; [|apply Hbucket].
    intro He. destruct (Hsplit e He) as [Hp|Hr].
    + apply in_map_iff in Hp. destruct Hp as [p [Hname Hp]].
      assert (p = e).
      { apply (NoDup_map_eq username entries Hnd); [|exact He|exact Hname].
        apply Hbucket. rewrite app_assoc. apply in_or_app. left. exact Hp. }
      subst p. rewrite app_assoc. apply in_or_app. left. exact Hp.
    + rewrite !in_app_iff. right. right. exact Hr.
Qed.

(** ** Achievement grants *)

Lemma findIndex_None (A : Type) (p : A -> bool) (l : list A) :
  JsArray.findIndex p l = None -> filter p l = [].
Proof.
  induction l as [|x t IH]; simpl; [reflexivity|].
  destruct (p x); [discriminate|].
  destruct (JsArray.findIndex p t); [discriminate|].
  intros _. apply IH. reflexivity.
Qed.

Lemma findIndex_Some (A : Type) (p : A -> bool) (l : list A) :
  forall i, JsArray.findIndex p l = Some i ->
            exists x, nth_error l i = Some x /\ p x = true.
Proof.
  induction l as [|x t IH]; simpl; intros i; [discriminate|].
  destruct (p x) eqn:Hx.
  - intros [= <-]. exists x. split; [reflexivity|exact Hx].
  - destruct (JsArray.findIndex p t) as [j|]; [|discriminate].
    intros [= <-]. apply IH. reflexivity.
Qed.

Lemma mapi_replace_outside (A : Type) (r : A) (target : nat) (l : list A) :
  forall index,
    (target < index)%nat ->
    JsArray.mapi (fun e i => if (i =? target)%nat then r else e) index l = l.
Proof.
  induction l as [|x t IH]; intros index Hlt; simpl; [reflexivity|].
  destruct (Nat.eqb_spec index target); [lia|].
  f_equal. apply IH. lia.
Qed.

Lemma mapi_length (A B : Type) (f : A -> nat -> B) (l : list A) :
  forall index, List.length (JsArray.mapi f index l) = List.length l.
Proof.
  induction l as [|x t IH]; intros index; simpl; [reflexivity|].
  f_equal. apply IH.
Qed.

(** Replacing the element at [target] by one that a predicate cannot tell
    from it keeps the number of elements the predicate selects, and puts
    the replacement in the list. *)
Lemma mapi_replace_filter (A : Type) (q : A -> bool) (r : A) (l : list A) :
  forall index target x,
    (index <= target)%nat ->
    nth_error l (target - index) = Some x ->
    q x = q r ->
    List.length
      (filter q (JsArray.mapi
                   (fun e i => if (i =? target)%nat then r else e) index l))
    = List.length (filter q l).
Proof.
  induction l as [|y t IH]; intros index target x Hle Hnth Hq.
  - destruct (target - index)%nat; discriminate.
  - simpl. destruct (Nat.eqb_spec index target) as [->|Hne].
    + rewrite Nat.sub_diag in Hnth. injection Hnth as ->.
      rewrite mapi_replace_outside by lia.
      rewrite Hq. destruct (q r); reflexivity.
    + replace (target - index)%nat with (S (target - S index)) in Hnth by lia.
      simpl in Hnth.
      assert (IH' := IH (S index) target x ltac:(lia) Hnth Hq).
      destruct (q y); simpl; rewrite IH'; reflexivity.
Qed.

Lemma mapi_replace_In (A : Type) (r : A) (l : list A) :
  forall index target,
    (index <= target)%nat -> (target - index < List.length l)%nat ->
    In r (JsArray.mapi (fun e i => if (i =? target)%nat then r else e) index l).
Proof.
  induction l as [|y t IH]; intros index target Hle Hlt; simpl in *.
  - lia.
  - destruct (Nat.eqb_spec index target) as [->|Hne].
    + left. reflexivity.
    + right. apply IH; lia.
Qed.

Module MemoryRepositoryFacts.
Import MemoryRepository.

Lemma sameTuple_spec (input : Grant.AchievementGrantRecord)
      (entry : AchievementRecord) :
  sameTuple input entry = true <->
  userId entry = Grant.userId input /\
  achievementId entry = Grant.achievementId input /\
  contextKind entry = Grant.contextKind input /\
  contextKey entry = Grant.contextKey input.
Proof.
  unfold sameTuple. rewrite !andb_true_iff, Z.eqb_eq, !String.eqb_eq.
  assert (Hk : contextKind_eqb (contextKind entry) (Grant.contextKind input)
               = true
               <-> contextKind entry = Grant.contextKind input)
    by (destruct (contextKind entry), (Grant.contextKind input); simpl;
        split; congruence).
  rewrite Hk. tauto.
Qed.

Lemma sameTuple_toRecord (input : Grant.AchievementGrantRecord) :
  sameTuple input (toRecord input) = true.
Proof. apply sameTuple_spec. simpl. tauto. Qed.

(** A stored row with the tuple of [input] and the record made from
    [input] match the same tuples. *)
Lemma sameTuple_agree (input k : Grant.AchievementGrantRecord)
      (entry : AchievementRecord) :
  sameTuple input entry = true ->
  sameTuple k entry = sameTuple k (toRecord input).
Proof.
  intro H. apply sameTuple_spec in H. destruct H as (H1 & H2 & H3 & H4).
  unfold sameTuple. simpl. rewrite H1, H2, H3, H4. reflexivity.
Qed.

Lemma grantAchievement_rows (achievements : list AchievementRecord)
      (input k : Grant.AchievementGrantRecord) :
  List.length (rowsFor k (grantAchievement achievements input))
  = match JsArray.findIndex (sameTuple input) achievements with
    | Some _ => List.length (rowsFor k achievements)
    | None =>
        (List.length (rowsFor k achievements)
         + if sameTuple k (toRecord input) then 1 else 0)%nat
    end.
Proof.
  unfold grantAchievement, rowsFor.
  destruct (JsArray.findIndex (sameTuple input) achievements) as [i|] eqn:Hi.
  - apply findIndex_Some in Hi. destruct Hi as [x [Hx Hsame]].
    apply mapi_replace_filter with (x := x).
    + lia.
    + rewrite Nat.sub_0_r. exact Hx.
    + apply sameTuple_agree. exact Hsame.
  - rewrite filter_app, length_app. simpl.
    destruct (sameTuple k (toRecord input)); reflexivity.
Qed.

Lemma grantAchievement_In (achievements : list AchievementRecord)
      (input : Grant.AchievementGrantRecord) :
  In (toRecord input) (grantAchievement achievements input).
Proof.
  unfold grantAchievement.
  destruct (JsArray.findIndex (sameTuple input) achievements) as [i|] eqn:Hi.
  - apply findIndex_Some in Hi. destruct Hi as [x [Hx _]].
    apply mapi_replace_In; [lia|].
    rewrite Nat.sub_0_r. apply nth_error_Some. congruence.
  - apply in_or_app. right. left. reflexivity.
Qed.

Lemma grantAchievement_unique (achievements : list AchievementRecord)
      (input : Grant.AchievementGrantRecord) :
  uniqueTuples achievements ->
  uniqueTuples (grantAchievement achievements input).
Proof.
  intros Hu k. rewrite grantAchievement_rows.
  destruct (JsArray.findIndex (sameTuple input) achievements) eqn:Hi.
  - apply Hu.
  - destruct (sameTuple k (toRecord input)) eqn:Hk; [|specialize (Hu k); lia].
    assert (Hnone : rowsFor k achievements = []).
    { unfold rowsFor. apply findIndex_None in Hi.
      rewrite <- Hi. apply filter_ext. intro x.
      apply eq_true_iff_eq. rewrite !sameTuple_spec.
      apply sameTuple_spec in Hk. simpl in Hk. intuition congruence. }
    rewrite Hnone. simpl. lia.
Qed.

Lemma afterGrants_unique (history : list Grant.AchievementGrantRecord) :
  uniqueTuples (afterGrants history).
Proof.
  unfold afterGrants.
  assert (H : forall s, uniqueTuples s ->
                        uniqueTuples (fold_left grantAchievement history s)).
  { induction history as [|i h IH]; intros s Hs; simpl; [exact Hs|].
    apply IH. apply grantAchievement_unique. exact Hs. }
  apply H. intro k. simpl. lia.
Qed.

(** After a grant, a store with unique tuples holds exactly the granted
    record for the tuple. *)
Lemma grantAchievement_row (achievements : list AchievementRecord)
      (input : Grant.AchievementGrantRecord) :
  uniqueTuples achievements ->
  rowsFor input (grantAchievement achievements input) = [toRecord input].
Proof.
  intro Hu.
  pose proof (grantAchievement_unique input Hu input) as Hle.
  assert (Hin : In (toRecord input)
                   (rowsFor input (grantAchievement achievements input))).
  { apply filter_In. split.
    - apply grantAchievement_In.
    - apply sameTuple_toRecord. }
  destruct (rowsFor input (grantAchievement achievements input))
    as [|r [|r' t]]; simpl in *.
  - destruct Hin.
  - destruct Hin as [->|[]]. reflexivity.
  - lia.
Qed.

End MemoryRepositoryFacts.

Module PrismaRepositoryFacts.
Import PrismaRepository.

Lemma selects_spec (input : Grant.AchievementGrantRecord)
      (row : ww_user_achievement) :
  selects input row = true <->
  user_id row = Grant.userId input /\
  achievement_key row = Grant.achievementId input /\
  context_kind row = Grant.contextKind input /\
  context_key row = Grant.contextKey input.
Proof.
  unfold selects. rewrite !andb_true_iff, Z.eqb_eq, !String.eqb_eq.
  assert (Hk : contextKind_eqb (context_kind row) (Grant.contextKind input)
               = true
               <-> context_kind row = Grant.contextKind input)
    by (destruct (context_kind row), (Grant.contextKind input); simpl;
        split; congruence).
  rewrite Hk. tauto.
Qed.

Lemma selects_create (d : option string)
      (input : Grant.AchievementGrantRecord) :
  selects input (create d input) = true.
Proof. apply selects_spec. simpl. tauto. Qed.

(** Two inputs that select a common row select the same rows. *)
Lemma selects_common (input k : Grant.AchievementGrantRecord)
      (row : ww_user_achievement) :
  selects input row = true -> selects k row = true ->
  forall row', selects k row' = selects input row'.
Proof.
  intros Hi Hk row'. apply eq_true_iff_eq. rewrite !selects_spec.
  apply selects_spec in Hi. apply selects_spec in Hk.
  intuition congruence.
Qed.

Lemma existsb_false_filter (A : Type) (p : A -> bool) (l : list A) :
  existsb p l = false -> filter p l = [].
Proof.
  induction l as [|x t IH]; simpl; [reflexivity|].
  destruct (p x); simpl; [discriminate|exact IH].
Qed.

Lemma filter_nonempty_existsb (A : Type) (p : A -> bool) (l : list A)
      (x : A) (t : list A) :
  filter p l = x :: t -> existsb p l = true.
Proof.
  intro H. apply existsb_exists. exists x. apply filter_In.
  rewrite H. left. reflexivity.
Qed.

(** The update keeps the indexed columns, so it moves no row from one
    tuple to another. *)
Lemma rowsFor_updated (input k : Grant.AchievementGrantRecord)
      (table : list ww_user_achievement) :
  rowsFor k (map (fun row => if selects input row then update input row
                             else row) table)
  = map (fun row => if selects input row then update input row else row)
        (rowsFor k table).
Proof.
  unfold rowsFor. induction table as [|r t IH]; simpl; [reflexivity|].
  assert (Hkeep : selects k (if selects input r then update input r else r)
                  = selects k r)
    by (destruct (selects input r); reflexivity).
  rewrite Hkeep. destruct (selects k r); simpl; rewrite IH; reflexivity.
Qed.

Lemma upsert_unique (d : option string)
      (table : list ww_user_achievement)
      (input : Grant.AchievementGrantRecord) :
  uniqueIndex table -> uniqueIndex (grantAchievement d table input).
Proof.
  intros Hu k. unfold grantAchievement, upsert.
  destruct (existsb (selects input) table) eqn:He.
  - rewrite rowsFor_updated, length_map. apply Hu.
  - unfold rowsFor. rewrite filter_app, length_app. simpl.
    destruct (selects k (create d input)) eqn:Hk;
      [|specialize (Hu k); unfold rowsFor in Hu; simpl; lia].
    rewrite (filter_ext _ _ (@selects_common input k _ (selects_create d input) Hk)).
    rewrite (existsb_false_filter _ _ He). simpl. lia.
Qed.

(** After a grant the table holds one row for the tuple: the created row
    when there was none, the updated row when there was one. *)
Lemma upsert_row (d : option string)
      (table : list ww_user_achievement)
      (input : Grant.AchievementGrantRecord) :
  uniqueIndex table ->
  rowsFor input (grantAchievement d table input)
  = match rowsFor input table with
    | [] => [create d input]
    | row :: _ => [update input row]
    end.
Proof.
  intro Hu. unfold grantAchievement, upsert.
  destruct (rowsFor input table) as [|row rest] eqn:Hrows.
  - assert (He : existsb (selects input) table = false).
    { destruct (existsb (selects input) table) eqn:He; [|reflexivity].
      apply existsb_exists in He. destruct He as [x [Hx Hsel]].
      assert (Hin : In x (rowsFor input table))
        by (apply filter_In; split; assumption).
      rewrite Hrows in Hin. destruct Hin. }
    rewrite He. unfold rowsFor in *. rewrite filter_app, Hrows. simpl.
    rewrite selects_create. reflexivity.
  - rewrite (filter_nonempty_existsb _ _ Hrows).
    rewrite rowsFor_updated, Hrows.
    specialize (Hu input). rewrite Hrows in Hu.
    destruct rest as [|r' rest]; [|simpl in Hu; lia].
    simpl.
    assert (Hsel : selects input row = true).
    { assert (Hin : In row (rowsFor input table))
        by (rewrite Hrows; left; reflexivity).
      apply filter_In in Hin. exact (proj2 Hin). }
    rewrite Hsel. reflexivity.
Qed.

End PrismaRepositoryFacts.




(** ** Facts about the map model *)

Module JsMapFacts.
Section MapFacts.
Variables K V : Type.
Variable eqb : K -> K -> bool.
Hypothesis eqb_spec : forall a b, eqb a b = true <-> a = b.

Lemma eqb_refl (k : K) : eqb k k = true.
Proof. apply eqb_spec. reflexivity. Qed.

Lemma eqb_neq (a b : K) : a <> b -> eqb a b = false.
Proof.
  intro H. destruct (eqb a b) eqn:E; [|reflexivity].
  apply eqb_spec in E. contradiction.
Qed.

Lemma get_set_same (k : K) (v : V) (m : list (K * V)) :
  JsMap.get eqb k (JsMap.set eqb k v m) = Some v.
Proof.
  induction m as [|[k' v'] t IH]; simpl.
  - rewrite eqb_refl. reflexivity.
  - destruct (eqb k' k) eqn:E; simpl.
    + rewrite eqb_refl. reflexivity.
    + rewrite E. exact IH.
Qed.

Lemma get_set_other (k k0 : K) (v : V) (m : list (K * V)) :
  k <> k0 ->
  JsMap.get eqb k0 (JsMap.set eqb k v m) = JsMap.get eqb k0 m.
Proof.
  intro Hne. induction m as [|[k' v'] t IH]; simpl.
  - rewrite (eqb_neq Hne). reflexivity.
  - destruct (eqb k' k) eqn:E; simpl.
    + apply eqb_spec in E. subst k'. rewrite (eqb_neq Hne). reflexivity.
    + rewrite IH. reflexivity.
Qed.

Lemma get_In (k : K) (v : V) (m : list (K * V)) :
  JsMap.get eqb k m = Some v -> In (k, v) m.
Proof.
  induction m as [|[k' v'] t IH]; simpl; [discriminate|].
  destruct (eqb k' k) eqn:E.
  - apply eqb_spec in E. subst k'. intros [= ->]. left. reflexivity.
  - intro H. right. apply IH. exact H.
Qed.

Lemma In_get (k : K) (v : V) (m : list (K * V)) :
  NoDup (map fst m) -> In (k, v) m -> JsMap.get eqb k m = Some v.
Proof.
  induction m as [|[k' v'] t IH]; simpl; intros Hnd Hin; [destruct Hin|].
  inversion Hnd as [|? ? Hnotin Hnd']; subst.
  destruct Hin as [[= -> ->]|Hin].
  - rewrite eqb_refl. reflexivity.
  - destruct (eqb k' k) eqn:E.
    + apply eqb_spec in E. subst k'. exfalso. apply Hnotin.
      change k with (fst (k, v)). apply in_map. exact Hin.
    + apply IH; assumption.
Qed.

Lemma set_keys (k : K) (v : V) (m : list (K * V)) :
  forall k0, In k0 (map fst (JsMap.set eqb k v m)) <->
             k0 = k \/ In k0 (map fst m).
Proof.
  induction m as [|[k' v'] t IH]; simpl; intro k0.
  - intuition.
  - destruct (eqb k' k) eqn:E; simpl.
    + apply eqb_spec in E. subst k'. intuition.
    + rewrite IH. intuition.
Qed.

Lemma set_NoDup (k : K) (v : V) (m : list (K * V)) :
  NoDup (map fst m) -> NoDup (map fst (JsMap.set eqb k v m)).
Proof.
  induction m as [|[k' v'] t IH]; simpl; intro Hnd.
  - constructor; [intros []|constructor].
  - inversion Hnd as [|? ? Hnotin Hnd']; subst.
    destruct (eqb k' k) eqn:E; simpl.
    + apply eqb_spec in E. subst k'. constructor; assumption.
    + constructor; [|apply IH; exact Hnd'].
      rewrite set_keys. intros [->|Hin]; [|contradiction].
      rewrite eqb_refl in E. discriminate.
Qed.

Variable f : K -> V.

Lemma ofPairs_keep (ids : list K) (k : K) :
  forall m,
    JsMap.get eqb k m = Some (f k) ->
    JsMap.get eqb k
      (fold_left (fun m kv => JsMap.set eqb (fst kv) (snd kv) m)
                 (map (fun id => (id, f id)) ids) m)
    = Some (f k).
Proof.
  induction ids as [|id t IH]; simpl; intros m Hm; [exact Hm|].
  apply IH. destruct (eqb id k) eqn:E.
  - apply eqb_spec in E. subst id. apply get_set_same.
  - rewrite get_set_other; [exact Hm|].
    intro H. subst id. rewrite eqb_refl in E. discriminate.
Qed.

(** [new Map(ids.map(id => [id, f(id)]))] maps each listed id to [f id]. *)
Lemma ofPairs_get (ids : list K) (k : K) :
  In k ids ->
  JsMap.get eqb k (JsMap.ofPairs eqb (map (fun id => (id, f id)) ids))
  = Some (f k).
Proof.
  unfold JsMap.ofPairs. generalize (@nil (K * V)).
  induction ids as [|id t IH]; simpl; intros m Hin; [destruct Hin|].
  destruct (eqb id k) eqn:E.
  - apply eqb_spec in E. subst id. apply ofPairs_keep. apply get_set_same.
  - destruct Hin as [->|Hin]; [rewrite eqb_refl in E; discriminate|].
    apply IH. exact Hin.
Qed.
End MapFacts.

Lemma string_eqb_spec (a b : string) : String.eqb a b = true <-> a = b.
Proof. apply String.eqb_eq. Qed.

Lemma Z_eqb_spec (a b : Z) : Z.eqb a b = true <-> a = b.
Proof. apply Z.eqb_eq. Qed.

End JsMapFacts.

(** ** Honor titles *)

Module HonorTitleFacts.
Import AchievementGrantSummary HonorTitles JsMapFacts.

(** *** Grouping the grants *)

Lemma getCount_nonneg (m : list (string * Z)) (a : string) :
  (forall a c, In (a, c) m -> 0 < c) -> 0 <= getCount m a.
Proof.
  intro Hpos. unfold getCount.
  destruct (JsMap.get String.eqb a m) as [c|] eqn:E; [|lia].
  apply (get_In _ string_eqb_spec) in E. apply Hpos in E. lia.
Qed.

Lemma set_In (k : string) (v : Z) (m : list (string * Z)) (a : string) (c : Z) :
  In (a, c) (JsMap.set String.eqb k v m) ->
  (a = k /\ c = v) \/ In (a, c) m.
Proof.
  induction m as [|[k' v'] t IH]; simpl.
  - intros [[= <- <-]|[]]. left. split; reflexivity.
  - destruct (String.eqb k' k); simpl.
    + intros [[= <- <-]|H]; [left; split; reflexivity|right; right; exact H].
    + intros [H|H]; [right; left; exact H|].
      destruct (IH H) as [H'|H']; [left; exact H'|right; right; exact H'].
Qed.

Lemma groupStep_counts (state : Grouped) (g : AchievementGrantSummary)
      (u : Z) (a : string) :
  getCount (JsMap.orEmpty (JsMap.get Z.eqb u (fst (groupStep state g)))) a
  = getCount (JsMap.orEmpty (JsMap.get Z.eqb u (fst state))) a
    + (if isGrantOf u a g then 1 else 0).
Proof.
  destruct state as [counts keys]. unfold groupStep, isGrantOf.
  set (m := JsMap.orEmpty (JsMap.get Z.eqb (userId g) counts)).
  assert (Hfst : forall (b : bool) (x y z : list (Z * list string))
                        (c : list (Z * list (string * Z))),
             fst (if b then (c, x) else (c, y)) = c)
    by (intros [] ? ? ? ?; reflexivity).
  rewrite (Hfst _ _ _ keys). clear Hfst. simpl fst.
  destruct (Z.eqb_spec (userId g) u) as [Hu|Hu]; simpl andb.
  - subst u. rewrite (get_set_same _ Z_eqb_spec). simpl JsMap.orEmpty.
    fold m. unfold getCount at 1.
    destruct (String.eqb_spec (achievementId g) a) as [Ha|Ha].
    + subst a. rewrite (get_set_same _ string_eqb_spec). reflexivity.
    + rewrite (get_set_other _ string_eqb_spec) by exact Ha.
      fold (getCount m a). lia.
  - rewrite (get_set_other _ Z_eqb_spec) by exact Hu. lia.
Qed.

Lemma groupStep_wellFormed (state : Grouped) (g : AchievementGrantSummary) :
  wellFormed (fst state) -> wellFormed (fst (groupStep state g)).
Proof.
  destruct state as [counts keys]. unfold groupStep. simpl fst.
  intros Hwf u m'.
  assert (Hfst : forall (b : bool) (x y : list (Z * list string))
                        (c : list (Z * list (string * Z))),
             fst (if b then (c, x) else (c, y)) = c)
    by (intros [] ? ? ?; reflexivity).
  rewrite Hfst. clear Hfst.
  set (m := JsMap.orEmpty (JsMap.get Z.eqb (userId g) counts)).
  assert (Hm : NoDup (map fst m) /\ forall a c, In (a, c) m -> 0 < c).
  { unfold m. destruct (JsMap.get Z.eqb (userId g) counts) as [m0|] eqn:E.
    - apply (Hwf _ _ E).
    - simpl. split; [constructor|intros ? ? []]. }
  destruct (Z.eqb_spec (userId g) u) as [Hu|Hu].
  - subst u. rewrite (get_set_same _ Z_eqb_spec). intros [= <-]. split.
    + apply (set_NoDup _ string_eqb_spec). apply Hm.
    + intros a c Hin. apply set_In in Hin.
      destruct Hin as [[-> ->]|Hin]; [|apply (proj2 Hm a c Hin)].
      pose proof (getCount_nonneg m (achievementId g) (proj2 Hm)). lia.
  - rewrite (get_set_other _ Z_eqb_spec) by exact Hu. apply Hwf.
Qed.

Lemma groupStep_keys (state : Grouped) (g : AchievementGrantSummary) (u : Z) :
  JsMap.orEmpty (JsMap.get Z.eqb u (snd (groupStep state g)))
  = JsMap.orEmpty (JsMap.get Z.eqb u (snd state))
    ++ (if isWeeklyForty u g then [contextKey g] else []).
Proof.
  destruct state as [counts keys]. unfold groupStep, isWeeklyForty.
  simpl snd.
  destruct (String.eqb (achievementId g) WORKWEEK_WARRIOR_40H
            && contextKind_eqb (contextKind g) weekly) eqn:Hw; simpl snd.
  - destruct (Z.eqb_spec (userId g) u) as [Hu|Hu].
    + subst u. rewrite (get_set_same _ Z_eqb_spec).
      cbn [JsMap.orEmpty andb]. rewrite Hw. reflexivity.
    + rewrite (get_set_other _ Z_eqb_spec) by exact Hu.
      cbn [andb]. rewrite app_nil_r. reflexivity.
  - rewrite <- andb_assoc, Hw, andb_false_r, app_nil_r. reflexivity.
Qed.

Section Grouping.
Variable u : Z.

Lemma fold_counts (grants : list AchievementGrantSummary) :
  forall (state : Grouped) (a : string),
    getCount (JsMap.orEmpty
                (JsMap.get Z.eqb u (fst (fold_left groupStep grants state)))) a
    = getCount (JsMap.orEmpty (JsMap.get Z.eqb u (fst state))) a
      + Z.of_nat (List.length (filter (isGrantOf u a) grants)).
Proof.
  induction grants as [|g t IH]; intros state a; simpl.
  - lia.
  - rewrite IH, groupStep_counts.
    destruct (isGrantOf u a g); simpl List.length; lia.
Qed.

Lemma fold_wellFormed (grants : list AchievementGrantSummary) :
  forall state : Grouped,
    wellFormed (fst state) ->
    wellFormed (fst (fold_left groupStep grants state)).
Proof.
  induction grants as [|g t IH]; intros state Hwf; simpl.
  - exact Hwf.
  - apply IH. apply groupStep_wellFormed. exact Hwf.
Qed.

Lemma fold_keys (grants : list AchievementGrantSummary) :
  forall state : Grouped,
    JsMap.orEmpty (JsMap.get Z.eqb u (snd (fold_left groupStep grants state)))
    = JsMap.orEmpty (JsMap.get Z.eqb u (snd state))
      ++ map contextKey (filter (isWeeklyForty u) grants).
Proof.
  induction grants as [|g t IH]; intros state; simpl.
  - rewrite app_nil_r. reflexivity.
  - rewrite IH, groupStep_keys, <- app_assoc.
    destruct (isWeeklyForty u g); reflexivity.
Qed.

(** The count that the map holds is the number of matching grants. *)
Lemma achievementCountsOf_getCount (grants : list AchievementGrantSummary)
      (a : string) :
  getCount (achievementCountsOf u grants) a = unlocks u a grants.
Proof.
  unfold achievementCountsOf, groupGrants. rewrite fold_counts. reflexivity.
Qed.

Lemma achievementCountsOf_wellFormed
      (grants : list AchievementGrantSummary) :
  NoDup (map fst (achievementCountsOf u grants)) /\
  forall a c, In (a, c) (achievementCountsOf u grants) ->
              0 < c /\ c = unlocks u a grants.
Proof.
  unfold achievementCountsOf.
  assert (Hwf : wellFormed (fst (groupGrants grants))).
  { apply fold_wellFormed. intros x m. simpl. discriminate. }
  destruct (JsMap.get Z.eqb u (fst (groupGrants grants))) as [m|] eqn:E.
  - destruct (Hwf _ _ E) as [Hnd Hpos]. simpl. split; [exact Hnd|].
    intros a c Hin. split; [apply (Hpos a c Hin)|].
    rewrite <- achievementCountsOf_getCount.
    unfold achievementCountsOf. rewrite E. simpl. unfold getCount.
    rewrite (In_get _ string_eqb_spec _ _ _ Hnd Hin). reflexivity.
  - simpl. split; [constructor|intros ? ? []].
Qed.

Lemma weeklyFortyContextKeysOf_spec (grants : list AchievementGrantSummary) :
  weeklyFortyContextKeysOf u grants
  = map contextKey (filter (isWeeklyForty u) grants).
Proof.
  unfold weeklyFortyContextKeysOf, groupGrants. rewrite fold_keys.
  reflexivity.
Qed.
End Grouping.

End HonorTitleFacts.

(** ** Weekly streaks *)

Module StreakFacts.
Import HonorTitles.

Lemma WEEK_MS_pos : 0 < WEEK_MS.
Proof. reflexivity. Qed.

(** Two Mondays less than a week apart are a week apart. *)
Lemma mondays_adjacent (p x : Z) :
  mondayMidnight p -> mondayMidnight x ->
  p < x -> x - WEEK_MS <= p -> x - p = WEEK_MS.
Proof.
  unfold mondayMidnight. change WEEK_MS with 604800000.
  intros Hp Hx Hlt Hle. Z.div_mod_to_equations. lia.
Qed.

Ltac same_week H :=
  match goal with
  | |- In ?a ?l =>
      match type of H with
      | In ?b _ =>
          replace a with b; [exact H|change WEEK_MS with 604800000 in *; lia]
      end
  end.

Lemma weekRunEndingAt_weekRun (starts : list Z) (last : Z) (n : nat) :
  weekRunEndingAt starts last n <->
  weekRun starts (last - (Z.of_nat n - 1) * WEEK_MS) n.
Proof.
  unfold weekRunEndingAt, weekRun. split; intros H k Hk.
  - pose proof (H (n - 1 - k)%nat ltac:(lia)) as Hin. same_week Hin.
  - pose proof (H (n - 1 - k)%nat ltac:(lia)) as Hin. same_week Hin.
Qed.

Lemma streakStep_scanned (seen : list Z) (s : Streak) (x : Z) :
  scanned seen s ->
  (forall y, In y seen -> y < x) ->
  (forall y, In y seen -> mondayMidnight y) ->
  mondayMidnight x ->
  scanned (seen ++ [x]) (streakStep s x).
Proof.
  intros [Hnone Hlast Hcur Hlong] Hlt Hmon Hx.
  assert (Hin_x : In x (seen ++ [x]))
    by (apply in_or_app; right; left; reflexivity).
  assert (Hseen : forall y, In y (seen ++ [x]) -> In y seen \/ y = x).
  { intros y Hy. apply in_app_or in Hy.
    destruct Hy as [Hy|[Hy|[]]]; [left; exact Hy|right; symmetry; exact Hy]. }
  assert (Hcur' :
            forall n, (1 <= n)%nat ->
              ((n <= current (streakStep s x))%nat <->
               weekRunEndingAt (seen ++ [x]) x n)).
  { intros n Hn. unfold streakStep. simpl current.
    destruct (previous s) as [p|] eqn:Hp.
    - destruct (Hlast p eq_refl) as [Hpin Hpmax].
      destruct (Z.eqb_spec (x - p) WEEK_MS) as [Hweek|Hgap].
      + (* the week right after the previous one *)
        destruct n as [|[|m]]; [lia| |].
        * split; [|lia]. intros _ k Hk.
          replace k with O by lia. same_week Hin_x.
        * rewrite <- Nat.succ_le_mono, (Hcur (S m)) by lia.
          split.
          -- intros [p' [[= <-] Hrun]] k Hk.
             destruct k as [|k]; [same_week Hin_x|].
             apply in_or_app. left.
             pose proof (Hrun k ltac:(lia)) as Hin. same_week Hin.
          -- intro Hrun. exists p. split; [reflexivity|].
             intros k Hk. pose proof (Hrun (S k) ltac:(lia)) as Hin.
             destruct (Hseen _ Hin) as [Hin'|Heq].
             ++ same_week Hin'.
             ++ exfalso. change WEEK_MS with 604800000 in *. lia.
      + (* a gap *)
        split.
        * intros Hle k Hk. replace k with O by lia. same_week Hin_x.
        * intro Hrun. destruct n as [|[|m]]; [lia|lia|]. exfalso.
          pose proof (Hrun 1%nat ltac:(lia)) as Hin.
          destruct (Hseen _ Hin) as [Hin'|Heq].
          -- apply Hgap. apply mondays_adjacent.
             ++ apply Hmon. exact Hpin.
             ++ exact Hx.
             ++ apply Hlt. exact Hpin.
             ++ specialize (Hpmax _ Hin').
                change WEEK_MS with 604800000 in *. lia.
          -- change WEEK_MS with 604800000 in *. lia.
    - (* the first week *)
      specialize (Hnone eq_refl). subst seen. split.
      + intros Hle k Hk. replace k with O by lia. same_week Hin_x.
      + intro Hrun. destruct n as [|[|m]]; [lia|lia|]. exfalso.
        pose proof (Hrun 1%nat ltac:(lia)) as Hin.
        destruct Hin as [Heq|[]].
        change WEEK_MS with 604800000 in *. lia. }
  constructor.
  - discriminate.
  - intros p [= <-]. split; [exact Hin_x|].
    intros y Hy. destruct (Hseen y Hy) as [Hy1 | ->]; [|lia].
    specialize (Hlt y Hy1). lia.
  - intros n Hn. rewrite (Hcur' n Hn). simpl previous. split.
    + intro H. exists x. split; [reflexivity|exact H].
    + intros [p [[= <-] H]]. exact H.
  - intros n Hn.
    change (longest (streakStep s x))
      with (Nat.max (longest s) (current (streakStep s x))).
    rewrite Nat.max_le_iff, (Hlong n Hn), (Hcur' n Hn). split.
    + intros [[w Hrun]|Hrun].
      * exists w. intros k Hk. apply in_or_app. left. apply Hrun. exact Hk.
      * eexists. apply weekRunEndingAt_weekRun. exact Hrun.
    + intros [w Hrun].
      pose proof (Hrun (n - 1)%nat ltac:(lia)) as Htop.
      destruct (Hseen _ Htop) as [Htop'|Htop'].
      * left. exists w. intros k Hk.
        destruct (Hseen _ (Hrun k Hk)) as [Hin|Heq]; [exact Hin|].
        exfalso. specialize (Hlt _ Htop').
        change WEEK_MS with 604800000 in *. lia.
      * right. apply weekRunEndingAt_weekRun.
        intros k Hk. pose proof (Hrun k Hk) as Hin. same_week Hin.
Qed.

Lemma StronglySorted_middle (A : Type) (R : A -> A -> Prop) (l1 : list A) :
  forall x l2, StronglySorted R (l1 ++ x :: l2) ->
               forall y, In y l1 -> R y x.
Proof.
  induction l1 as [|a l1 IH]; intros x l2 Hs y Hy; [destruct Hy|].
  simpl in Hs. inversion Hs as [|? ? Ht Ha]; subst.
  destruct Hy as [<-|Hy].
  - rewrite Forall_forall in Ha. apply Ha. apply in_or_app. right. left.
    reflexivity.
  - eapply IH; eassumption.
Qed.

Lemma fold_scanned (rest : list Z) :
  forall (seen : list Z) (s : Streak),
    scanned seen s ->
    StronglySorted Z.lt (seen ++ rest) ->
    (forall y, In y (seen ++ rest) -> mondayMidnight y) ->
    scanned (seen ++ rest) (fold_left streakStep rest s).
Proof.
  induction rest as [|x t IH]; intros seen s Hs Hsorted Hmon; simpl.
  - rewrite app_nil_r. exact Hs.
  - replace (seen ++ x :: t) with ((seen ++ [x]) ++ t) in *
      by (rewrite <- app_assoc; reflexivity).
    apply IH; [|exact Hsorted|exact Hmon].
    apply streakStep_scanned.
    + exact Hs.
    + rewrite <- app_assoc in Hsorted. simpl in Hsorted.
      apply (StronglySorted_middle _ _ _ Hsorted).
    + intros y Hy. apply Hmon. apply in_or_app. left. apply in_or_app. left.
      exact Hy.
    + apply Hmon. apply in_or_app. left. apply in_or_app. right. left.
      reflexivity.
Qed.

Lemma scanned_start : scanned [] (mkStreak 0 0 None).
Proof.
  constructor; simpl.
  - reflexivity.
  - discriminate.
  - intros n Hn. split; [lia|]. intros [p [H _]]. discriminate.
  - intros n Hn. split; [lia|]. intros [w H].
    destruct (H O ltac:(lia)).
Qed.

End StreakFacts.

Module StreakSpec.
Import HonorTitles StreakFacts.

Lemma getIsoWeekStartMs_monday (year week ms : Z) :
  getIsoWeekStartMs year week = Some ms -> mondayMidnight ms.
Proof.
  unfold getIsoWeekStartMs, JsDate.UTC, JsDate.getUTCDay, JsDate.WeekDay,
    JsDate.Day.
  destruct ((week <? 1) || (53 <? week)); [discriminate|].
  generalize (JsDate.MakeDay
                (if (0 <=? year) && (year <=? 99) then 1900 + year else year)
                0 4).
  intros d. change JsDate.msPerDay with 86400000.
  rewrite Z.div_mul by lia.
  unfold mondayMidnight. change WEEK_MS with 604800000.
  destruct (Z.eqb_spec ((d + 4) mod 7) 0) as [E|E]; intros [= <-];
    Z.div_mod_to_equations; lia.
Qed.

Lemma parsedWeekStarts_In (contextKeys : list string) (ms : Z) :
  In ms (parsedWeekStarts contextKeys) <->
  exists k, In k contextKeys /\ parseIsoWeekFromContextKey k = Some ms.
Proof.
  induction contextKeys as [|k t IH]; simpl.
  - split; [intros []|intros [k [[] _]]].
  - destruct (parseIsoWeekFromContextKey k) as [v|] eqn:E; simpl;
      rewrite IH; split.
    + intros [<-|[k' [Hk' Hp]]].
      * exists k. split; [left; reflexivity|exact E].
      * exists k'. split; [right; exact Hk'|exact Hp].
    + intros [k' [[<-|Hk'] Hp]].
      * left. congruence.
      * right. exists k'. split; assumption.
    + intros [k' [Hk' Hp]]. exists k'. split; [right; exact Hk'|exact Hp].
    + intros [k' [[<-|Hk'] Hp]]; [congruence|].
      exists k'. split; assumption.
Qed.

Lemma parsedWeekStarts_monday (contextKeys : list string) (ms : Z) :
  In ms (parsedWeekStarts contextKeys) -> mondayMidnight ms.
Proof.
  intro H. apply parsedWeekStarts_In in H. destruct H as [k [_ Hp]].
  unfold parseIsoWeekFromContextKey in Hp.
  destruct (matchIsoWeek k) as [[year week]|]; [|discriminate].
  eapply getIsoWeekStartMs_monday. exact Hp.
Qed.

Lemma setOf_In (values : list Z) :
  forall seen x,
    In x (JsMap.setOf values seen) <-> In x values /\ ~ In x seen.
Proof.
  induction values as [|v t IH]; intros seen x; simpl.
  - tauto.
  - destruct (existsb (Z.eqb v) seen) eqn:E.
    + rewrite IH. apply existsb_exists in E. destruct E as [y [Hy Heq]].
      apply Z.eqb_eq in Heq. subst y. split.
      * intros [H1 H2]. split; [right; exact H1|exact H2].
      * intros [[->|H1] H2]; [contradiction|split; assumption].
    + assert (Hv : ~ In v seen).
      { intro Hin. apply not_true_iff_false in E. apply E.
        apply existsb_exists. exists v. split; [exact Hin|apply Z.eqb_refl]. }
      simpl. rewrite IH. simpl. split.
      * intros [<-|[H1 H2]]; [split; [left; reflexivity|exact Hv]|].
        split; [right; exact H1|tauto].
      * intros [[->|H1] H2]; [left; reflexivity|].
        destruct (Z.eq_dec v x) as [->|Hne]; [left; reflexivity|].
        right. split; [exact H1|]. intros [H|H]; [contradiction|contradiction].
Qed.

Lemma setOf_NoDup (values : list Z) :
  forall seen, NoDup (JsMap.setOf values seen).
Proof.
  induction values as [|v t IH]; intros seen; simpl.
  - constructor.
  - destruct (existsb (Z.eqb v) seen); [apply IH|].
    constructor; [|apply IH].
    rewrite setOf_In. simpl. tauto.
Qed.

Lemma StronglySorted_le_lt (l : list Z) :
  NoDup l -> StronglySorted Z.le l -> StronglySorted Z.lt l.
Proof.
  induction l as [|x t IH]; intros Hnd Hs; [constructor|].
  inversion Hnd as [|? ? Hnotin Hnd']; subst.
  inversion Hs as [|? ? Ht Hx]; subst.
  constructor; [apply IH; assumption|].
  rewrite Forall_forall in *. intros y Hy.
  specialize (Hx y Hy).
  assert (x <> y) by (intros ->; contradiction). lia.
Qed.

(** The week starts that the scan reads: strictly increasing, with the
    members of the parsed list. *)
Lemma weekStarts_sorted (contextKeys : list string) :
  let weekStarts :=
    JsArray.sort (fun a b => a - b)
                 (JsMap.setOf (parsedWeekStarts contextKeys) []) in
  StronglySorted Z.lt weekStarts /\
  forall x, In x weekStarts <-> In x (parsedWeekStarts contextKeys).
Proof.
  intro weekStarts. split.
  - apply StronglySorted_le_lt.
    + eapply Permutation_NoDup; [apply JsArrayFacts.sort_Permutation|].
      apply setOf_NoDup.
    + apply JsArrayFacts.sort_StronglySorted; intros; lia.
  - intro x. unfold weekStarts. rewrite JsArrayFacts.sort_In, setOf_In.
    simpl. tauto.
Qed.

(** The scan returns at least [n] exactly when the parsed week starts hold
    [n] weeks in a row. *)
Lemma getLongestConsecutiveWeekStreak_spec (contextKeys : list string)
      (n : nat) :
  (1 <= n)%nat ->
  ((n <= getLongestConsecutiveWeekStreak contextKeys)%nat <->
   exists first, weekRun (parsedWeekStarts contextKeys) first n).
Proof.
  intro Hn. unfold getLongestConsecutiveWeekStreak.
  destruct (weekStarts_sorted contextKeys) as [Hsorted Hmem].
  set (weekStarts := JsArray.sort _ _) in *.
  assert (Hscan : scanned ([] ++ weekStarts)
                          (fold_left streakStep weekStarts (mkStreak 0 0 None))).
  { apply fold_scanned.
    - apply scanned_start.
    - exact Hsorted.
    - intros y Hy. simpl in Hy. apply Hmem in Hy.
      eapply parsedWeekStarts_monday. exact Hy. }
  simpl in Hscan. rewrite (scanned_longest Hscan Hn).
  split; intros [w Hrun]; exists w; intros k Hk; apply Hmem, Hrun, Hk.
Qed.

End StreakSpec.

(** ** Resolving titles *)

Module ResolveFacts.
Import AchievementGrantSummary HonorTitles JsMapFacts HonorTitleFacts.
Import StreakSpec.

Lemma resolved_title (localeCompare : string -> string -> Z)
      (userIds : list Z) (grants : list AchievementGrantSummary) (u : Z) :
  In u userIds ->
  JsMap.get Z.eqb u (resolveHonorTitlesByUserId localeCompare userIds grants)
  = Some (resolveHonorTitle localeCompare
                            (achievementCountsOf u grants)
                            (weeklyFortyContextKeysOf u grants)).
Proof.
  intro Hin. unfold resolveHonorTitlesByUserId.
  apply (ofPairs_get _ Z_eqb_spec
           (fun userId =>
              resolveHonorTitle localeCompare
                                (achievementCountsOf userId grants)
                                (weeklyFortyContextKeysOf userId grants))).
  exact Hin.
Qed.

Lemma streak_of_user (u : Z) (grants : list AchievementGrantSummary)
      (n : nat) :
  (1 <= n)%nat ->
  ((n <= getLongestConsecutiveWeekStreak (weeklyFortyContextKeysOf u grants))%nat
   <-> exists first, weekRun (weeklyFortyStarts u grants) first n).
Proof.
  intro Hn. rewrite (getLongestConsecutiveWeekStreak_spec _ Hn).
  unfold weeklyFortyStarts. rewrite weeklyFortyContextKeysOf_spec.
  reflexivity.
Qed.

End ResolveFacts.

(** C5.  The weekly-streak combo rules come before everything else: a user
    whose weekly workweek-warrior-40h grants hold eight ISO weeks in a row
    (each exactly seven days after the one before) is titled "Emperor of
    Weeks", and one with four in a row but not eight is titled "Sultan of
    Weeks", whatever other achievements the user has unlocked. *)
Theorem streak_titles_come_first :
  forall (localeCompare : string -> string -> Z) (userIds : list Z)
         (grants : list AchievementGrantSummary.AchievementGrantSummary)
         (u : Z),
    In u userIds ->
    let title :=
      JsMap.get Z.eqb u
        (HonorTitles.resolveHonorTitlesByUserId localeCompare userIds grants) in
    let starts := HonorTitles.weeklyFortyStarts u grants in
    ((exists first, HonorTitles.weekRun starts first 8) ->
     title = Some (Some "Emperor of Weeks")) /\
    ((exists first, HonorTitles.weekRun starts first 4) ->
     ~ (exists first, HonorTitles.weekRun starts first 8) ->
     title = Some (Some "Sultan of Weeks")).
Proof.
  intros localeCompare userIds grants u Hin title starts.
  subst title starts. rewrite (ResolveFacts.resolved_title _ _ _ _ Hin).
  unfold HonorTitles.resolveHonorTitle, HonorTitles.resolveComboHonorTitle.
  split.
  - intro H8. apply ResolveFacts.streak_of_user in H8; [|lia].
    apply Nat.leb_le in H8. rewrite H8. reflexivity.
  - intros H4 H8. apply ResolveFacts.streak_of_user in H4; [|lia].
    rewrite <- ResolveFacts.streak_of_user in H8 by lia.
    apply Nat.leb_le in H4. apply Nat.leb_nle in H8.
    rewrite H8, H4. reflexivity.
Qed.

Module FallbackFacts.
Import AchievementGrantSummary HonorTitles JsMapFacts HonorTitleFacts.
Import StreakSpec.

Section Ranked.
Variable localeCompare : string -> string -> Z.
Hypothesis consistent : consistentComparator localeCompare.

Lemma localeCompare_refl (a : string) : localeCompare a a = 0.
Proof.
  destruct consistent as [Hanti _]. specialize (Hanti a a).
  destruct (localeCompare a a); simpl in Hanti; lia.
Qed.

Lemma compareRanked_nonpos (x y : RankedAchievement) :
  compareRanked localeCompare x y <= 0 -> rankedBefore localeCompare x y.
Proof.
  unfold compareRanked, rankedBefore.
  destruct (Z.eqb_spec (ra_priority x) (ra_priority y)); simpl; [|lia].
  destruct (Z.eqb_spec (ra_count x) (ra_count y)); simpl; lia.
Qed.

Lemma compareRanked_pos (x y : RankedAchievement) :
  0 < compareRanked localeCompare x y -> rankedBefore localeCompare y x.
Proof.
  unfold compareRanked, rankedBefore.
  destruct (Z.eqb_spec (ra_priority x) (ra_priority y)); simpl; [|lia].
  destruct (Z.eqb_spec (ra_count x) (ra_count y)); simpl; [|lia].
  intro Hpos. right. split; [lia|]. right. split; [lia|].
  destruct consistent as [Hanti _].
  specialize (Hanti (ra_achievementId x) (ra_achievementId y)).
  destruct (localeCompare (ra_achievementId x) (ra_achievementId y));
    destruct (localeCompare (ra_achievementId y) (ra_achievementId x));
    simpl in *; lia.
Qed.

Lemma rankedBefore_trans (x y z : RankedAchievement) :
  rankedBefore localeCompare x y -> rankedBefore localeCompare y z ->
  rankedBefore localeCompare x z.
Proof.
  destruct consistent as [_ Htrans]. unfold rankedBefore.
  intros [Hxy|[Ep [Hxy|[Ec Hxy]]]] [Hyz|[Ep' [Hyz|[Ec' Hyz]]]]; try lia.
  right. split; [lia|]. right. split; [lia|].
  eapply Htrans; eassumption.
Qed.

Lemma rankedBefore_refl (x : RankedAchievement) :
  rankedBefore localeCompare x x.
Proof.
  unfold rankedBefore. right. split; [reflexivity|]. right.
  split; [reflexivity|]. rewrite localeCompare_refl. lia.
Qed.

(** The first record of the sorted array is in the array and stands before
    every record of it. *)
Lemma sort_head (l : list RankedAchievement) :
  match JsArray.sort (compareRanked localeCompare) l with
  | first :: _ =>
      In first l /\ forall x, In x l -> rankedBefore localeCompare first x
  | [] => l = []
  end.
Proof.
  pose proof (JsArrayFacts.sort_Permutation (compareRanked localeCompare) l)
    as Hperm.
  pose proof (@JsArrayFacts.sort_StronglySorted
                _ (compareRanked localeCompare) (rankedBefore localeCompare)
                rankedBefore_trans compareRanked_pos compareRanked_nonpos l)
    as Hsorted.
  destruct (JsArray.sort (compareRanked localeCompare) l) as [|h t].
  - apply Permutation_sym, Permutation_nil in Hperm. exact Hperm.
  - split.
    + eapply Permutation_in; [apply Permutation_sym; exact Hperm|].
      left. reflexivity.
    + intros x Hx. apply (Permutation_in _ Hperm) in Hx.
      inversion Hsorted as [|? ? _ Hh]; subst.
      destruct Hx as [<-|Hx]; [apply rankedBefore_refl|].
      rewrite Forall_forall in Hh. apply Hh. exact Hx.
Qed.

Lemma resolveTopAchievementTitle_spec (counts : list (string * Z)) :
  match resolveTopAchievementTitle localeCompare counts with
  | Some title =>
      exists e, In e counts /\ 0 < snd e /\ title = titleOf (fst e) /\
                forall e', In e' counts -> 0 < snd e' ->
                           rankedBefore localeCompare (toRanked e)
                                        (toRanked e')
  | None => forall e, In e counts -> ~ 0 < snd e
  end.
Proof.
  unfold resolveTopAchievementTitle.
  pose proof (sort_head
                (map toRanked (filter (fun entry => 0 <? snd entry) counts)))
    as Hhead.
  destruct (JsArray.sort (compareRanked localeCompare) _) as [|h t].
  - intros e He Hpos.
    assert (Hin : In (toRanked e)
                     (map toRanked
                          (filter (fun entry => 0 <? snd entry) counts))).
    { apply in_map. apply filter_In. split; [exact He|].
      apply Z.ltb_lt. exact Hpos. }
    rewrite Hhead in Hin. destruct Hin.
  - destruct Hhead as [Hin Hfirst].
    apply in_map_iff in Hin. destruct Hin as [e [<- He]].
    apply filter_In in He. destruct He as [He Hpos].
    apply Z.ltb_lt in Hpos.
    exists e. split; [exact He|]. split; [exact Hpos|].
    split; [reflexivity|].
    intros e' He' Hpos'. apply Hfirst.
    apply in_map. apply filter_In. split; [exact He'|].
    apply Z.ltb_lt. exact Hpos'.
Qed.
End Ranked.

Section PerUser.
Variable u : Z.
Variable grants : list AchievementGrantSummary.

Lemma unlocked_In (a : string) :
  0 < unlocks u a grants ->
  In (a, unlocks u a grants) (achievementCountsOf u grants).
Proof.
  intro Hpos. apply (get_In _ string_eqb_spec).
  pose proof (achievementCountsOf_getCount u grants a) as Hc.
  unfold getCount in Hc.
  destruct (JsMap.get String.eqb a (achievementCountsOf u grants)) as [c|];
    [congruence|lia].
Qed.

Lemma unlocks_of_grant (g : AchievementGrantSummary) :
  In g grants -> userId g = u -> 0 < unlocks u (achievementId g) grants.
Proof.
  intros Hin Hu. unfold unlocks.
  assert (In g (filter (isGrantOf u (achievementId g)) grants)).
  { apply filter_In. split; [exact Hin|]. unfold isGrantOf.
    rewrite Hu, Z.eqb_refl, String.eqb_refl. reflexivity. }
  destruct (filter (isGrantOf u (achievementId g)) grants); [contradiction|].
  simpl. lia.
Qed.

Lemma unlocks_none (a : string) :
  (forall g, In g grants -> userId g <> u) -> unlocks u a grants = 0.
Proof.
  intro Hnone. unfold unlocks.
  replace (filter (isGrantOf u a) grants) with (@nil AchievementGrantSummary);
    [reflexivity|].
  symmetry. induction grants as [|g t IH]; simpl; [reflexivity|].
  unfold isGrantOf at 1.
  destruct (Z.eqb_spec (userId g) u) as [E|E].
  - exfalso. apply (Hnone g); [left; reflexivity|exact E].
  - simpl. apply IH. intros g' Hg'. apply Hnone. right. exact Hg'.
Qed.

Lemma no_grants_empty :
  (forall g, In g grants -> userId g <> u) ->
  achievementCountsOf u grants = [] /\ weeklyFortyContextKeysOf u grants = [].
Proof.
  intro Hnone. split.
  - destruct (achievementCountsOf_wellFormed u grants) as [_ Hpos].
    destruct (achievementCountsOf u grants) as [|[a c] t]; [reflexivity|].
    destruct (Hpos a c (or_introl eq_refl)) as [Hc Heq].
    rewrite (unlocks_none a Hnone) in Heq. lia.
  - rewrite weeklyFortyContextKeysOf_spec.
    replace (filter (isWeeklyForty u) grants)
      with (@nil AchievementGrantSummary); [reflexivity|].
    symmetry. clear -Hnone. induction grants as [|g t IH]; simpl;
      [reflexivity|].
    unfold isWeeklyForty at 1.
    destruct (Z.eqb_spec (userId g) u) as [E|E].
    + exfalso. apply (Hnone g); [left; reflexivity|exact E].
    + simpl. apply IH. intros g' Hg'. apply Hnone. right. exact Hg'.
Qed.

(** The fallback picks an unlocked achievement that outranks every unlocked
    achievement, and nothing when nothing is unlocked. *)
Lemma fallback_spec (localeCompare : string -> string -> Z) :
  consistentComparator localeCompare ->
  match resolveTopAchievementTitle localeCompare
                                   (achievementCountsOf u grants) with
  | Some title =>
      exists a, 0 < unlocks u a grants /\
                (forall b, 0 < unlocks u b grants ->
                           outranks localeCompare u grants a b) /\
                title = titleOf a
  | None => forall a, unlocks u a grants = 0
  end.
Proof.
  intro Hc.
  pose proof (resolveTopAchievementTitle_spec Hc
                (achievementCountsOf u grants)) as Hspec.
  destruct (achievementCountsOf_wellFormed u grants) as [_ Hwf].
  destruct (resolveTopAchievementTitle localeCompare
              (achievementCountsOf u grants)) as [title|].
  - destruct Hspec as [[a c] [Hin [Hpos [Htitle Hbest]]]].
    simpl in Hpos, Htitle.
    destruct (Hwf a c Hin) as [_ Hcount]. subst c.
    exists a. split; [exact Hpos|]. split; [|exact Htitle].
    intros b Hb.
    specialize (Hbest (b, unlocks u b grants) (unlocked_In b Hb) Hb).
    exact Hbest.
  - intro a.
    assert (Hge : 0 <= unlocks u a grants) by (unfold unlocks; lia).
    destruct (Z.eq_dec (unlocks u a grants) 0) as [E|E]; [exact E|].
    exfalso. apply (Hspec (a, unlocks u a grants)).
    + apply unlocked_In. lia.
    + simpl. lia.
Qed.
End PerUser.

End FallbackFacts.

Module DeterminismFacts.
Import AchievementGrantSummary HonorTitles JsMapFacts HonorTitleFacts.
Import StreakSpec FallbackFacts.

Lemma le_ext (a b : nat) :
  (forall n, (1 <= n)%nat -> ((n <= a)%nat <-> (n <= b)%nat)) -> a = b.
Proof.
  intro H.
  destruct a as [|a], b as [|b]; try reflexivity.
  - pose proof (proj2 (H (S b) ltac:(lia)) ltac:(lia)). lia.
  - pose proof (proj1 (H (S a) ltac:(lia)) ltac:(lia)). lia.
  - pose proof (proj1 (H (S a) ltac:(lia)) ltac:(lia)).
    pose proof (proj2 (H (S b) ltac:(lia)) ltac:(lia)). lia.
Qed.

Section Permuted.
Variable u : Z.
Variables grants grants' : list AchievementGrantSummary.
Hypothesis permuted : Permutation grants grants'.

Lemma unlocks_Permutation (a : string) :
  unlocks u a grants = unlocks u a grants'.
Proof.
  unfold unlocks. f_equal. apply Permutation_length.
  apply filter_Permutation. exact permuted.
Qed.

Lemma weeklyFortyStarts_Permutation (x : Z) :
  In x (weeklyFortyStarts u grants) -> In x (weeklyFortyStarts u grants').
Proof.
  unfold weeklyFortyStarts. rewrite !parsedWeekStarts_In.
  intros [k [Hk Hp]]. exists k. split; [|exact Hp].
  eapply Permutation_in; [|exact Hk].
  apply Permutation_map. apply filter_Permutation. exact permuted.
Qed.
End Permuted.

Lemma streak_Permutation (u : Z) (grants grants' : list AchievementGrantSummary) :
  Permutation grants grants' ->
  getLongestConsecutiveWeekStreak (weeklyFortyContextKeysOf u grants)
  = getLongestConsecutiveWeekStreak (weeklyFortyContextKeysOf u grants').
Proof.
  intro Hperm. apply le_ext. intros n Hn.
  rewrite !ResolveFacts.streak_of_user by exact Hn.
  split; intros [w Hrun]; exists w; intros k Hk.
  - apply (weeklyFortyStarts_Permutation u Hperm). apply Hrun. exact Hk.
  - apply (weeklyFortyStarts_Permutation u (Permutation_sym Hperm)).
    apply Hrun. exact Hk.
Qed.

Lemma combo_Permutation (u : Z) (grants grants' : list AchievementGrantSummary) :
  Permutation grants grants' ->
  resolveComboHonorTitle (achievementCountsOf u grants)
                         (weeklyFortyContextKeysOf u grants)
  = resolveComboHonorTitle (achievementCountsOf u grants')
                           (weeklyFortyContextKeysOf u grants').
Proof.
  intro Hperm. unfold resolveComboHonorTitle.
  rewrite (streak_Permutation u Hperm).
  rewrite !achievementCountsOf_getCount.
  rewrite !(unlocks_Permutation u Hperm).
  reflexivity.
Qed.

Lemma outranks_antisym (localeCompare : string -> string -> Z) (u : Z)
      (grants : list AchievementGrantSummary) (a b : string) :
  consistentComparator localeCompare ->
  (forall x y, localeCompare x y = 0 -> x = y) ->
  outranks localeCompare u grants a b ->
  outranks localeCompare u grants b a -> a = b.
Proof.
  intros [Hanti _] Heq Hab Hba. unfold outranks in *.
  apply Heq. specialize (Hanti a b).
  destruct Hab as [Hab|[Ep [Hab|[Ec Hab]]]];
    destruct Hba as [Hba|[Ep' [Hba|[Ec' Hba]]]]; lia.
Qed.

Lemma fallback_Permutation (localeCompare : string -> string -> Z) (u : Z)
      (grants grants' : list AchievementGrantSummary) :
  consistentComparator localeCompare ->
  (forall x y, localeCompare x y = 0 -> x = y) ->
  Permutation grants grants' ->
  resolveTopAchievementTitle localeCompare (achievementCountsOf u grants)
  = resolveTopAchievementTitle localeCompare (achievementCountsOf u grants').
Proof.
  intros Hc Heq Hperm.
  pose proof (fallback_spec u grants Hc) as H1.
  pose proof (fallback_spec u grants' Hc) as H2.
  destruct (resolveTopAchievementTitle localeCompare
              (achievementCountsOf u grants)) as [t|];
    destruct (resolveTopAchievementTitle localeCompare
                (achievementCountsOf u grants')) as [t'|].
  - destruct H1 as [a [Ha [Hbest ->]]]. destruct H2 as [a' [Ha' [Hbest' ->]]].
    assert (Ha1 : 0 < unlocks u a grants')
      by (rewrite <- (unlocks_Permutation u Hperm); exact Ha).
    assert (Ha2 : 0 < unlocks u a' grants)
      by (rewrite (unlocks_Permutation u Hperm); exact Ha').
    specialize (Hbest a' Ha2). specialize (Hbest' a Ha1).
    unfold outranks in Hbest'.
    rewrite <- !(unlocks_Permutation u Hperm) in Hbest'.
    do 2 f_equal.
    apply (outranks_antisym (localeCompare := localeCompare) (u := u)
                            (grants := grants) Hc Heq Hbest Hbest').
  - destruct H1 as [a [Ha _]].
    rewrite (unlocks_Permutation u Hperm), H2 in Ha. lia.
  - destruct H2 as [a [Ha _]].
    rewrite <- (unlocks_Permutation u Hperm), H1 in Ha. lia.
  - reflexivity.
Qed.

End DeterminismFacts.



Lemma streak_titles_come_first_witness :
  JsMap.get Z.eqb 1
    (HonorTitles.resolveHonorTitlesByUserId codeUnitCompare [1; 2; 3]
                                            sampleGrants)
  = Some (Some "Sultan of Weeks").
Proof.
  assert (Hstarts : HonorTitles.weeklyFortyStarts 1 sampleGrants
                    = [1704672000000; 1705881600000; 1704067200000;
                       1705276800000])
    by (vm_compute; reflexivity).
  apply (proj2 (@streak_titles_come_first codeUnitCompare [1; 2; 3]
                  sampleGrants 1 (or_introl eq_refl))).
  - exists 1704067200000. rewrite Hstarts. intros k Hk.
    change HonorTitles.WEEK_MS with 604800000.
    destruct k as [|[|[|[|k]]]]; [| | | |lia]; vm_compute; auto 6.
  - rewrite Hstarts. intros [first Hrun].
    pose proof (Hrun 0%nat ltac:(lia)) as H0.
    pose proof (Hrun 4%nat ltac:(lia)) as H4.
    change HonorTitles.WEEK_MS with 604800000 in *.
    simpl In in H0, H4. lia.
Defined.

(** ** The daily leaderboard *)

Module ServerFacts.
Import Server.

Lemma has_setOf (l : list Z) (x : Z) :
  has (JsMap.setOf l []) x = true <-> In x l.
Proof.
  unfold has. rewrite existsb_exists. split.
  - intros [y [Hy Heq]]. apply Z.eqb_eq in Heq. subst y.
    apply StreakSpec.setOf_In in Hy. apply Hy.
  - intro H. exists x. split; [|apply Z.eqb_refl].
    apply StreakSpec.setOf_In. split; [exact H|intros []].
Qed.

Lemma has_In (l : list Z) (x : Z) : has l x = true <-> In x l.
Proof.
  unfold has. rewrite existsb_exists. split.
  - intros [y [Hy Heq]]. apply Z.eqb_eq in Heq. subst y. exact Hy.
  - intro H. exists x. split; [exact H|apply Z.eqb_refl].
Qed.

Lemma visibility_eqb_eq (a b : StatsVisibility) :
  visibility_eqb a b = true <-> a = b.
Proof. destruct a, b; simpl; split; congruence. Qed.

Section Rows.
Variable localeCompare : string -> string -> Z.
Variable resolveDateKeyForUser : option string -> Z -> Z -> string.
Variable store : UserRepository.
Variable config : UserConfig.UserConfig.
Variable offsetDays baseDate now : Z.

Lemma inGraph_userIds (id : Z) :
  inGraph store config id <-> In id (userIds store config).
Proof.
  unfold inGraph, userIds, friendIds, groupPeerIds.
  rewrite StreakSpec.setOf_In. simpl. rewrite in_app_iff.
  rewrite !StreakSpec.setOf_In. simpl. intuition.
Qed.

Lemma presentUsers_In (ids : list Z) (id : Z) (user : User.User) :
  In id ids ->
  JsMap.get Z.eqb id (usersById store config) = Some user ->
  In user (presentUsers store config ids).
Proof.
  intros Hin Hget. induction ids as [|i t IH]; simpl; [destruct Hin|].
  destruct Hin as [->|Hin].
  - rewrite Hget. left. reflexivity.
  - destruct (JsMap.get Z.eqb i (usersById store config));
      [right|]; apply IH; exact Hin.
Qed.

Lemma canView_spec (user : User.User) :
  canView store config user (User.id user =? UserConfig.id config) = true
  <-> viewable store config user.
Proof.
  unfold canView, viewable.
  rewrite !orb_true_iff, !andb_true_iff, !orb_true_iff, !andb_true_iff.
  rewrite Z.eqb_eq, !visibility_eqb_eq.
  unfold friendIds, groupPeerIds. rewrite !has_setOf, has_In.
  tauto.
Qed.

Lemma buildDailyStat_classified (user : User.User) :
  classified resolveDateKeyForUser store config offsetDays baseDate user
    (buildDailyStat resolveDateKeyForUser store config offsetDays baseDate
                    user (User.id user =? UserConfig.id config)).
Proof.
  unfold classified, buildDailyStat.
  pose proof (canView_spec user) as Hview.
  destruct (canView store config user
                    (User.id user =? UserConfig.id config)); simpl.
  - destruct (JsMap.get Z.eqb (User.id user) _) as [row|]; simpl.
    + split; [reflexivity|]. split; [|intros _; auto].
      intro Hn. exfalso. apply Hn. apply Hview. reflexivity.
    + split; [reflexivity|]. split; [|intros _; auto].
      intro Hn. exfalso. apply Hn. apply Hview. reflexivity.
  - split; [reflexivity|]. split; [intros _; auto|].
    intro Hv. apply Hview in Hv. discriminate.
Qed.

Lemma entries_stat :
  map stat
      (entries (buildDailyLeaderboard localeCompare resolveDateKeyForUser
                  store config offsetDays baseDate now))
  = sortStats localeCompare
      (map (fun user =>
              buildDailyStat resolveDateKeyForUser store config offsetDays
                             baseDate user
                             (User.id user =? UserConfig.id config))
           (leaderboardUsers store config)).
Proof.
  unfold buildDailyLeaderboard. simpl entries.
  destruct (option_map totalSeconds _) as [selfSeconds|].
  - rewrite map_map. simpl. apply computeLeaderboard_stat.
  - apply computeLeaderboard_stat.
Qed.
End Rows.
End ServerFacts.



(** ** Strings of numbers and bucket keys *)

Module JsStringFacts.
Import JsString.

Lemma string_of_uint_noColon (d : Decimal.uint) :
  noColon (NilEmpty.string_of_uint d).
Proof.
  induction d; simpl; try exact I; (split; [discriminate|assumption]).
Qed.

Lemma ofNumber_noColon (n : Z) : noColon (JsString.ofNumber n).
Proof.
  unfold JsString.ofNumber, NilZero.string_of_int, NilZero.string_of_uint.
  destruct (Z.to_int n) as [d|d].
  - destruct d; try apply string_of_uint_noColon.
    simpl. split; [discriminate|exact I].
  - simpl. split; [discriminate|].
    destruct d; try apply string_of_uint_noColon.
    simpl. split; [discriminate|exact I].
Qed.

Lemma to_int_not_nil (n : Z) :
  Z.to_int n <> Decimal.Pos Decimal.Nil /\
  Z.to_int n <> Decimal.Neg Decimal.Nil.
Proof.
  destruct n as [|p|p]; simpl; split; try discriminate;
    intros [= H]; revert H; apply DecimalPos.Unsigned.to_uint_nonnil.
Qed.

Lemma ofNumber_inj (a b : Z) :
  JsString.ofNumber a = JsString.ofNumber b -> a = b.
Proof.
  unfold JsString.ofNumber. intro H.
  apply DecimalZ.to_int_inj.
  destruct (to_int_not_nil a) as [Ha1 Ha2].
  destruct (to_int_not_nil b) as [Hb1 Hb2].
  pose proof (NilZero.isi (Z.to_int a) Ha1 Ha2) as Ia.
  pose proof (NilZero.isi (Z.to_int b) Hb1 Hb2) as Ib.
  rewrite H in Ia. rewrite Ia in Ib. congruence.
Qed.

Lemma append_colon_inj (s1 : string) :
  forall s2 r1 r2,
    noColon s1 -> noColon s2 ->
    String.append s1 (String ":" r1) = String.append s2 (String ":" r2) ->
    s1 = s2 /\ r1 = r2.
Proof.
  induction s1 as [|c s1 IH]; intros [|c2 s2] r1 r2 H1 H2; simpl.
  - intros [= ->]. split; reflexivity.
  - intros [= <- _]. destruct H2 as [H2 _]. contradiction.
  - intros [= -> _]. destruct H1 as [H1 _]. contradiction.
  - intros [= -> Heq]. destruct H1 as [_ H1]. destruct H2 as [_ H2].
    destruct (IH s2 r1 r2 H1 H2 Heq) as [-> ->]. split; reflexivity.
Qed.

Lemma append_inv_head (r : string) :
  forall x y, String.append r x = String.append r y -> x = y.
Proof.
  induction r as [|c r IH]; simpl; intros x y H; [exact H|].
  injection H as H. apply IH. exact H.
Qed.

(** The key of a bucket determines its user and its ISO week. *)
Lemma bucketKey_inj (u u' : Z) (range w w' : string) :
  Backfill.bucketKey u range w = Backfill.bucketKey u' range w' ->
  u = u' /\ w = w'.
Proof.
  unfold Backfill.bucketKey. simpl String.append. intro H.
  apply append_colon_inj in H; try apply ofNumber_noColon.
  destruct H as [Hu Hr]. split; [apply ofNumber_inj; exact Hu|].
  apply append_inv_head in Hr. injection Hr as Hr. exact Hr.
Qed.

End JsStringFacts.

Module JsMapKeys.
Import JsMapFacts.
Section Keys.
Variables K V : Type.
Variable eqb : K -> K -> bool.
Hypothesis eqb_spec : forall a b, eqb a b = true <-> a = b.

Lemma get_None (k : K) (m : list (K * V)) :
  JsMap.get eqb k m = None <-> ~ In k (map fst m).
Proof.
  induction m as [|[k' v'] t IH]; simpl.
  - split; [intros _ []|reflexivity].
  - destruct (eqb k' k) eqn:E.
    + apply eqb_spec in E. subst k'. split; [discriminate|].
      intro H. exfalso. apply H. left. reflexivity.
    + rewrite IH. split.
      * intros H [Heq|Hin]; [|contradiction].
        subst k'. rewrite (eqb_refl _ eqb_spec) in E. discriminate.
      * intros H Hin. apply H. right. exact Hin.
Qed.

Lemma set_absent (k : K) (v : V) (m : list (K * V)) :
  JsMap.get eqb k m = None -> JsMap.set eqb k v m = m ++ [(k, v)].
Proof.
  induction m as [|[k' v'] t IH]; simpl; [reflexivity|].
  destruct (eqb k' k); [discriminate|].
  intro H. rewrite (IH H). reflexivity.
Qed.

Lemma set_present_keys (k : K) (v : V) (m : list (K * V)) :
  In k (map fst m) -> map fst (JsMap.set eqb k v m) = map fst m.
Proof.
  induction m as [|[k' v'] t IH]; simpl; [intros []|].
  destruct (eqb k' k) eqn:E; simpl.
  - apply eqb_spec in E. subst k'. reflexivity.
  - intros [Heq|Hin].
    + subst k'. rewrite (eqb_refl _ eqb_spec) in E. discriminate.
    + rewrite (IH Hin). reflexivity.
Qed.

(** With distinct keys, [set] leaves the other entries alone. *)
Lemma set_In_NoDup (k : K) (v : V) (m : list (K * V)) (a : K) (c : V) :
  NoDup (map fst m) ->
  In (a, c) (JsMap.set eqb k v m) ->
  (a = k /\ c = v) \/ (a <> k /\ In (a, c) m).
Proof.
  induction m as [|[k' v'] t IH]; simpl; intros Hnd Hin.
  - destruct Hin as [[= <- <-]|[]]. left. split; reflexivity.
  - inversion Hnd as [|? ? Hnotin Hnd']; subst.
    destruct (eqb k' k) eqn:E; simpl in Hin.
    + apply eqb_spec in E. subst k'.
      destruct Hin as [[= <- <-]|Hin]; [left; split; reflexivity|].
      right. split; [|right; exact Hin].
      intros ->. apply Hnotin.
      change k with (fst (k, c)). apply in_map. exact Hin.
    + destruct Hin as [[= <- <-]|Hin].
      * right. split; [|left; reflexivity].
        intros ->. rewrite (eqb_refl _ eqb_spec) in E. discriminate.
      * destruct (IH Hnd' Hin) as [H|[H1 H2]]; [left; exact H|].
        right. split; [exact H1|right; exact H2].
Qed.
End Keys.
End JsMapKeys.

(** ** Weekly buckets *)

Module BackfillFacts.
Import Backfill JsMapFacts JsMapKeys.

Section Bucketing.
Variable parseDate : string -> option Z.
Variable weeklyRangeKey : string.

Local Abbreviation rowKey := (Backfill.rowKey parseDate weeklyRangeKey).
Local Abbreviation hasKey := (Backfill.hasKey parseDate weeklyRangeKey).
Local Abbreviation bucketOf := (Backfill.bucketOf parseDate weeklyRangeKey).
Local Abbreviation bucketed := (Backfill.bucketed parseDate weeklyRangeKey).
Local Abbreviation bucketStep := (Backfill.bucketStep parseDate weeklyRangeKey).

Lemma hasKey_true (key : string) (row : DailyHistoryRow.DailyHistoryRow) :
  hasKey key row = true <-> rowKey row = Some key.
Proof.
  unfold Backfill.hasKey. destruct (rowKey row) as [k|].
  - rewrite String.eqb_eq. split; congruence.
  - split; discriminate.
Qed.

Lemma filter_snoc (A : Type) (p : A -> bool) (l : list A) (x : A) :
  filter p (l ++ [x]) = filter p l ++ (if p x then [x] else []).
Proof. rewrite filter_app. reflexivity. Qed.

Lemma latest_snoc (days : list WeekDayRecord.WeekDayRecord) (latest : Z)
      (day : WeekDayRecord.WeekDayRecord) :
  latestFetchedAt days latest ->
  latestFetchedAt (days ++ [day])
    (if latest <? WeekDayRecord.fetchedAt day
     then WeekDayRecord.fetchedAt day else latest).
Proof.
  intros [Hin Hmax]. unfold latestFetchedAt. rewrite map_app, in_app_iff.
  destruct (Z.ltb_spec latest (WeekDayRecord.fetchedAt day)); split.
  - right. left. reflexivity.
  - intros d Hd. apply in_app_or in Hd.
    destruct Hd as [Hd|[<-|[]]]; [specialize (Hmax d Hd)|]; lia.
  - left. exact Hin.
  - intros d Hd. apply in_app_or in Hd.
    destruct Hd as [Hd|[<-|[]]]; [apply Hmax; exact Hd|lia].
Qed.

Lemma bucketStep_skip (buckets : list (string * WeeklyBucket.WeeklyBucket))
      (row : DailyHistoryRow.DailyHistoryRow) :
  rowKey row = None -> bucketStep buckets row = buckets.
Proof.
  unfold Backfill.rowKey, Backfill.bucketStep.
  destruct (status_eqb _ ok); simpl; [|reflexivity].
  destruct (parseDateKey parseDate _); [discriminate|reflexivity].
Qed.

Lemma bucketStep_key (buckets : list (string * WeeklyBucket.WeeklyBucket))
      (row : DailyHistoryRow.DailyHistoryRow) (key : string) :
  rowKey row = Some key ->
  exists dayDate,
    parseDateKey parseDate (DailyHistoryRow.date_key row) = Some dayDate /\
    key = bucketKey (DailyHistoryRow.user_id row) weeklyRangeKey
                    (toIsoWeekKey dayDate) /\
    bucketStep buckets row
    = match JsMap.get String.eqb key buckets with
      | None =>
          JsMap.set String.eqb key
            {| WeeklyBucket.userId := DailyHistoryRow.user_id row;
               WeeklyBucket.isoWeekKey := toIsoWeekKey dayDate;
               WeeklyBucket.rangeKey := weeklyRangeKey;
               WeeklyBucket.fetchedAt := DailyHistoryRow.fetched_at row;
               WeeklyBucket.days := [toDay row] |}
            buckets
      | Some existing =>
          JsMap.set String.eqb key
            {| WeeklyBucket.userId := WeeklyBucket.userId existing;
               WeeklyBucket.isoWeekKey := WeeklyBucket.isoWeekKey existing;
               WeeklyBucket.rangeKey := WeeklyBucket.rangeKey existing;
               WeeklyBucket.fetchedAt :=
                 if WeeklyBucket.fetchedAt existing
                    <? DailyHistoryRow.fetched_at row
                 then DailyHistoryRow.fetched_at row
                 else WeeklyBucket.fetchedAt existing;
               WeeklyBucket.days := WeeklyBucket.days existing ++ [toDay row] |}
            buckets
      end.
Proof.
  unfold Backfill.rowKey, Backfill.bucketStep.
  destruct (status_eqb _ ok); simpl; [|discriminate].
  destruct (parseDateKey parseDate _) as [dayDate|]; [|discriminate].
  intros [= <-]. exists dayDate. split; [reflexivity|].
  split; reflexivity.
Qed.

Lemma bucketOf_other (read : list DailyHistoryRow.DailyHistoryRow)
      (row : DailyHistoryRow.DailyHistoryRow) (key : string)
      (bucket : WeeklyBucket.WeeklyBucket) :
  rowKey row <> Some key ->
  bucketOf read key bucket -> bucketOf (read ++ [row]) key bucket.
Proof.
  intros Hne (H1 & H2 & H3 & H4). unfold Backfill.bucketOf.
  rewrite filter_snoc.
  destruct (hasKey key row) eqn:E.
  - apply hasKey_true in E. contradiction.
  - rewrite app_nil_r.
    split; [exact H1|]. split; [exact H2|]. split; [exact H3|exact H4].
Qed.

Lemma bucketStep_bucketed (read : list DailyHistoryRow.DailyHistoryRow)
      (buckets : list (string * WeeklyBucket.WeeklyBucket))
      (row : DailyHistoryRow.DailyHistoryRow) :
  bucketed read buckets ->
  bucketed (read ++ [row]) (bucketStep buckets row).
Proof.
  intros (Hnd & Hall & Hcover).
  destruct (rowKey row) as [key|] eqn:Hkey.
  - destruct (bucketStep_key buckets row Hkey) as [dayDate [Hparse [Hk Hstep]]].
    rewrite Hstep. clear Hstep.
    destruct (JsMap.get String.eqb key buckets) as [existing|] eqn:Hget.
    + (* the bucket exists *)
      pose proof (get_In _ string_eqb_spec _ _ Hget) as Hin.
      assert (Hkeys : In key (map fst buckets))
        by (change key with (fst (key, existing)); apply in_map; exact Hin).
      split; [|split].
      * rewrite (set_present_keys _ string_eqb_spec) by exact Hkeys. exact Hnd.
      * intros k b Hb.
        apply (set_In_NoDup _ string_eqb_spec _ _ _ _ _ Hnd) in Hb.
        destruct Hb as [[-> ->]|[Hne Hb]].
        -- destruct (Hall key existing Hin) as (H1 & H2 & H3 & H4).
           unfold Backfill.bucketOf. simpl. rewrite filter_snoc.
           assert (E : hasKey key row = true) by (apply hasKey_true; exact Hkey).
           rewrite E, map_app, <- H3. simpl.
           split; [exact H1|]. split; [exact H2|]. split; [reflexivity|].
           apply (latest_snoc (toDay row) H4).
        -- apply bucketOf_other; [congruence|apply Hall; exact Hb].
      * intros r k Hr Hrk.
        rewrite (set_present_keys _ string_eqb_spec) by exact Hkeys.
        apply in_app_or in Hr. destruct Hr as [Hr|[<-|[]]].
        -- eapply Hcover; eassumption.
        -- congruence.
    + (* a new bucket *)
      pose proof (proj1 (get_None _ string_eqb_spec _ _) Hget) as Habsent.
      rewrite (set_absent _ _ _ _ Hget).
      split; [|split].
      * rewrite map_app. simpl. apply NoDup_app.
        -- exact Hnd.
        -- constructor; [intros []|constructor].
        -- intros k Hk1 [<-|[]]. contradiction.
      * intros k b Hb. apply in_app_or in Hb.
        destruct Hb as [Hb|[[= <- <-]|[]]].
        -- apply bucketOf_other; [|apply Hall; exact Hb].
           intro Heq. apply Habsent.
           assert (k = key) by congruence. subst k.
           change key with (fst (key, b)). apply in_map. exact Hb.
        -- unfold Backfill.bucketOf. simpl. rewrite filter_snoc.
           assert (E : hasKey key row = true) by (apply hasKey_true; exact Hkey).
           rewrite E.
           assert (Hnone : filter (hasKey key) read = []).
           { destruct (filter (hasKey key) read) as [|r t] eqn:Hf;
               [reflexivity|].
             exfalso. apply Habsent.
             assert (Hr : In r (filter (hasKey key) read))
               by (rewrite Hf; left; reflexivity).
             apply filter_In in Hr. destruct Hr as [Hr Hrk].
             apply hasKey_true in Hrk. eapply Hcover; eassumption. }
           rewrite Hnone. simpl.
           split; [exact Hk|]. split; [reflexivity|]. split; [reflexivity|].
           split; [left; reflexivity|].
           intros d [<-|[]]. simpl. lia.
      * intros r k Hr Hrk. rewrite map_app, in_app_iff.
        apply in_app_or in Hr. destruct Hr as [Hr|[<-|[]]].
        -- left. eapply Hcover; eassumption.
        -- right. left. simpl. congruence.
  - rewrite (bucketStep_skip _ _ Hkey).
    split; [exact Hnd|]. split.
    + intros k b Hb. apply bucketOf_other; [congruence|apply Hall; exact Hb].
    + intros r k Hr Hrk. apply in_app_or in Hr.
      destruct Hr as [Hr|[<-|[]]]; [eapply Hcover; eassumption|congruence].
Qed.

Lemma fold_bucketed (rows : list DailyHistoryRow.DailyHistoryRow) :
  forall read buckets,
    bucketed read buckets ->
    bucketed (read ++ rows) (fold_left bucketStep rows buckets).
Proof.
  induction rows as [|row t IH]; intros read buckets H; simpl.
  - rewrite app_nil_r. exact H.
  - replace (read ++ row :: t) with ((read ++ [row]) ++ t)
      by (rewrite <- app_assoc; reflexivity).
    apply IH. apply bucketStep_bucketed. exact H.
Qed.

Lemma buckets_bucketed (rows : list DailyHistoryRow.DailyHistoryRow) :
  bucketed rows (fold_left bucketStep rows []).
Proof.
  apply (@fold_bucketed rows [] []).
  split; [constructor|]. split; [intros ? ? []|intros ? ? []].
Qed.

(** A row has the key of a bucket exactly when it is an [ok] row of the
    bucket's user in the bucket's week. *)
Lemma hasKey_rowOfWeek (user : Z) (week : string)
      (row : DailyHistoryRow.DailyHistoryRow) :
  hasKey (bucketKey user weeklyRangeKey week) row
  = rowOfWeek parseDate user week row.
Proof.
  unfold Backfill.hasKey, Backfill.rowKey, rowOfWeek.
  destruct (status_eqb _ ok); cbn [andb]; [|reflexivity].
  destruct (parseDateKey parseDate _) as [dayDate|]; [|reflexivity].
  apply eq_true_iff_eq.
  rewrite String.eqb_eq, andb_true_iff, Z.eqb_eq, String.eqb_eq. split.
  - apply JsStringFacts.bucketKey_inj.
  - intros [-> ->]. reflexivity.
Qed.

Lemma sum_fold_left (days : list WeekDayRecord.WeekDayRecord) :
  forall acc,
    fold_left (fun sum day => sum + WeekDayRecord.totalSeconds day) days acc
    = acc + sumSeconds days.
Proof.
  unfold sumSeconds.
  induction days as [|d t IH]; intros acc; simpl; [lia|].
  rewrite IH. lia.
Qed.
End Bucketing.
End BackfillFacts.

Module BucketFacts.
Import Backfill BackfillFacts JsMapFacts.

Section Buckets.
Variable parseDate : string -> option Z.
Variable weeklyRangeKey : string.
Variable dailyRows : list DailyHistoryRow.DailyHistoryRow.

Lemma bucket_entry (bucket : WeeklyBucket.WeeklyBucket) :
  In bucket
     (createWeeklyBucketsFromDailyHistory parseDate dailyRows weeklyRangeKey)
  ->
  bucketOf parseDate weeklyRangeKey dailyRows
           (bucketKey (WeeklyBucket.userId bucket) weeklyRangeKey
                      (WeeklyBucket.isoWeekKey bucket))
           bucket.
Proof.
  unfold createWeeklyBucketsFromDailyHistory. intro Hin.
  apply in_map_iff in Hin. destruct Hin as [[key b] [Hb Hin]].
  simpl in Hb. subst b.
  destruct (buckets_bucketed parseDate weeklyRangeKey dailyRows)
    as (_ & Hall & _).
  pose proof (Hall key bucket Hin) as Hof.
  destruct Hof as (Hkey & _). rewrite <- Hkey. apply Hall. exact Hin.
Qed.

Lemma bucket_keys :
  map fst (fold_left (bucketStep parseDate weeklyRangeKey) dailyRows [])
  = map (fun bucket =>
           bucketKey (WeeklyBucket.userId bucket) weeklyRangeKey
                     (WeeklyBucket.isoWeekKey bucket))
        (createWeeklyBucketsFromDailyHistory parseDate dailyRows
                                             weeklyRangeKey).
Proof.
  unfold createWeeklyBucketsFromDailyHistory. rewrite map_map.
  apply map_ext_in. intros [key bucket] Hin. simpl.
  destruct (buckets_bucketed parseDate weeklyRangeKey dailyRows)
    as (_ & Hall & _).
  apply (Hall key bucket Hin).
Qed.

Lemma first_day_parses (bucket : WeeklyBucket.WeeklyBucket) :
  In bucket
     (createWeeklyBucketsFromDailyHistory parseDate dailyRows weeklyRangeKey)
  ->
  exists firstDay more firstDayDate,
    WeeklyBucket.days bucket = firstDay :: more /\
    parseDateKey parseDate (WeekDayRecord.dateKey firstDay)
    = Some firstDayDate.
Proof.
  intro Hin. destruct (bucket_entry bucket Hin) as (_ & _ & Hdays & Hlatest).
  destruct (WeeklyBucket.days bucket) as [|d more] eqn:E.
  - destruct Hlatest as [[] _].
  - assert (Hd : In d (map toDay
                           (filter (hasKey parseDate weeklyRangeKey
                                      (bucketKey (WeeklyBucket.userId bucket)
                                                 weeklyRangeKey
                                                 (WeeklyBucket.isoWeekKey
                                                    bucket)))
                                   dailyRows)))
      by (rewrite <- Hdays; left; reflexivity).
    apply in_map_iff in Hd. destruct Hd as [row [<- Hrow]].
    apply filter_In in Hrow. destruct Hrow as [_ Hkey].
    apply hasKey_true in Hkey.
    destruct (bucketStep_key parseDate weeklyRangeKey [] row Hkey)
      as [dayDate [Hparse _]].
    exists (toDay row), more, dayDate. split; [reflexivity|exact Hparse].
Qed.

Lemma awards_all (buckets : list WeeklyBucket.WeeklyBucket) :
  (forall bucket, In bucket buckets ->
     exists firstDay more firstDayDate,
       WeeklyBucket.days bucket = firstDay :: more /\
       parseDateKey parseDate (WeekDayRecord.dateKey firstDay)
       = Some firstDayDate) ->
  weeklyBucketAwards parseDate buckets = map awardOf buckets.
Proof.
  induction buckets as [|b t IH]; intro H; [reflexivity|].
  cbn [weeklyBucketAwards map].
  destruct (H b (or_introl eq_refl)) as [d [more [t0 [Hdays Hparse]]]].
  rewrite Hdays at 1. rewrite Hparse.
  rewrite IH by (intros b' Hb'; apply H; right; exact Hb').
  f_equal. unfold awardOf. rewrite !sum_fold_left. reflexivity.
Qed.
End Buckets.
End BucketFacts.


(** ** Dates *)

Module JsDateFacts.

(** [YearFromTime] is the year that holds the day of [t]. *)
Lemma YearFromTime_spec (t : Z) :
  JsDate.DayFromYear (JsDateFields.YearFromTime t) <= JsDate.Day t
  < JsDate.DayFromYear (JsDateFields.YearFromTime t + 1).
Proof.
  unfold JsDateFields.YearFromTime.
  generalize (JsDate.Day t). intro d.
  set (y := 1970 + 400 * d / 146097).
  assert (Hy : 146097 * (y - 1970) <= 400 * d
               < 146097 * (y - 1970) + 146097).
  { unfold y. Z.div_mod_to_equations. lia. }
  clearbody y.
  unfold JsDate.DayFromYear.
  destruct (Z.ltb_spec d (365 * (y - 1970) + (y - 1969) / 4
                          - (y - 1901) / 100 + (y - 1601) / 400)).
  - Z.div_mod_to_equations. lia.
  - destruct (Z.leb_spec (365 * (y + 1 - 1970) + (y + 1 - 1969) / 4
                          - (y + 1 - 1901) / 100 + (y + 1 - 1601) / 400) d).
    + Z.div_mod_to_equations. lia.
    + Z.div_mod_to_equations. lia.
Qed.

End JsDateFacts.

(** ** Durations *)

Module JsNumberFacts.
Import JsNumber.

Lemma binary_round_aux_sign (m e : Z) (l : location) :
  isNegative (binary_round_aux prec emax false m e l) = false.
Proof.
  unfold binary_round_aux.
  destruct (shr_fexp prec emax m e l) as [mrs e'].
  destruct (shr_fexp prec emax _ e' loc_Exact) as [mrs' e''].
  destruct (shr_m mrs') as [|p|p]; try reflexivity.
  destruct (e'' <=? emax - prec); reflexivity.
Qed.

Lemma ofZ_sign (n : Z) : 0 <= n -> isNegative (ofZ n) = false.
Proof.
  intro Hn. unfold ofZ, binary_normalize.
  destruct n as [|p|p]; [reflexivity| |lia].
  unfold binary_round.
  destruct (shl_align p 0 _) as [mz ez]. apply binary_round_aux_sign.
Qed.

Lemma sixty : ofZ 60 = S754_finite false 8444249301319680 (-47).
Proof. reflexivity. Qed.

Lemma div_sign (x : number) :
  isNegative x = false -> isNegative (div x (ofZ 60)) = false.
Proof.
  rewrite sixty. unfold div.
  destruct x as [s|s| |s m e]; intro Hs; simpl in Hs;
    try subst s; try reflexivity.
  unfold SFdiv.
  destruct (SFdiv_core_binary prec emax (Z.pos m) e
                              (Z.pos 8444249301319680) (-47))
    as [[mz ez] lz].
  apply binary_round_aux_sign.
Qed.

Lemma floor_sign (x : number) :
  isNegative x = false -> isNegative (floor x) = false.
Proof.
  destruct x as [s|s| |s m e]; simpl; intro Hs; try exact Hs.
  subst s. unfold floorZ. simpl cond_Zopp.
  destruct (Z.eqb_spec (Z.shiftl (Z.pos m) e) 0); [reflexivity|].
  apply ofZ_sign. apply Z.shiftl_nonneg. lia.
Qed.

Lemma round_sign (x : number) :
  isNegative x = false -> isNegative (round x) = false.
Proof.
  destruct x as [s|s| |s m e]; simpl; intro Hs; try exact Hs.
  subst s. unfold roundZ. simpl cond_Zopp.
  destruct (0 <=? e).
  - destruct (Z.eqb_spec (Z.shiftl (Z.pos m) e) 0); [reflexivity|].
    apply ofZ_sign. apply Z.shiftl_nonneg. lia.
  - destruct (Z.eqb_spec (Z.shiftl (Z.pos m + Z.shiftl 1 (- e - 1)) e) 0);
      [reflexivity|].
    apply ofZ_sign. apply Z.shiftl_nonneg.
    assert (0 <= Z.shiftl 1 (- e - 1)) by (apply Z.shiftl_nonneg; lia).
    lia.
Qed.

Lemma rem_sign (x : number) :
  isNegative x = false -> isNegative (rem x (ofZ 60)) = false.
Proof.
  rewrite sixty.
  destruct x as [s|s| |s m e]; intro Hs; simpl in Hs;
    try subst s; try reflexivity.
  unfold rem. cbv zeta.
  set (e0 := Z.min e (-47)).
  set (r := Z.shiftl (Z.pos m) (e - e0)
            mod Z.shiftl (Z.pos 8444249301319680) (-47 - e0)).
  destruct (Z.eqb_spec r 0); [reflexivity|].
  assert (Hr : 0 <= r).
  { unfold r. apply Z.mod_pos_bound.
    assert (Hq : 0 <= -47 - e0) by (unfold e0; lia).
    rewrite Z.shiftl_mul_pow2 by exact Hq.
    assert (0 < 2 ^ (-47 - e0)) by (apply Z.pow_pos_nonneg; lia).
    lia. }
  unfold binary_normalize. simpl cond_Zopp.
  destruct r as [|p|p]; [reflexivity| |lia].
  unfold binary_round.
  destruct (shl_align p e0 _) as [mz ez]. apply binary_round_aux_sign.
Qed.

(** The guard and the clamp of [formatDuration] keep the finite numbers
    above zero and replace the others by [+0]. *)
Lemma safeSeconds_clamped (seconds : number) :
  (if isFinite seconds then max0 seconds else zero) = clamped seconds.
Proof.
  unfold clamped, max0.
  destruct seconds as [s|s| |s m e]; reflexivity.
Qed.

Lemma clamped_sign (seconds : number) : isNegative (clamped seconds) = false.
Proof.
  unfold clamped.
  destruct seconds as [s|s| |s m e]; try reflexivity.
  destruct s; reflexivity.
Qed.

Lemma clamped_zero (seconds : number) :
  isFinite seconds = false \/ SFltb zero seconds = false ->
  clamped seconds = zero.
Proof.
  unfold clamped. intros [H|H]; rewrite H; [reflexivity|].
  rewrite andb_false_r. reflexivity.
Qed.

End JsNumberFacts.



(** ** The tests of the shared package and known calendar weeks, on the model *)

Module PackageTests.

Example formatDuration_minutes_and_hours :
  map (fun seconds => JsNumber.formatDuration (fun _ => "") (JsNumber.ofZ seconds))
      [0; 59; 3600; 3660]
  = ["0m"; "1m"; "1h"; "1h 1m"].
Proof. vm_compute. reflexivity. Qed.

Example orders_by_status_then_time :
  map (fun e => (username (stat e), rank e))
      (computeLeaderboard codeUnitCompare
         [st "ben" 1000 ok; st "amy" 2000 ok; st "dena" 0 private;
          st "mo" 1500 ok] "mo")
  = [("amy", Some 1%nat); ("mo", Some 2%nat); ("ben", Some 3%nat);
     ("dena", None)].
Proof. vm_compute. reflexivity. Qed.

Example keeps_equal_totals_at_the_same_rank :
  map rank
      (computeLeaderboard codeUnitCompare
         [st "amy" 1200 ok; st "ben" 1200 ok; st "mo" 900 ok] "mo")
  = [Some 1%nat; Some 1%nat; Some 3%nat].
Proof. vm_compute. reflexivity. Qed.

Example unique_ranks_when_all_ranked_users_are_at_zero :
  map (fun e => (username (stat e), rank e))
      (computeLeaderboard codeUnitCompare
         [st "zoe" 0 ok; st "amy" 0 ok; st "mo" 0 ok] "mo")
  = [("amy", Some 1%nat); ("mo", Some 2%nat); ("zoe", Some 3%nat)].
Proof. vm_compute. reflexivity. Qed.

Example splits_podium_near_me_and_rest :
  let slices :=
    sliceLeaderboard codeUnitCompare
      [st "amy" 4000 ok; st "ben" 3500 ok; st "cora" 3000 ok;
       st "mo" 2500 ok; st "dena" 2400 ok; st "eli" 0 private] "mo"
      (mkSliceOptions (Some 3) (Some 1)) in
  map username (podium slices) = ["amy"; "ben"; "cora"] /\
  map username (nearMe slices) = ["cora"; "mo"; "dena"] /\
  map username (rest slices) = ["eli"].
Proof. vm_compute. repeat split. Qed.

Example empty_near_me_when_self_is_missing :
  let slices :=
    sliceLeaderboard codeUnitCompare
      [st "amy" 1200 ok; st "ben" 900 ok] "zoe" (mkSliceOptions None None) in
  nearMe slices = [] /\ map username (podium slices) = ["amy"; "ben"].
Proof. vm_compute. repeat split. Qed.

Example fewer_than_podium_entries :
  let slices :=
    sliceLeaderboard codeUnitCompare [st "amy" 1200 ok] "amy"
                     (mkSliceOptions None None) in
  map username (podium slices) = ["amy"] /\
  map username (nearMe slices) = ["amy"] /\
  rest slices = [].
Proof. vm_compute. repeat split. Qed.

(** 2024-01-01 is a Monday; 2024-12-30 is the Monday of the first week of
    2025; 2021-01-03 is the Sunday that ends the 53rd week of 2020. *)
Example toIsoWeekKey_known_weeks :
  map (fun ymd => let '(y, m, d) := ymd in
                  Backfill.toIsoWeekKey (JsDate.UTC y m d))
      [(2024, 0, 1); (2024, 11, 30); (2021, 0, 3); (2020, 11, 31);
       (2023, 0, 1); (2026, 10, 3)]
  = ["2024-W01"; "2025-W01"; "2020-W53"; "2020-W53"; "2022-W52"; "2026-W45"].
Proof. vm_compute. reflexivity. Qed.

(** The weeks of the backfill keys are the weeks the honor titles read. *)
Example toIsoWeekKey_parseIsoWeekFromContextKey :
  map (fun ymd => let '(y, m, d) := ymd in
                  HonorTitles.parseIsoWeekFromContextKey
                    (String.append "7:this_week:"
                       (Backfill.toIsoWeekKey (JsDate.UTC y m d))))
      [(2024, 0, 3); (2021, 0, 3); (2026, 10, 3)]
  = [Some (JsDate.UTC 2024 0 1); Some (JsDate.UTC 2020 11 28);
     Some (JsDate.UTC 2026 10 2)].
Proof. vm_compute. reflexivity. Qed.

End PackageTests.
